(** * Asana Sync for Obsidian: the reconciliation engine, embedded and verified

    A shallow embedding of [syncEngine.ts] (task-line codec, note parser,
    [syncProject]) and of the checkbox change detector of [main.ts], followed
    by the properties of the specification that were checked against it.

    Strings are JavaScript strings: sequences of UTF-16 code units.  The two
    regular expressions of the engine carry no [u] flag, so they work on code
    units as well; they are run by a backtracking matcher that follows the
    priorities of the ECMAScript matcher (greedy and lazy quantifiers,
    optional groups, captures). *)

From Stdlib Require Import List NArith Arith Bool Lia String Ascii.
Import ListNotations.

Set Implicit Arguments.

(* ------------------------------------------------------------------ *)
(** ** JavaScript strings *)

(** A string is a list of UTF-16 code units. *)
Definition str := list N.

Module Js.

Definition lit (s : string) : str :=
  List.map N_of_ascii (list_ascii_of_string s).

Definition str_eq_dec : forall a b : str, {a = b} + {a <> b} :=
  list_eq_dec N.eq_dec.

Fixpoint eqb (a b : str) : bool :=
  match a, b with
  | [], [] => true
  | x :: a', y :: b' => N.eqb x y && eqb a' b'
  | _, _ => false
  end.

(** [WhiteSpace] and [LineTerminator] code units: the class [\s] of a regular
    expression and the characters removed by [String.prototype.trim]. *)
Definition is_space (c : N) : bool :=
  ((9 <=? c) && (c <=? 13) || (c =? 32) || (c =? 160) || (c =? 5760)
   || (8192 <=? c) && (c <=? 8202) || (c =? 8232) || (c =? 8233)
   || (c =? 8239) || (c =? 8287) || (c =? 12288) || (c =? 65279))%N.

(** [.] without the [s] flag: anything but a line terminator. *)
Definition is_dot (c : N) : bool :=
  negb ((c =? 10) || (c =? 13) || (c =? 8232) || (c =? 8233))%N.

(** [\d] *)
Definition is_digit (c : N) : bool := ((48 <=? c) && (c <=? 57))%N.

(** [\w] *)
Definition is_word (c : N) : bool :=
  ((97 <=? c) && (c <=? 122) || (65 <=? c) && (c <=? 90)
   || (48 <=? c) && (c <=? 57) || (c =? 95))%N.

Fixpoint trimStart (s : str) : str :=
  match s with
  | c :: s' => if is_space c then trimStart s' else s
  | [] => []
  end.

Definition trimEnd (s : str) : str := rev (trimStart (rev s)).

(** [s.trim()] *)
Definition trim (s : str) : str := trimEnd (trimStart s).

(** [s.startsWith(p)] *)
Fixpoint startsWith (p s : str) : bool :=
  match p, s with
  | [], _ => true
  | x :: p', y :: s' => N.eqb x y && startsWith p' s'
  | _ :: _, [] => false
  end.

(** [s.split("\n")]: never empty, one more piece than there are newlines. *)
Fixpoint split_nl (s : str) : list str :=
  match s with
  | [] => [[]]
  | c :: s' =>
      if (c =? 10)%N then [] :: split_nl s'
      else match split_nl s' with
           | l :: ls => (c :: l) :: ls
           | [] => [[c]]
           end
  end.

(** [lines.join("\n")] *)
Fixpoint join_nl (ls : list str) : str :=
  match ls with
  | [] => []
  | [l] => l
  | l :: ls' => l ++ 10%N :: join_nl ls'
  end.

(** Truthiness of a string: the empty string is falsy. *)
Definition truthy (s : str) : bool :=
  match s with [] => false | _ => true end.

End Js.

(* ------------------------------------------------------------------ *)
(** ** A backtracking matcher for the regular expressions of the engine *)

Module Re.

(** The fragment of the ECMAScript pattern language that [TASK_LINE_REGEX]
    and [ASANA_GID_REGEX] use.  Quantifiers only ever apply to a character
    class ([\s*], [.+?], [\w+], [\d{4}]) or, as [?], to a non-capturing
    group. *)
Inductive regex : Type :=
| Eps
| Chr (p : N -> bool)            (* one code unit of a class *)
| Seq (a b : regex)
| StarG (p : N -> bool)          (* [p*], greedy *)
| StarL (p : N -> bool)          (* [p*?], lazy *)
| Opt (a : regex)                (* [(?:a)?], greedy *)
| Group (n : nat) (a : regex)    (* capture group number n *)
| Bol                            (* [^] without the [m] flag *)
| Eol.                           (* [$] without the [m] flag *)

Definition captures := list (nat * str).

Fixpoint cap_get (n : nat) (c : captures) : option str :=
  match c with
  | [] => None
  | (m, v) :: c' => if Nat.eqb n m then Some v else cap_get n c'
  end.

Section Matcher.

Variable A : Type.

(** Greedy [p*] followed by the continuation [k]: the longest run first,
    then shorter ones. *)
Fixpoint star_greedy (p : N -> bool) (s : str) (k : str -> option A)
  : option A :=
  match s with
  | x :: s' =>
      if p x then
        match star_greedy p s' k with
        | Some r => Some r
        | None => k s
        end
      else k s
  | [] => k []
  end.

(** Lazy [p*?] followed by [k]: the shortest run first. *)
Fixpoint star_lazy (p : N -> bool) (s : str) (k : str -> option A)
  : option A :=
  match k s with
  | Some r => Some r
  | None =>
      match s with
      | x :: s' => if p x then star_lazy p s' k else None
      | [] => None
      end
  end.

End Matcher.

Section Exec.

(** The whole input, needed by [^] and to cut captured substrings. *)
Variable input : str.

Fixpoint exec (r : regex) (s : str) (c : captures)
         (k : str -> captures -> option captures) : option captures :=
  match r with
  | Eps => k s c
  | Chr p =>
      match s with
      | x :: s' => if p x then k s' c else None
      | [] => None
      end
  | Seq a b => exec a s c (fun s1 c1 => exec b s1 c1 k)
  | StarG p => star_greedy p s (fun s' => k s' c)
  | StarL p => star_lazy p s (fun s' => k s' c)
  | Opt a =>
      match exec a s c k with
      | Some r => Some r
      | None => k s c
      end
  | Group n a =>
      exec a s c
        (fun s' c' => k s' ((n, firstn (List.length s - List.length s') s) :: c'))
  | Bol => if Nat.eqb (List.length s) (List.length input) then k s c else None
  | Eol => match s with [] => k s c | _ :: _ => None end
  end.

(** Try the pattern at the position where [s] starts, then further right. *)
Fixpoint search_from (r : regex) (s : str) : option captures :=
  match exec r s [] (fun _ c => Some c) with
  | Some c => Some c
  | None =>
      match s with
      | [] => None
      | _ :: s' => search_from r s'
      end
  end.

End Exec.

(** [input.match(r)] for a pattern without the [g] flag: the captures of the
    leftmost match. *)
Definition match_ (r : regex) (input : str) : option captures :=
  search_from input r input.

(** Pattern combinators. *)
Fixpoint Lit (s : str) : regex :=
  match s with
  | [] => Eps
  | x :: s' => Seq (Chr (N.eqb x)) (Lit s')
  end.

Fixpoint Seqs (rs : list regex) : regex :=
  match rs with
  | [] => Eps
  | [r] => r
  | r :: rs' => Seq r (Seqs rs')
  end.

Fixpoint Rep (n : nat) (p : N -> bool) : regex :=
  match n with
  | O => Eps
  | S n' => Seq (Chr p) (Rep n' p)
  end.

Definition PlusG (p : N -> bool) : regex := Seq (Chr p) (StarG p).
Definition PlusL (p : N -> bool) : regex := Seq (Chr p) (StarL p).

End Re.

(* ------------------------------------------------------------------ *)
(** ** Data model ([types.ts], [asanaApi.ts]) *)

Record NamedRef := { ref_gid : str; ref_name : str }.

Record Membership := {
  project : option NamedRef;
  section : option NamedRef
}.

Record AsanaTask := {
  gid : str;
  name : str;
  completed : bool;
  due_on : option str;
  assignee : option NamedRef;
  permalink_url : str;
  notes : str;
  memberships : list Membership
}.

Record ParsedTask := {
  line : str;
  lineNumber : nat;
  p_completed : bool;
  p_name : str;
  asanaGid : option str;
  dueDate : option str;
  p_assignee : option str
}.

Record SyncedProject := {
  projectGid : str;
  projectName : str;
  notePath : str;
  isMyTasks : bool;
  userTaskListGid : option str
}.

Record AsanaSyncSettings := {
  asanaAccessToken : str;
  syncedProjects : list SyncedProject;
  showDueDates : bool;
  showAssignees : bool;
  showCompletedTasks : bool
}.

(* ------------------------------------------------------------------ *)
(** ** The task-line codec *)

(** The two markers, as the surrogate pairs the source text contains. *)
Definition CALENDAR : str := [55357; 56517]%N.   (* U+1F4C5 *)
Definition BUST : str := [55357; 56420]%N.       (* U+1F464 *)

Definition is_flag (c : N) : bool := ((c =? 32) || (c =? 120) || (c =? 88))%N.

Definition DATE : Re.regex :=
  Re.Seqs [Re.Rep 4 Js.is_digit; Re.Lit (Js.lit "-"); Re.Rep 2 Js.is_digit;
           Re.Lit (Js.lit "-"); Re.Rep 2 Js.is_digit].

Definition DUE_PART : Re.regex :=
  Re.Seqs [Re.StarG Js.is_space; Re.Lit CALENDAR; Re.StarG Js.is_space;
           Re.Group 5 DATE].

Definition ASSIGNEE_PART : Re.regex :=
  Re.Seqs [Re.StarG Js.is_space; Re.Lit BUST; Re.StarG Js.is_space;
           Re.Group 6 (Re.PlusL Js.is_dot)].

(** [<!--\s*asana:(\w+)\s*-->] with the identifier in group [n]. *)
Definition GID_COMMENT (n : nat) : Re.regex :=
  Re.Seqs [Re.Lit (Js.lit "<!--"); Re.StarG Js.is_space;
           Re.Lit (Js.lit "asana:"); Re.Group n (Re.PlusG Js.is_word);
           Re.StarG Js.is_space; Re.Lit (Js.lit "-->")].

Definition GID_PART : Re.regex :=
  Re.Seq (Re.StarG Js.is_space) (GID_COMMENT 7).

(** [/^(\s*- \[)([ xX])(\] )(.+?)(?:\s*CAL\s*(\d{4}-\d{2}-\d{2}))?
      (?:\s*BUST\s*(.+?))?(?:\s*<!--\s*asana:(\w+)\s*-->)?\s*$/] *)
Definition TASK_LINE_REGEX : Re.regex :=
  Re.Seqs [Re.Bol;
           Re.Group 1 (Re.Seq (Re.StarG Js.is_space) (Re.Lit (Js.lit "- [")));
           Re.Group 2 (Re.Chr is_flag);
           Re.Group 3 (Re.Lit (Js.lit "] "));
           Re.Group 4 (Re.PlusL Js.is_dot);
           Re.Opt DUE_PART;
           Re.Opt ASSIGNEE_PART;
           Re.Opt GID_PART;
           Re.StarG Js.is_space;
           Re.Eol].

(** [/<!--\s*asana:(\w+)\s*-->/] *)
Definition ASANA_GID_REGEX : Re.regex := GID_COMMENT 1.

Definition or_null (o : option str) : option str :=
  match o with
  | Some s => if Js.truthy s then Some s else None
  | None => None
  end.

Definition parseTaskLine (line : str) (lineNumber : nat) : option ParsedTask :=
  match Re.match_ TASK_LINE_REGEX line with
  | None => None
  | Some m =>
      let g n := match Re.cap_get n m with Some s => s | None => [] end in
      Some {| line := line;
              lineNumber := lineNumber;
              p_completed := Js.eqb (g 2) (Js.lit "x") || Js.eqb (g 2) (Js.lit "X");
              p_name := Js.trim (g 4);
              asanaGid := or_null (Re.cap_get 7 m);
              dueDate := or_null (Re.cap_get 5 m);
              p_assignee := or_null (option_map Js.trim (Re.cap_get 6 m)) |}
  end.

Definition formatTaskLine (task : AsanaTask)
           (showDueDates showAssignees : bool) : str :=
  let checkbox := if completed task then Js.lit "- [x]" else Js.lit "- [ ]" in
  let line := checkbox ++ Js.lit " " ++ name task in
  let line :=
    match due_on task with
    | Some d =>
        if showDueDates && Js.truthy d
        then line ++ Js.lit " " ++ CALENDAR ++ Js.lit " " ++ d
        else line
    | None => line
    end in
  let line :=
    match assignee task with
    | Some a =>
        if showAssignees && Js.truthy (ref_name a)
        then line ++ Js.lit " " ++ BUST ++ Js.lit " " ++ ref_name a
        else line
    | None => line
    end in
  line ++ Js.lit " <!-- asana:" ++ gid task ++ Js.lit " -->".

(** The first identifier comment of a line: [line.match(ASANA_GID_REGEX)],
    then [gidMatch[1]]. *)
Definition gidMatch (line : str) : option str :=
  match Re.match_ ASANA_GID_REGEX line with
  | Some m => Re.cap_get 1 m
  | None => None
  end.

(* ------------------------------------------------------------------ *)
(** ** JavaScript [Map] and [Set] keyed by strings *)

Module JsMap.

Section Ops.

Variable V : Type.

(** Entries in insertion order; keys are unique. *)
Definition t := list (str * V).

Fixpoint get (k : str) (m : t) : option V :=
  match m with
  | [] => None
  | (k', v) :: m' => if Js.eqb k k' then Some v else get k m'
  end.

Definition has (k : str) (m : t) : bool :=
  match get k m with Some _ => true | None => false end.

(** [m.set(k, v)]: an existing key keeps its place, a new one goes last. *)
Fixpoint set (k : str) (v : V) (m : t) : t :=
  match m with
  | [] => [(k, v)]
  | (k', v') :: m' =>
      if Js.eqb k k' then (k', v) :: m' else (k', v') :: set k v m'
  end.

End Ops.

End JsMap.

(** [Set<string>]: only [add] and [has] are used. *)
Definition set_has (k : str) (s : list str) : bool := existsb (Js.eqb k) s.
Definition set_add (k : str) (s : list str) : list str :=
  if set_has k s then s else s ++ [k].

(* ------------------------------------------------------------------ *)
(** ** The note parser *)

Definition UNSECTIONED : str := Eval cbv in Js.lit "(Unsectioned)".
Definition FENCE : str := Eval cbv in Js.lit "---".
Definition H1 : str := Eval cbv in Js.lit "# ".
Definition H2 : str := Eval cbv in Js.lit "## ".
Definition NL : str := Eval cbv in Js.lit "
".

(** [line.replace(/^## /, "").trim()] for a line that starts with ["## "]. *)
Definition sectionTitle (line : str) : str :=
  Js.trim (if Js.startsWith H2 line then skipn 3 line else line).

Record NoteState := {
  ns_tasks : list ParsedTask;
  ns_sections : JsMap.t (list ParsedTask);
  ns_currentSection : str;
  ns_frontmatter : str;
  ns_header : str;
  ns_inFrontmatter : bool;
  ns_frontmatterDone : bool;
  ns_headerDone : bool
}.

Definition ensureSection (k : str) (m : JsMap.t (list ParsedTask))
  : JsMap.t (list ParsedTask) :=
  if JsMap.has k m then m else JsMap.set k [] m.

Definition pushInto (k : str) (p : ParsedTask) (m : JsMap.t (list ParsedTask))
  : JsMap.t (list ParsedTask) :=
  match JsMap.get k m with
  | Some ps => JsMap.set k (ps ++ [p]) m
  | None => m
  end.

(** The tail of the loop body of [parseNoteContent]: section headers and task
    lines. *)
Definition parseNote_body (i : nat) (line : str) (st : NoteState) : NoteState :=
  if Js.startsWith H2 line then
    let cs := sectionTitle line in
    {| ns_tasks := ns_tasks st;
       ns_sections := ensureSection cs (ns_sections st);
       ns_currentSection := cs;
       ns_frontmatter := ns_frontmatter st;
       ns_header := ns_header st;
       ns_inFrontmatter := ns_inFrontmatter st;
       ns_frontmatterDone := ns_frontmatterDone st;
       ns_headerDone := ns_headerDone st |}
  else
    match parseTaskLine line i with
    | Some parsed =>
        {| ns_tasks := ns_tasks st ++ [parsed];
           ns_sections :=
             pushInto (ns_currentSection st) parsed
               (ensureSection (ns_currentSection st) (ns_sections st));
           ns_currentSection := ns_currentSection st;
           ns_frontmatter := ns_frontmatter st;
           ns_header := ns_header st;
           ns_inFrontmatter := ns_inFrontmatter st;
           ns_frontmatterDone := ns_frontmatterDone st;
           ns_headerDone := ns_headerDone st |}
    | None => st
    end.

(** One iteration of the loop of [parseNoteContent]. *)
Definition parseNote_step (i : nat) (line : str) (st : NoteState) : NoteState :=
  if Nat.eqb i 0 && Js.eqb line FENCE then
    {| ns_tasks := ns_tasks st;
       ns_sections := ns_sections st;
       ns_currentSection := ns_currentSection st;
       ns_frontmatter := ns_frontmatter st ++ line ++ NL;
       ns_header := ns_header st;
       ns_inFrontmatter := true;
       ns_frontmatterDone := ns_frontmatterDone st;
       ns_headerDone := ns_headerDone st |}
  else if ns_inFrontmatter st then
    let closes := Js.eqb line FENCE in
    {| ns_tasks := ns_tasks st;
       ns_sections := ns_sections st;
       ns_currentSection := ns_currentSection st;
       ns_frontmatter := ns_frontmatter st ++ line ++ NL;
       ns_header := ns_header st;
       ns_inFrontmatter := negb closes;
       ns_frontmatterDone := closes || ns_frontmatterDone st;
       ns_headerDone := ns_headerDone st |}
  else if ns_frontmatterDone st && negb (ns_headerDone st) then
    if Js.startsWith H1 line then
      {| ns_tasks := ns_tasks st;
         ns_sections := ns_sections st;
         ns_currentSection := ns_currentSection st;
         ns_frontmatter := ns_frontmatter st;
         ns_header := line;
         ns_inFrontmatter := ns_inFrontmatter st;
         ns_frontmatterDone := ns_frontmatterDone st;
         ns_headerDone := true |}
    else if Js.eqb (Js.trim line) [] then st
    else parseNote_body i line st
  else parseNote_body i line st.

(** [for (let i = 0; i < lines.length; i++)] over a state [S]. *)
Fixpoint for_lines (S : Type) (step : nat -> str -> S -> S)
         (i : nat) (lines : list str) (st : S) : S :=
  match lines with
  | [] => st
  | l :: ls => for_lines step (Datatypes.S i) ls (step i l st)
  end.

Record ParsedNote := {
  frontmatter : str;
  header : str;
  tasks : list ParsedTask;
  sections : JsMap.t (list ParsedTask);
  rawLines : list str
}.

Definition parseNoteContent (content : str) : ParsedNote :=
  let lines := Js.split_nl content in
  let st := for_lines parseNote_step 0 lines
              {| ns_tasks := []; ns_sections := [];
                 ns_currentSection := UNSECTIONED;
                 ns_frontmatter := []; ns_header := [];
                 ns_inFrontmatter := false; ns_frontmatterDone := false;
                 ns_headerDone := false |} in
  {| frontmatter := ns_frontmatter st;
     header := ns_header st;
     tasks := ns_tasks st;
     sections := ns_sections st;
     rawLines := lines |}.

(* ------------------------------------------------------------------ *)
(** ** Generating a note from scratch *)

(** The section a task is filed under: the section of its membership in this
    project, ["(Unsectioned)"] without one. *)
Definition sectionNameOf (projectGid : str) (task : AsanaTask) : str :=
  match
    find (fun m => match project m with
                   | Some p => Js.eqb (ref_gid p) projectGid
                   | None => false
                   end) (memberships task)
  with
  | Some m =>
      match section m with
      | Some s => if Js.truthy (ref_name s) then ref_name s else UNSECTIONED
      | None => UNSECTIONED
      end
  | None => UNSECTIONED
  end.

Definition groupBySection (projectGid : str) (ts : list AsanaTask)
  : JsMap.t (list AsanaTask) :=
  fold_left
    (fun m task =>
       let sectionName := sectionNameOf projectGid task in
       let m := if JsMap.has sectionName m then m else JsMap.set sectionName [] m in
       match JsMap.get sectionName m with
       | Some l => JsMap.set sectionName (l ++ [task]) m
       | None => m
       end)
    ts [].

Definition lastSyncLine (now : str) : str :=
  Js.lit "asana_last_sync: " ++ [34%N] ++ now ++ [34%N].

Definition generateNoteContent (projectName projectGid : str) (isMyTasks : bool)
           (asanaTasks : list AsanaTask)
           (showDueDates showAssignees showCompletedTasks : bool)
           (now : str) : str :=
  let lines :=
    [FENCE;
     Js.lit "asana_project_gid: " ++ [34%N] ++ projectGid ++ [34%N];
     Js.lit "asana_is_my_tasks: " ++ (if isMyTasks then Js.lit "true" else Js.lit "false");
     lastSyncLine now;
     FENCE;
     [];
     H1 ++ projectName;
     []] in
  let filteredTasks :=
    if showCompletedTasks then asanaTasks
    else filter (fun t => negb (completed t)) asanaTasks in
  let sectionMap := groupBySection projectGid filteredTasks in
  let lines :=
    fold_left
      (fun lines (entry : str * list AsanaTask) =>
         let (sectionName, sectionTasks) := entry in
         let lines :=
           if negb (Js.eqb sectionName UNSECTIONED)
           then lines ++ [H2 ++ sectionName; []]
           else lines in
         let lines :=
           lines ++ map (fun t => formatTaskLine t showDueDates showAssignees)
                        sectionTasks in
         lines ++ [[]])
      sectionMap lines in
  Js.join_nl lines.

(* ------------------------------------------------------------------ *)
(** ** The collaborators: remote client, vault, clock *)

(** The remote task API as the engine uses it ([asanaApi.ts] issues HTTP
    requests; what answers them is outside the repository).  [None] is a call
    that throws. *)
Class RemoteClient (Remote : Type) := {
  fetchProjectTasks : str -> str -> Remote -> option (list AsanaTask);
  fetchUserTasks : str -> str -> Remote -> option (list AsanaTask);
  updateTaskCompletion : str -> str -> bool -> Remote -> option Remote
}.

Inductive AbstractFile :=
| TFile (data : str)
| TFolder.

(** What a run does to the outside. *)
Inductive Event :=
| EvUpdate (taskGid : str) (value : bool) (ok : bool)
| EvCreateFolder (path : str)
| EvCreate (path data : str)
| EvModify (path data : str).

Record World (Remote : Type) := {
  vault : list (str * AbstractFile);
  remote : Remote;
  now : str;                       (* [new Date().toISOString()] *)
  events : list Event              (* oldest first *)
}.

Arguments vault {Remote}.
Arguments remote {Remote}.
Arguments now {Remote}.
Arguments events {Remote}.

Fixpoint getAbstractFileByPath (path : str) (v : list (str * AbstractFile))
  : option AbstractFile :=
  match v with
  | [] => None
  | (p, f) :: v' => if Js.eqb path p then Some f else getAbstractFileByPath path v'
  end.

Record Stats := { added : nat; updated : nat; completionChanges : nat }.

(** [s.substring(0, s.lastIndexOf("/"))] *)
Fixpoint lastSlash (s : str) (i : nat) (acc : nat) : nat :=
  match s with
  | [] => acc
  | c :: s' => lastSlash s' (S i) (if (c =? 47)%N then i else acc)
  end.

Definition folderOf (path : str) : str := firstn (lastSlash path 0 0) path.

(** Index of the first element that satisfies [f], as [findIndex] gives it. *)
Fixpoint findIndex (A : Type) (f : A -> bool) (l : list A) : option nat :=
  match l with
  | [] => None
  | x :: l' => if f x then Some 0 else option_map S (findIndex f l')
  end.

(** The [while] loop that looks for the end of a section: how many lines
    from here on do not start with ["## "]. *)
Fixpoint sectionRest (ls : list str) : nat :=
  match ls with
  | [] => 0
  | l :: ls' => if Js.startsWith H2 l then 0 else S (sectionRest ls')
  end.

(** [a.splice(i, 0, ...xs)] *)
Definition splice (A : Type) (i : nat) (xs : list A) (a : list A) : list A :=
  firstn i a ++ xs ++ skipn i a.

Section Engine.

Context {Remote : Type} {RC : RemoteClient Remote}.

(** Computations that read and change the world and may throw. *)
Definition M (A : Type) : Type := World Remote -> option A * World Remote.

Definition ret (A : Type) (a : A) : M A := fun w => (Some a, w).

Definition bind (A B : Type) (m : M A) (k : A -> M B) : M B :=
  fun w => match m w with
           | (Some a, w') => k a w'
           | (None, w') => (None, w')
           end.

Definition throw (A : Type) : M A := fun w => (None, w).

Definition emit (e : Event) : M unit :=
  fun w => (Some tt, {| vault := vault w; remote := remote w; now := now w;
                        events := events w ++ [e] |}).

Definition getWorld : M (World Remote) := fun w => (Some w, w).

Definition setRemote (r : Remote) : M unit :=
  fun w => (Some tt, {| vault := vault w; remote := r; now := now w;
                        events := events w |}).

Definition setVault (v : list (str * AbstractFile)) : M unit :=
  fun w => (Some tt, {| vault := v; remote := remote w; now := now w;
                        events := events w |}).

Notation "x <- m ;; k" := (bind m (fun x => k))
  (at level 61, m at next level, right associativity).
Notation "m ;;; k" := (bind m (fun _ => k))
  (at level 61, right associativity).

(** The first statement of [syncProject], repeated before the rewrite. *)
Definition fetchTasks (token : str) (sp : SyncedProject) : M (list AsanaTask) :=
  w <- getWorld ;;
  let r :=
    match isMyTasks sp, userTaskListGid sp with
    | true, Some l =>
        if Js.truthy l then fetchUserTasks token l (remote w)
        else fetchProjectTasks token (projectGid sp) (remote w)
    | _, _ => fetchProjectTasks token (projectGid sp) (remote w)
    end in
  match r with
  | Some ts => ret ts
  | None => throw _
  end.

(** [try { await updateTaskCompletion(...) ; ok } catch { not ok }] *)
Definition tryUpdate (token taskGid : str) (value : bool) : M bool :=
  w <- getWorld ;;
  match updateTaskCompletion token taskGid value (remote w) with
  | Some r' => setRemote r' ;;; emit (EvUpdate taskGid value true) ;;; ret true
  | None => emit (EvUpdate taskGid value false) ;;; ret false
  end.

Definition vaultCreateFolder (path : str) : M unit :=
  w <- getWorld ;;
  setVault ((path, TFolder) :: vault w) ;;; emit (EvCreateFolder path).

(** [vault.create] refuses a path that is taken. *)
Definition vaultCreate (path data : str) : M unit :=
  w <- getWorld ;;
  match getAbstractFileByPath path (vault w) with
  | Some _ => throw _
  | None => setVault ((path, TFile data) :: vault w) ;;; emit (EvCreate path data)
  end.

Definition vaultModify (path data : str) : M unit :=
  w <- getWorld ;;
  setVault ((path, TFile data) :: vault w) ;;; emit (EvModify path data).

Definition taskMapOf (ts : list AsanaTask) : JsMap.t AsanaTask :=
  fold_left (fun m t => JsMap.set (gid t) t m) ts [].

Definition existingTaskMapOf (ps : list ParsedTask) : JsMap.t ParsedTask :=
  fold_left
    (fun m p => match asanaGid p with
                | Some g => if Js.truthy g then JsMap.set g p m else m
                | None => m
                end)
    ps [].

(** Step 1: push the completion state of the note where it differs. *)
Fixpoint pushCompletions (token : str) (asanaTaskMap : JsMap.t AsanaTask)
         (entries : list (str * ParsedTask)) (changes : nat) : M nat :=
  match entries with
  | [] => ret changes
  | (g, obsidianTask) :: rest =>
      match JsMap.get g asanaTaskMap with
      | None => pushCompletions token asanaTaskMap rest changes
      | Some asanaTask =>
          if negb (Bool.eqb (p_completed obsidianTask) (completed asanaTask))
          then
            ok <- tryUpdate token g (p_completed obsidianTask) ;;
            pushCompletions token asanaTaskMap rest
              (if ok then S changes else changes)
          else pushCompletions token asanaTaskMap rest changes
      end
  end.

(** State of the loop that rebuilds the lines of the note. *)
Record Rewrite := {
  newLines : list str;
  inFrontmatter : bool;
  updatedFrontmatter : bool;
  currentSection : str;
  seenGids : list str;
  rw_updated : nat
}.

Definition push_line (l : str) (st : Rewrite) : Rewrite :=
  {| newLines := newLines st ++ [l];
     inFrontmatter := inFrontmatter st;
     updatedFrontmatter := updatedFrontmatter st;
     currentSection := currentSection st;
     seenGids := seenGids st;
     rw_updated := rw_updated st |}.

Definition see (g : str) (st : Rewrite) : Rewrite :=
  {| newLines := newLines st;
     inFrontmatter := inFrontmatter st;
     updatedFrontmatter := updatedFrontmatter st;
     currentSection := currentSection st;
     seenGids := set_add g (seenGids st);
     rw_updated := rw_updated st |}.

Definition rewrite_step (settings : AsanaSyncSettings)
           (asanaTaskMap : JsMap.t AsanaTask) (stamp : str)
           (i : nat) (line : str) (st : Rewrite) : Rewrite :=
  if Nat.eqb i 0 && Js.eqb line FENCE then
    {| newLines := newLines st ++ [line];
       inFrontmatter := true;
       updatedFrontmatter := updatedFrontmatter st;
       currentSection := currentSection st;
       seenGids := seenGids st;
       rw_updated := rw_updated st |}
  else if inFrontmatter st then
    if Js.eqb line FENCE then
      {| newLines :=
           (if updatedFrontmatter st then newLines st
            else newLines st ++ [lastSyncLine stamp]) ++ [line];
         inFrontmatter := false;
         updatedFrontmatter := true;
         currentSection := currentSection st;
         seenGids := seenGids st;
         rw_updated := rw_updated st |}
    else if Js.startsWith (Js.lit "asana_last_sync:") line then
      {| newLines := newLines st ++ [lastSyncLine stamp];
         inFrontmatter := true;
         updatedFrontmatter := true;
         currentSection := currentSection st;
         seenGids := seenGids st;
         rw_updated := rw_updated st |}
    else push_line line st
  else if Js.startsWith H2 line then
    {| newLines := newLines st ++ [line];
       inFrontmatter := inFrontmatter st;
       updatedFrontmatter := updatedFrontmatter st;
       currentSection := sectionTitle line;
       seenGids := seenGids st;
       rw_updated := rw_updated st |}
  else
    match gidMatch line with
    | Some g =>
        match JsMap.get g asanaTaskMap with
        | Some asanaTask =>
            if negb (showCompletedTasks settings) && completed asanaTask
            then see g st
            else
              let st := push_line
                          (formatTaskLine asanaTask (showDueDates settings)
                             (showAssignees settings)) st in
              let st := see g st in
              {| newLines := newLines st;
                 inFrontmatter := inFrontmatter st;
                 updatedFrontmatter := updatedFrontmatter st;
                 currentSection := currentSection st;
                 seenGids := seenGids st;
                 rw_updated := S (rw_updated st) |}
        | None => see g (push_line line st)
        end
    | None => push_line line st
    end.

(** Step 3, first half: the tasks that the note does not show yet. *)
Definition newTasksOf (settings : AsanaSyncSettings) (seen : list str)
           (asanaTasks : list AsanaTask) : list AsanaTask :=
  filter (fun task =>
            negb (set_has (gid task) seen)
            && negb (negb (showCompletedTasks settings) && completed task))
         asanaTasks.

(** Step 3, second half: one group of new tasks is put into the lines. *)
Definition placeGroup (settings : AsanaSyncSettings)
           (lines : list str) (entry : str * list AsanaTask) : list str :=
  let (sectionName, tasks) := entry in
  let sectionHeader := H2 ++ sectionName in
  let sectionIndex :=
    findIndex (fun l => Js.eqb (Js.trim l) sectionHeader) lines in
  let taskLines :=
    map (fun t => formatTaskLine t (showDueDates settings) (showAssignees settings))
        tasks in
  match sectionIndex with
  | Some idx =>
      if negb (Js.eqb sectionName UNSECTIONED) then
        let insertIdx := S idx + sectionRest (skipn (S idx) lines) in
        splice insertIdx taskLines lines
      else lines ++ taskLines
  | None =>
      if negb (Js.eqb sectionName UNSECTIONED) then
        lines ++ [[]; sectionHeader; []] ++ taskLines
      else lines ++ taskLines
  end.

Definition appendNewTasks (settings : AsanaSyncSettings) (sp : SyncedProject)
           (newTasks : list AsanaTask) (lines : list str) : list str :=
  match newTasks with
  | [] => lines
  | _ :: _ =>
      fold_left (placeGroup settings)
                (groupBySection (projectGid sp) newTasks) lines
  end.

Definition rewrite_init : Rewrite :=
  {| newLines := []; inFrontmatter := false; updatedFrontmatter := false;
     currentSection := UNSECTIONED; seenGids := []; rw_updated := 0 |}.

Definition syncProject (settings : AsanaSyncSettings) (sp : SyncedProject)
  : M Stats :=
  let token := asanaAccessToken settings in
  asanaTasks <- fetchTasks token sp ;;
  let asanaTaskMap := taskMapOf asanaTasks in
  let path := notePath sp in
  w <- getWorld ;;
  match getAbstractFileByPath path (vault w) with
  | Some (TFile existingContent) =>
      let parsed := parseNoteContent existingContent in
      let existingTaskMap := existingTaskMapOf (tasks parsed) in
      changes <- pushCompletions token asanaTaskMap existingTaskMap 0 ;;
      asanaTasks <- fetchTasks token sp ;;
      let asanaTaskMap := taskMapOf asanaTasks in
      w <- getWorld ;;
      let st := for_lines (rewrite_step settings asanaTaskMap (now w)) 0
                          (rawLines parsed) rewrite_init in
      let newTasks := newTasksOf settings (seenGids st) asanaTasks in
      let lines := appendNewTasks settings sp newTasks (newLines st) in
      let newContent := Js.join_nl lines in
      (if Js.eqb newContent existingContent then ret tt
       else vaultModify path newContent) ;;;
      ret {| added := List.length newTasks;
             updated := rw_updated st;
             completionChanges := changes |}
  | _ =>
      let content :=
        generateNoteContent (projectName sp) (projectGid sp) (isMyTasks sp)
          asanaTasks (showDueDates settings) (showAssignees settings)
          (showCompletedTasks settings) (now w) in
      let folderPath := folderOf path in
      (if Js.truthy folderPath then
         match getAbstractFileByPath folderPath (vault w) with
         | Some _ => ret tt
         | None => vaultCreateFolder folderPath
         end
       else ret tt) ;;;
      vaultCreate path content ;;;
      ret {| added := List.length asanaTasks; updated := 0;
             completionChanges := 0 |}
  end.

(** *** The change detector ([main.ts]) *)

(** The completion state of the identified tasks of a note. *)
Definition currentStateOf (lines : list str) : JsMap.t bool :=
  for_lines
    (fun i line m =>
       match parseTaskLine line i with
       | Some parsed =>
           match asanaGid parsed with
           | Some g => if Js.truthy g then JsMap.set g (p_completed parsed) m else m
           | None => m
           end
       | None => m
       end)
    0 lines [].

(** The loop over [currentState] that compares with the last snapshot. *)
Fixpoint pushChanges (token : str) (lastState : JsMap.t bool)
         (entries : list (str * bool)) : M unit :=
  match entries with
  | [] => ret tt
  | (g, isCompleted) :: rest =>
      match JsMap.get g lastState with
      | Some wasCompleted =>
          if negb (Bool.eqb wasCompleted isCompleted)
          then tryUpdate token g isCompleted ;;; pushChanges token lastState rest
          else pushChanges token lastState rest
      | None => pushChanges token lastState rest
      end
  end.

(** [processCheckboxChanges], the plugin field [lastKnownState] passed in
    and out.  Notices and console output are left out. *)
Definition processCheckboxChanges (settings : AsanaSyncSettings)
           (filePath : str) (lastKnownState : JsMap.t (JsMap.t bool))
  : M (JsMap.t (JsMap.t bool)) :=
  let token := asanaAccessToken settings in
  if negb (Js.truthy token) then ret lastKnownState
  else
    w <- getWorld ;;
    match getAbstractFileByPath filePath (vault w) with
    | Some (TFile content) =>
        let lines := Js.split_nl content in
        let currentState := currentStateOf lines in
        match JsMap.get filePath lastKnownState with
        | Some lastState => pushChanges token lastState currentState
        | None => ret tt
        end ;;;
        ret (JsMap.set filePath currentState lastKnownState)
    | _ => throw _
    end.

End Engine.

(* ------------------------------------------------------------------ *)
(** ** A reference remote: a task list that applies what it is told *)

Module ListRemote.

Definition setCompleted (value : bool) (t : AsanaTask) : AsanaTask :=
  {| gid := gid t; name := name t; completed := value; due_on := due_on t;
     assignee := assignee t; permalink_url := permalink_url t;
     notes := notes t; memberships := memberships t |}.

(** Updating a task the list does not hold fails, as a request for an
    unknown task does. *)
Definition update (taskGid : str) (value : bool) (r : list AsanaTask)
  : option (list AsanaTask) :=
  if existsb (fun t => Js.eqb (gid t) taskGid) r
  then Some (map (fun t => if Js.eqb (gid t) taskGid
                           then setCompleted value t else t) r)
  else None.

#[global] Instance client : RemoteClient (list AsanaTask) := {
  fetchProjectTasks := fun _ _ r => Some r;
  fetchUserTasks := fun _ _ r => Some r;
  updateTaskCompletion := fun _ g v r => update g v r
}.

End ListRemote.

(** Sample data for the closed examples below. *)
Module Sample.

Definition task (g n : string) (c : bool) : AsanaTask :=
  {| gid := Js.lit g; name := Js.lit n; completed := c;
     due_on := None; assignee := None;
     permalink_url := []; notes := []; memberships := [] |}.

Definition taskIn (sec g n : string) (c : bool) : AsanaTask :=
  {| gid := Js.lit g; name := Js.lit n; completed := c;
     due_on := None; assignee := None;
     permalink_url := []; notes := [];
     memberships :=
       [{| project := Some {| ref_gid := Js.lit "P"; ref_name := Js.lit "Proj" |};
           section := Some {| ref_gid := Js.lit "S"; ref_name := Js.lit sec |} |}] |}.

Definition settings (token : string) (showCompleted : bool) : AsanaSyncSettings :=
  {| asanaAccessToken := Js.lit token; syncedProjects := [];
     showDueDates := true; showAssignees := true;
     showCompletedTasks := showCompleted |}.

Definition path : str := Eval cbv in Js.lit "Asana/Proj.md".

Definition proj : SyncedProject :=
  {| projectGid := Js.lit "P"; projectName := Js.lit "Proj";
     notePath := path; isMyTasks := false; userTaskListGid := None |}.

(** A world whose vault holds the note (or nothing) and an [Asana] folder. *)
Definition world (doc : option str) (r : list AsanaTask) (stamp : string)
  : World (list AsanaTask) :=
  {| vault := match doc with
              | Some d => [(path, TFile d); (Js.lit "Asana", TFolder)]
              | None => [(Js.lit "Asana", TFolder)]
              end;
     remote := r; now := Js.lit stamp; events := [] |}.

Definition noteOf (w : World (list AsanaTask)) : option AbstractFile :=
  getAbstractFileByPath path (vault w).

End Sample.

(* ------------------------------------------------------------------ *)
(** ** The shape of a note, for the statements below *)

(** The lines up to and including the first fence, and what follows; all of
    them when there is no fence. *)
Fixpoint untilFence (ls : list str) : list str * list str :=
  match ls with
  | [] => ([], [])
  | l :: ls' =>
      if Js.eqb l FENCE then ([l], ls')
      else let (a, b) := untilFence ls' in (l :: a, b)
  end.

(** The frontmatter block of a note (empty unless the first line is a fence)
    and its body. *)
Definition splitFrontmatter (lines : list str) : list str * list str :=
  match lines with
  | l :: ls =>
      if Js.eqb l FENCE then let (a, b) := untilFence ls in (l :: a, b)
      else ([], lines)
  | [] => ([], [])
  end.

Definition frontmatterOf (lines : list str) : list str :=
  fst (splitFrontmatter lines).

Definition bodyOf (lines : list str) : list str :=
  snd (splitFrontmatter lines).

(** What the rewrite makes of the frontmatter lines that follow the opening
    fence; [upd] tells whether a sync stamp was written already. *)
Fixpoint rewriteFm (stamp : str) (upd : bool) (ls : list str) : list str :=
  match ls with
  | [] => []
  | l :: ls' =>
      if Js.eqb l FENCE then
        (if upd then [] else [lastSyncLine stamp]) ++ l :: rewriteFm stamp true ls'
      else if Js.startsWith (Js.lit "asana_last_sync:") l then
        lastSyncLine stamp :: rewriteFm stamp true ls'
      else l :: rewriteFm stamp upd ls'
  end.

Definition rewriteFrontmatter (stamp : str) (fm : list str) : list str :=
  match fm with
  | [] => []
  | l :: ls => l :: rewriteFm stamp false ls
  end.

(** What the rewrite makes of one line of the body. *)
Definition rewriteBodyLine (settings : AsanaSyncSettings)
           (asanaTaskMap : JsMap.t AsanaTask) (line : str) : list str :=
  if Js.startsWith H2 line then [line]
  else
    match gidMatch line with
    | Some g =>
        match JsMap.get g asanaTaskMap with
        | Some asanaTask =>
            if negb (showCompletedTasks settings) && completed asanaTask
            then []
            else [formatTaskLine asanaTask (showDueDates settings)
                                 (showAssignees settings)]
        | None => [line]
        end
    | None => [line]
    end.

(** The identifier a body line is taken to carry. *)
Definition carried (line : str) : option str :=
  if Js.startsWith H2 line then None else gidMatch line.

(** Whether the rewrite counts a body line as updated. *)
Definition countsUpdated (settings : AsanaSyncSettings)
           (asanaTaskMap : JsMap.t AsanaTask) (line : str) : bool :=
  match carried line with
  | Some g =>
      match JsMap.get g asanaTaskMap with
      | Some asanaTask =>
          negb (negb (showCompletedTasks settings) && completed asanaTask)
      | None => false
      end
  | None => false
  end.

(* ------------------------------------------------------------------ *)
(** ** The parts of a task line *)

(** [YYYY-MM-DD] *)
Definition is_date (d : str) : bool :=
  match d with
  | [y1; y2; y3; y4; h1; m1; m2; h2; d1; d2] =>
      Js.is_digit y1 && Js.is_digit y2 && Js.is_digit y3 && Js.is_digit y4
      && N.eqb h1 45 && Js.is_digit m1 && Js.is_digit m2
      && N.eqb h2 45 && Js.is_digit d1 && Js.is_digit d2
  | _ => false
  end.

(** How [TASK_LINE_REGEX] cuts a line it matches: each optional part comes
    with the white space in front of and inside it. *)
Record LineParts := {
  lp_indent : str;
  lp_flag : N;
  lp_title : str;
  lp_due : option (str * str * str);           (* space, space, date *)
  lp_assignee : option (str * str * str);      (* space, space, name *)
  lp_gid : option (str * str * str * str);     (* space, space, id, space *)
  lp_trail : str
}.

Definition DASH_BOX : str := Eval cbv in Js.lit "- [".
Definition BOX_END : str := Eval cbv in Js.lit "] ".
Definition COMMENT_OPEN : str := Eval cbv in Js.lit "<!--".
Definition COMMENT_CLOSE : str := Eval cbv in Js.lit "-->".
Definition ASANA_KEY : str := Eval cbv in Js.lit "asana:".

(** The text of an identifier comment. *)
Definition commentText (ws1 g ws2 : str) : str :=
  COMMENT_OPEN ++ ws1 ++ ASANA_KEY ++ g ++ ws2 ++ COMMENT_CLOSE.

Definition dueText (o : option (str * str * str)) : str :=
  match o with
  | Some (w1, w2, d) => w1 ++ CALENDAR ++ w2 ++ d
  | None => []
  end.

Definition assigneeText (o : option (str * str * str)) : str :=
  match o with
  | Some (w1, w2, a) => w1 ++ BUST ++ w2 ++ a
  | None => []
  end.

Definition gidText (o : option (str * str * str * str)) : str :=
  match o with
  | Some (w0, w1, g, w2) => w0 ++ commentText w1 g w2
  | None => []
  end.

Definition lineText (p : LineParts) : str :=
  lp_indent p ++ DASH_BOX ++ [lp_flag p] ++ BOX_END ++ lp_title p
  ++ dueText (lp_due p) ++ assigneeText (lp_assignee p) ++ gidText (lp_gid p)
  ++ lp_trail p.

Definition spaces (u : str) : Prop := Forall (fun x => Js.is_space x = true) u.
Definition dots (u : str) : Prop := Forall (fun x => Js.is_dot x = true) u.
Definition wordy (u : str) : Prop :=
  u <> [] /\ Forall (fun x => Js.is_word x = true) u.

Definition partsOk (p : LineParts) : Prop :=
  spaces (lp_indent p) /\ is_flag (lp_flag p) = true
  /\ lp_title p <> [] /\ dots (lp_title p)
  /\ match lp_due p with
     | Some (w1, w2, d) => spaces w1 /\ spaces w2 /\ is_date d = true
     | None => True
     end
  /\ match lp_assignee p with
     | Some (w1, w2, a) => spaces w1 /\ spaces w2 /\ a <> [] /\ dots a
     | None => True
     end
  /\ match lp_gid p with
     | Some (w0, w1, g, w2) => spaces w0 /\ spaces w1 /\ wordy g /\ spaces w2
     | None => True
     end
  /\ spaces (lp_trail p).

(** The task [parseTaskLine] reads off the parts. *)
Definition taskOfParts (p : LineParts) (l : str) (i : nat) : ParsedTask :=
  {| line := l;
     lineNumber := i;
     p_completed := negb (N.eqb (lp_flag p) 32);
     p_name := Js.trim (lp_title p);
     asanaGid := match lp_gid p with
                 | Some (_, _, g, _) => Some g
                 | None => None
                 end;
     dueDate := match lp_due p with
                | Some (_, _, d) => Some d
                | None => None
                end;
     p_assignee := match lp_assignee p with
                   | Some (_, _, a) => or_null (Some (Js.trim a))
                   | None => None
                   end |}.

(* ------------------------------------------------------------------ *)
(** ** Tasks whose fields survive the line format *)

(** Neither empty nor with white space at either end. *)
Definition trimmed (s : str) : bool :=
  match s with
  | [] => false
  | c :: _ => negb (Js.is_space c) && negb (Js.is_space (last s 0%N))
  end.

(** [s.includes(p)] *)
Fixpoint contains (p s : str) : bool :=
  Js.startsWith p s
  || match s with
     | [] => false
     | _ :: s' => contains p s'
     end.

Definition wf_title (n : str) : bool :=
  trimmed n && forallb Js.is_dot n
  && negb (contains CALENDAR n) && negb (contains BUST n)
  && negb (contains COMMENT_OPEN n).

Definition wf_assignee (a : str) : bool :=
  trimmed a && forallb Js.is_dot a && negb (contains COMMENT_OPEN a).

Definition wf_gid (g : str) : bool :=
  Js.truthy g && forallb Js.is_word g.

(** A task that [formatTaskLine] can render without loss: a clean title, an
    identifier made of word characters, a due date in calendar form and a
    clean assignee name where there are any. *)
Definition wfTask (t : AsanaTask) : bool :=
  wf_title (name t) && wf_gid (gid t)
  && match due_on t with Some d => is_date d | None => true end
  && match assignee t with Some a => wf_assignee (ref_name a) | None => true end.

(** What follows the title in [TASK_LINE_REGEX], and what follows the
    assignee. *)
Definition AFTER_ASSIGNEE : Re.regex :=
  Re.Seq (Re.Opt GID_PART) (Re.Seq (Re.StarG Js.is_space) Re.Eol).

Definition AFTER_TITLE : Re.regex :=
  Re.Seq (Re.Opt DUE_PART) (Re.Seq (Re.Opt ASSIGNEE_PART) AFTER_ASSIGNEE).

(** The parts of the line that [formatTaskLine] writes for a task. *)
Definition partsOfTask (t : AsanaTask) (showDue showAssignee : bool)
  : LineParts :=
  {| lp_indent := [];
     lp_flag := if completed t then 120%N else 32%N;
     lp_title := name t;
     lp_due := match due_on t with
               | Some d => if showDue && Js.truthy d
                           then Some ([32%N], [32%N], d) else None
               | None => None
               end;
     lp_assignee := match assignee t with
                    | Some a => if showAssignee && Js.truthy (ref_name a)
                                then Some ([32%N], [32%N], ref_name a) else None
                    | None => None
                    end;
     lp_gid := Some ([32%N], [32%N], gid t, [32%N]);
     lp_trail := [] |}.

(* ------------------------------------------------------------------ *)
(** ** The vocabulary of the statements *)

(** *** Runs of a pattern *)

Module ReRel.

Import Re.

(** What a successful run of a pattern looks like: [matches input r u rest c c']
    when [r] consumes [u] in front of [rest] and turns the captures [c]
    into [c']. *)
Inductive matches (input : str)
  : regex -> str -> str -> captures -> captures -> Prop :=
| m_eps rest c : matches input Eps [] rest c c
| m_chr p x rest c : p x = true -> matches input (Chr p) [x] rest c c
| m_seq a b u v rest c c1 c2 :
    matches input a u (v ++ rest) c c1 ->
    matches input b v rest c1 c2 ->
    matches input (Seq a b) (u ++ v) rest c c2
| m_starG p u rest c :
    Forall (fun x => p x = true) u -> matches input (StarG p) u rest c c
| m_starL p u rest c :
    Forall (fun x => p x = true) u -> matches input (StarL p) u rest c c
| m_opt_in a u rest c c' :
    matches input a u rest c c' -> matches input (Opt a) u rest c c'
| m_opt_out a rest c : matches input (Opt a) [] rest c c
| m_group n a u rest c c' :
    matches input a u rest c c' ->
    matches input (Group n a) u rest c ((n, u) :: c')
| m_bol rest c :
    List.length rest = List.length input -> matches input Bol [] rest c c
| m_eol c : matches input Eol [] [] c c.

(** [forces input a u rest c c']: in front of [rest] the matcher takes the
    run [u] of [a] first, whatever continuation accepts it. *)
Definition forces (input : str) (a : regex) (u rest : str)
           (c c' : captures) : Prop :=
  forall k r, k rest c' = Some r -> exec input a (u ++ rest) c k = Some r.

(** [refuses input a s c]: [a] matches no prefix of [s]. *)
Definition refuses (input : str) (a : regex) (s : str) (c : captures) : Prop :=
  forall k, exec input a s c k = None.

End ReRel.

Definition accept : str -> Re.captures -> option Re.captures := fun _ c => Some c.

(** *** Lines *)

(** A checkbox line: indentation, the box, then some text on the same line. *)
Definition checkboxLine (indent : str) (flag : N) (body : str) : str :=
  indent ++ Js.lit "- [" ++ [flag] ++ Js.lit "] " ++ body.

(** The captures of the optional parts, in the order they are made. *)
Definition partCaptures (p : LineParts) : Re.captures :=
  match lp_gid p with Some (_, _, g, _) => [(7, g)] | None => [] end
  ++ match lp_assignee p with Some (_, _, a) => [(6, a)] | None => [] end
  ++ match lp_due p with Some (_, _, d) => [(5, d)] | None => [] end.

(** The text of a formatted line in front of its identifier comment. *)
Definition beforeComment (t : AsanaTask) (sd sa : bool) : str :=
  let p := partsOfTask t sd sa in
  DASH_BOX ++ [lp_flag p] ++ BOX_END ++ lp_title p
  ++ dueText (lp_due p) ++ assigneeText (lp_assignee p).

Definition fromLines (body : list str) (pt : ParsedTask) : Prop :=
  exists l i, In l body /\ parseTaskLine l i = Some pt.

Definition notHeading (l : str) : Prop := Js.startsWith H2 l = false.

(** A text without a newline. *)
Definition singleLine (s : str) : bool := negb (existsb (N.eqb 10) s).

(** Fences only frame the frontmatter: a note that opens with a fence has a
    closing one, any other note has no fence line. *)
Definition fencesOk (lines : list str) : bool :=
  match lines with
  | l :: ls =>
      if Js.eqb l FENCE then existsb (Js.eqb FENCE) ls
      else negb (existsb (Js.eqb FENCE) ls)
  | [] => true
  end.

(** A frontmatter line that does not read as a section heading. *)
Definition plainFrontmatter (l : str) : bool :=
  negb (Js.startsWith H2 (Js.trim l)).

(** The identifier [parseTaskLine] reads off the line, if any, is the one
    the rewrite takes the line to carry. *)
Definition idAgrees (l : str) : bool :=
  match parseTaskLine l 0 with
  | Some pt =>
      match asanaGid pt with
      | Some g => match carried l with
                  | Some g' => Js.eqb g g'
                  | None => false
                  end
      | None => true
      end
  | None => true
  end.

(** *** Runs *)

(** The completion updates of a log that concern one task. *)
Definition updatesFor (g : str) (evs : list Event) : list Event :=
  filter (fun e => match e with
                   | EvUpdate g' _ _ => Js.eqb g' g
                   | _ => false
                   end) evs.

Definition isOk (e : Event) : bool :=
  match e with EvUpdate _ _ ok => ok | _ => false end.

Definition pushOf (e : Event) : option (str * bool) :=
  match e with EvUpdate g v _ => Some (g, v) | _ => None end.


(** The completion states the note would push: one entry of the note map per
    conflict, in the order of the map. *)
Definition conflicts (asanaTaskMap : JsMap.t AsanaTask)
           (entries : list (str * ParsedTask)) : list (str * bool) :=
  flat_map
    (fun e : str * ParsedTask =>
       match JsMap.get (fst e) asanaTaskMap with
       | Some t =>
           if negb (Bool.eqb (p_completed (snd e)) (completed t))
           then [(fst e, p_completed (snd e))] else []
       | None => []
       end)
    entries.

(** The lines and counts a run computes from the note and the refreshed
    task list. *)
Definition rebuilt (settings : AsanaSyncSettings) (sp : SyncedProject)
           (stamp content : str) (refreshed : list AsanaTask) : Rewrite :=
  for_lines (rewrite_step settings (taskMapOf refreshed) stamp) 0
            (Js.split_nl content) rewrite_init.

Definition finalLines (settings : AsanaSyncSettings) (sp : SyncedProject)
           (stamp content : str) (refreshed : list AsanaTask) : list str :=
  let st := rebuilt settings sp stamp content refreshed in
  appendNewTasks settings sp (newTasksOf settings (seenGids st) refreshed)
                 (newLines st).

(** The world after [vault.modify(path, data)]. *)
Definition written (Remote : Type) (path data : str) (w : World Remote)
  : World Remote :=
  {| vault := (path, TFile data) :: vault w; remote := remote w;
     now := now w; events := events w ++ [EvModify path data] |}.

Section Worlds.

Context {Remote : Type} {RC : RemoteClient Remote}.

(** A computation that only talks to the remote: the vault and the clock
    stay, the log grows by [evs]. *)
Definition remote_only (A : Type) (m : M A) (w : World Remote)
           (a : A) (w' : World Remote) (evs : list Event) : Prop :=
  m w = (Some a, w') /\ vault w' = vault w /\ now w' = now w
  /\ events w' = events w ++ evs.

(** What a fetch returns in a given state of the remote. *)
Definition fetched (token : str) (sp : SyncedProject) (r : Remote)
  : option (list AsanaTask) :=
  match isMyTasks sp, userTaskListGid sp with
  | true, Some l =>
      if Js.truthy l then fetchUserTasks token l r
      else fetchProjectTasks token (projectGid sp) r
  | _, _ => fetchProjectTasks token (projectGid sp) r
  end.

End Worlds.

(* ------------------------------------------------------------------ *)
(** ** [syncAllProjects] ([syncEngine.ts]) *)

From Stdlib Require Import DecimalString Permutation.

(** [String(n)] for a count. *)
Definition ofNat (n : nat) : str :=
  Js.lit (NilEmpty.string_of_uint (Nat.to_uint n)).

(** [parts.join(sep)] *)
Fixpoint joinWith (sep : str) (parts : list str) : str :=
  match parts with
  | [] => []
  | [p] => p
  | p :: ps => p ++ sep ++ joinWith sep ps
  end.

Section SyncAll.

Context {Remote : Type} {RC : RemoteClient Remote}.

(** The loop over the configured projects: the three totals and the notices
    shown so far.  A run that throws is caught: a notice, and on with the
    next project. *)
Fixpoint syncEach (settings : AsanaSyncSettings) (projects : list SyncedProject)
         (totals : Stats) (notices : list str) : M (Stats * list str) :=
  match projects with
  | [] => ret (totals, notices)
  | project :: rest =>
      fun w =>
        match syncProject settings project w with
        | (Some stats, w') =>
            syncEach settings rest
              {| added := added totals + added stats;
                 updated := updated totals + updated stats;
                 completionChanges :=
                   completionChanges totals + completionChanges stats |}
              notices w'
        | (None, w') =>
            syncEach settings rest totals
              (notices
               ++ [Js.lit "Asana Sync: Failed to sync " ++ [34%N]
                   ++ projectName project ++ [34%N]])
              w'
        end
  end.

(** [syncAllProjects]; the result is the list of the notices shown, in
    order.  Console output is left out. *)
Definition syncAllProjects (settings : AsanaSyncSettings) : M (list str) :=
  if negb (Js.truthy (asanaAccessToken settings)) then
    ret [Js.lit "Asana Sync: No access token configured"]
  else if Nat.eqb (List.length (syncedProjects settings)) 0 then
    ret [Js.lit "Asana Sync: No projects configured for sync"]
  else
    bind (syncEach settings (syncedProjects settings)
            {| added := 0; updated := 0; completionChanges := 0 |} [])
         (fun r =>
            let totals := fst r in
            let parts :=
              (if 0 <? added totals
               then [ofNat (added totals) ++ Js.lit " added"] else [])
              ++ (if 0 <? completionChanges totals
                  then [ofNat (completionChanges totals)
                        ++ Js.lit " completion changes"]
                  else []) in
            ret (snd r
                 ++ if 0 <? List.length parts
                    then [Js.lit "Asana Sync: " ++ joinWith (Js.lit ", ") parts]
                    else [])).

End SyncAll.

(* ------------------------------------------------------------------ *)
(** ** The HTTP client ([asanaApi.ts]) *)

Module Api.

(** What [requestUrl] is called with. *)
Record RequestUrlParam := {
  url : str;
  method : str;
  authorization : str;          (* [headers.Authorization] *)
  contentType : str;            (* [headers["Content-Type"]] *)
  body : option str
}.

(** The payloads the task calls read: a page of tasks with the offset of the
    next page, or anything else. *)
Inductive Json :=
| TaskPage (data : list AsanaTask) (next_page : option str)
| OtherJson.

Record Response := { status : nat; json : Json }.

(** The bodies the client sends. *)
Inductive Body :=
| CompletedBody (completed : bool).

(** [JSON.stringify({ data: body })] *)
Definition stringify (b : Body) : str :=
  match b with
  | CompletedBody c =>
      Js.lit "{" ++ [34%N] ++ Js.lit "data" ++ [34%N] ++ Js.lit ":{"
      ++ [34%N] ++ Js.lit "completed" ++ [34%N] ++ Js.lit ":"
      ++ (if c then Js.lit "true" else Js.lit "false") ++ Js.lit "}}"
  end.

(** The transport: [requestUrl] of the host application, against a server
    with a state.  [None] is a call that throws. *)
Class Http (Server : Type) := {
  requestUrl : RequestUrlParam -> Server -> option Response * Server
}.

(** How a call ends: it returns, it throws, or the loop is still running
    when the fuel is spent. *)
Inductive Outcome (A : Type) :=
| Returned (a : A)
| Thrown
| Pending.

Arguments Returned {A}.
Arguments Thrown {A}.
Arguments Pending {A}.

Definition BASE_URL : str := Eval cbv in Js.lit "https://app.asana.com/api/1.0".

Definition FIELDS : str := Eval cbv in Js.lit
  "gid,name,completed,due_on,assignee,assignee.name,permalink_url,notes,memberships.project,memberships.project.name,memberships.section,memberships.section.name".

(** The parameters [asanaRequest] builds. *)
Definition paramsOf (token endpoint method : str) (body : option Body)
  : RequestUrlParam :=
  {| url := BASE_URL ++ endpoint;
     method := method;
     authorization := Js.lit "Bearer " ++ token;
     contentType := Js.lit "application/json";
     body := option_map stringify body |}.

Section Client.

Context {Server : Type} {HC : Http Server}.

Definition asanaRequest (token endpoint method : str) (body : option Body)
           (s : Server) : option Json * Server :=
  match requestUrl (paramsOf token endpoint method body) s with
  | (Some response, s') =>
      if (status response <? 200) || (300 <=? status response)
      then (None, s')
      else (Some (json response), s')
  | (None, s') => (None, s')
  end.

(** The endpoint of one page of a task list. *)
Definition pageEndpoint (path : str) (offset : option str) : str :=
  let offsetParam :=
    match offset with
    | Some o => if Js.truthy o then Js.lit "&offset=" ++ o else []
    | None => []
    end in
  path ++ Js.lit "?opt_fields=" ++ FIELDS ++ Js.lit "&limit=100" ++ offsetParam.

(** The [do ... while (offset)] loop of [fetchProjectTasks] and
    [fetchUserTasks], one unit of fuel per request. *)
Fixpoint fetchPages (fuel : nat) (token path : str) (offset : option str)
         (allTasks : list AsanaTask) (s : Server)
  : Outcome (list AsanaTask) * Server :=
  match fuel with
  | 0 => (Pending, s)
  | S fuel' =>
      match asanaRequest token (pageEndpoint path offset) (Js.lit "GET") None s with
      | (Some (TaskPage data next_page), s') =>
          let allTasks := allTasks ++ data in
          match next_page with
          | Some o =>
              if Js.truthy o then fetchPages fuel' token path (Some o) allTasks s'
              else (Returned allTasks, s')
          | None => (Returned allTasks, s')
          end
      | (Some OtherJson, s') => (Thrown, s')
      | (None, s') => (Thrown, s')
      end
  end.

Definition fetchProjectTasks (fuel : nat) (token projectGid : str)
  : Server -> Outcome (list AsanaTask) * Server :=
  fetchPages fuel token (Js.lit "/projects/" ++ projectGid ++ Js.lit "/tasks")
             None [].

Definition fetchUserTasks (fuel : nat) (token userTaskListGid : str)
  : Server -> Outcome (list AsanaTask) * Server :=
  fetchPages fuel token
             (Js.lit "/user_task_lists/" ++ userTaskListGid ++ Js.lit "/tasks")
             None [].

Definition updateTaskCompletion (token taskGid : str) (completed : bool)
           (s : Server) : option unit * Server :=
  match asanaRequest token (Js.lit "/tasks/" ++ taskGid) (Js.lit "PUT")
                     (Some (CompletedBody completed)) s with
  | (Some _, s') => (Some tt, s')
  | (None, s') => (None, s')
  end.

End Client.

End Api.

(* ------------------------------------------------------------------ *)
(** ** More vocabulary *)

(** What [parseTaskLine] reads off the lines [ls], the first of them being
    line [i] of the note. *)
Fixpoint taskReadings (i : nat) (ls : list str) : list ParsedTask :=
  match ls with
  | [] => []
  | l :: ls' =>
      match parseTaskLine l i with
      | Some p => p :: taskReadings (S i) ls'
      | None => taskReadings (S i) ls'
      end
  end.

(** The note opens with a fence and another fence closes the block. *)
Definition frontmatterClosed (lines : list str) : bool :=
  match lines with
  | l :: ls => Js.eqb l FENCE && existsb (Js.eqb FENCE) ls
  | [] => false
  end.

(** The entries of the current state that differ from the last snapshot. *)
Definition changesOf (lastState : JsMap.t bool) (current : list (str * bool))
  : list (str * bool) :=
  filter (fun e => match JsMap.get (fst e) lastState with
                   | Some was => negb (Bool.eqb was (snd e))
                   | None => false
                   end) current.

(** An event that writes to the vault. *)
Definition isWrite (e : Event) : bool :=
  match e with
  | EvCreate _ _ | EvModify _ _ => true
  | _ => false
  end.

(** The tasks read off the lines [ls], each with the section title in
    effect on its line: the title of the nearest heading above it, [cur]
    before the first heading. *)
Fixpoint filedReadings (cur : str) (i : nat) (ls : list str)
  : list (str * ParsedTask) :=
  match ls with
  | [] => []
  | l :: ls' =>
      if Js.startsWith H2 l then filedReadings (sectionTitle l) (S i) ls'
      else match parseTaskLine l i with
           | Some p => (cur, p) :: filedReadings cur (S i) ls'
           | None => filedReadings cur (S i) ls'
           end
  end.

(** The tasks filed under the title [k]. *)
Definition filedUnder (k : str) (filed : list (str * ParsedTask))
  : list ParsedTask :=
  map snd (filter (fun e => Js.eqb (fst e) k) filed).

(** The titles of the headings among the lines. *)
Definition headingTitles (ls : list str) : list str :=
  map sectionTitle (filter (Js.startsWith H2) ls).

(** The tasks the hide filter lets through. *)
Definition shownTasks (showCompleted : bool) (ts : list AsanaTask)
  : list AsanaTask :=
  if showCompleted then ts else filter (fun t => negb (completed t)) ts.

(** The lines [generateNoteContent] writes: the frontmatter block, then the
    title and one block per group. *)
Definition generatedHead (projectGid : str) (isMyTasks : bool) (stamp : str)
  : list str :=
  [FENCE;
   Js.lit "asana_project_gid: " ++ [34%N] ++ projectGid ++ [34%N];
   Js.lit "asana_is_my_tasks: "
   ++ (if isMyTasks then Js.lit "true" else Js.lit "false");
   lastSyncLine stamp;
   FENCE].

Definition groupLines (showDue showAssignee : bool)
           (e : str * list AsanaTask) : list str :=
  (if negb (Js.eqb (fst e) UNSECTIONED) then [H2 ++ fst e; []] else [])
  ++ map (fun t => formatTaskLine t showDue showAssignee) (snd e) ++ [[]].

Definition generatedBody (projectName projectGid : str)
           (ts : list AsanaTask) (showDue showAssignee showCompleted : bool)
  : list str :=
  [[]; H1 ++ projectName; []]
  ++ flat_map (groupLines showDue showAssignee)
              (groupBySection projectGid (shownTasks showCompleted ts)).

(** The last element of a list that satisfies [f]. *)
Definition findLast (A : Type) (f : A -> bool) (l : list A) : option A :=
  find f (rev l).

(** A reading with the identifier [g], which is not the empty string. *)
Definition carriesGid (g : str) (p : ParsedTask) : bool :=
  match asanaGid p with
  | Some g' => Js.truthy g' && Js.eqb g' g
  | None => false
  end.

(** The runs of [syncAllProjects], for the statements below. *)
Section Runs.

Context {Remote : Type} {RC : RemoteClient Remote}.

(** The world after a run of each project, one after the other, whether
    the runs return or throw. *)
Definition afterRuns (settings : AsanaSyncSettings)
           (projects : list SyncedProject) (w : World Remote) : World Remote :=
  fold_left (fun w p => snd (syncProject settings p w)) projects w.

(** What each of these runs returns, in order; [None] for one that throws. *)
Fixpoint outcomes (settings : AsanaSyncSettings)
         (projects : list SyncedProject) (w : World Remote)
  : list (SyncedProject * option Stats) :=
  match projects with
  | [] => []
  | p :: rest =>
      (p, fst (syncProject settings p w))
      :: outcomes settings rest (snd (syncProject settings p w))
  end.

End Runs.

Definition failed (o : SyncedProject * option Stats) : bool :=
  match snd o with Some _ => false | None => true end.

(** A count summed over the runs that returned. *)
Definition total (f : Stats -> nat) (os : list (SyncedProject * option Stats))
  : nat :=
  list_sum (map (fun o => match snd o with Some s => f s | None => 0 end) os).

Definition failureNotice (p : SyncedProject) : str :=
  Js.lit "Asana Sync: Failed to sync " ++ [34%N] ++ projectName p ++ [34%N].

(** A server that answers the requests of a paged fetch. *)
Section Served.

Context {Server : Type} {HC : Api.Http Server}.

(** The request for the page at [offset] is answered with a status from
    200 to 299 and a page of tasks. *)
Definition answersPage (token path : str) (offset : option str) (s : Server)
           (data : list AsanaTask) (next : option str) (s' : Server) : Prop :=
  exists status,
    Api.requestUrl
      (Api.paramsOf token (Api.pageEndpoint path offset) (Js.lit "GET") None) s
    = (Some {| Api.status := status; Api.json := Api.TaskPage data next |}, s')
    /\ 200 <= status < 300.

(** The pages handed out from [offset] on: each is requested with the
    offset the page before announced, and the last is the first that
    announces none (no [next_page], or an empty offset). *)
Inductive servesPages (token path : str)
  : option str -> Server -> list (list AsanaTask) -> Server -> Prop :=
| serves_last (offset : option str) (s : Server) (data : list AsanaTask)
              (next : option str) (s' : Server) :
    answersPage token path offset s data next s' ->
    match next with Some o => Js.truthy o = false | None => True end ->
    servesPages token path offset s [data] s'
| serves_more (offset : option str) (s : Server) (data : list AsanaTask)
              (o : str) (s' : Server) (pages : list (list AsanaTask))
              (s'' : Server) :
    answersPage token path offset s data (Some o) s' ->
    Js.truthy o = true ->
    servesPages token path (Some o) s' pages s'' ->
    servesPages token path offset s (data :: pages) s''.

End Served.

(** A server that hands out a fixed list of answers, one per request. *)
Module Scripted.

#[global] Instance http : Api.Http (list (option Api.Response)) := {
  Api.requestUrl := fun _ s =>
    match s with
    | r :: s' => (r, s')
    | [] => (None, [])
    end
}.

End Scripted.

(** [a] is what is left of [b] when some of its elements are taken out. *)
Inductive Subseq (A : Type) : list A -> list A -> Prop :=
| sub_nil : Subseq [] []
| sub_keep (x : A) (a b : list A) : Subseq a b -> Subseq (x :: a) (x :: b)
| sub_drop (x : A) (a b : list A) : Subseq a b -> Subseq a (x :: b).

(** A frontmatter line that holds the sync stamp, and what the rewrite
    makes of a frontmatter line. *)
Definition isStampLine (l : str) : bool :=
  Js.startsWith (Js.lit "asana_last_sync:") l.

Definition restamp (stamp : str) (l : str) : str :=
  if isStampLine l then lastSyncLine stamp else l.

(** A remote that stops answering once it has applied an update: the fetch
    that follows the pushes of a run fails. *)
Module OneShotRemote.

Record state := { up : bool; held : list AsanaTask }.

#[global] Instance client : RemoteClient state := {
  fetchProjectTasks := fun _ _ r => if up r then Some (held r) else None;
  fetchUserTasks := fun _ _ r => if up r then Some (held r) else None;
  updateTaskCompletion := fun _ g v r =>
    match ListRemote.update g v (held r) with
    | Some l => Some {| up := false; held := l |}
    | None => None
    end
}.

End OneShotRemote.



(* ================================================================== *)
(** * Properties *)

(** ** Strings and maps *)

Lemma eqb_eq (a b : str) : Js.eqb a b = true <-> a = b.
Proof.
  revert b; induction a as [|x a IH]; intros [|y b]; simpl;
    try (split; congruence).
  rewrite andb_true_iff, N.eqb_eq, IH. split.
  - intros [-> ->]; reflexivity.
  - intros E; inversion E; auto.
Qed.

Lemma eqb_refl (a : str) : Js.eqb a a = true.
Proof. apply eqb_eq; reflexivity. Qed.

Lemma eqb_neq (a b : str) : Js.eqb a b = false <-> a <> b.
Proof.
  rewrite <- eqb_eq. destruct (Js.eqb a b); split; congruence.
Qed.

Lemma get_set_same (V : Type) (k : str) (v : V) (m : JsMap.t V) :
  JsMap.get k (JsMap.set k v m) = Some v.
Proof.
  induction m as [|[k' v'] m IH]; simpl.
  - rewrite eqb_refl; reflexivity.
  - destruct (Js.eqb k k') eqn:E; simpl; rewrite E; auto.
Qed.

Lemma get_set_other (V : Type) (k k' : str) (v : V) (m : JsMap.t V) :
  k <> k' -> JsMap.get k (JsMap.set k' v m) = JsMap.get k m.
Proof.
  intros N. induction m as [|[k2 v2] m IH]; simpl.
  - apply eqb_neq in N. rewrite N; reflexivity.
  - destruct (Js.eqb k' k2) eqn:E; simpl.
    + apply eqb_eq in E; subst k2. apply eqb_neq in N. rewrite N; reflexivity.
    + rewrite IH; reflexivity.
Qed.

Arguments Js.eqb : simpl never.
Arguments Js.startsWith : simpl never.
Arguments Js.trim : simpl never.
Arguments gidMatch : simpl never.
Arguments parseTaskLine : simpl never.
Arguments formatTaskLine : simpl never.
Arguments lastSyncLine : simpl never.

(** ** The effects of the remote calls *)

Section Effects.

Context {Remote : Type} {RC : RemoteClient Remote}.

Lemma tryUpdate_spec (token g : str) (v : bool) (w : World Remote) :
  exists ok w', remote_only (tryUpdate token g v) w ok w' [EvUpdate g v ok]
    /\ (ok = true ->
        updateTaskCompletion token g v (remote w) = Some (remote w'))
    /\ (ok = false ->
        updateTaskCompletion token g v (remote w) = None /\ remote w' = remote w).
Proof.
  unfold tryUpdate, bind, getWorld, remote_only.
  destruct (updateTaskCompletion token g v (remote w)) as [r'|] eqn:E.
  - exists true. eexists. cbn. repeat split; try reflexivity; discriminate.
  - exists false. eexists. cbn. repeat split; try reflexivity; discriminate.
Qed.


End Effects.

(** ** The change detector on a first observation *)

Section ChangeDetector.

Context {Remote : Type} {RC : RemoteClient Remote}.


End ChangeDetector.



(* ------------------------------------------------------------------ *)
(** ** The matcher *)

Module ReFacts.

Import Re.
Export ReRel.

Lemma firstn_consumed (u rest : str) :
  firstn (List.length (u ++ rest) - List.length rest) (u ++ rest) = u.
Proof.
  rewrite length_app, Nat.add_sub.
  rewrite firstn_app, Nat.sub_diag, firstn_all. simpl. apply app_nil_r.
Qed.

Lemma star_greedy_sound (A : Type) (p : N -> bool) (k : str -> option A) :
  forall s r, star_greedy p s k = Some r ->
  exists u s', s = u ++ s' /\ Forall (fun x => p x = true) u /\ k s' = Some r.
Proof.
  induction s as [|x s IH]; intros r H; simpl in H.
  - exists [], []. auto.
  - destruct (p x) eqn:P.
    + destruct (star_greedy p s k) as [r'|] eqn:G.
      * inversion H; subst r'. destruct (IH r eq_refl) as (u & s' & -> & F & K).
        exists (x :: u), s'. auto.
      * exists [], (x :: s). auto.
    + exists [], (x :: s). auto.
Qed.

Lemma star_lazy_sound (A : Type) (p : N -> bool) (k : str -> option A) :
  forall s r, star_lazy p s k = Some r ->
  exists u s', s = u ++ s' /\ Forall (fun x => p x = true) u /\ k s' = Some r.
Proof.
  induction s as [|x s IH]; intros r H; simpl in H.
  - destruct (k []) eqn:K; [|discriminate]. exists [], []. inversion H; subst. auto.
  - destruct (k (x :: s)) eqn:K.
    + inversion H; subst. exists [], (x :: s). auto.
    + destruct (p x) eqn:P; [|discriminate].
      destruct (IH r H) as (u & s' & -> & F & K').
      exists (x :: u), s'. auto.
Qed.

(** Soundness of the matcher. *)
Lemma exec_sound (input : str) (r : regex) :
  forall s c k res,
    exec input r s c k = Some res ->
    exists u s' c',
      s = u ++ s' /\ matches input r u s' c c' /\ k s' c' = Some res.
Proof.
  induction r as [|p|a IHa b IHb|p|p|a IHa|n a IHa| |];
    intros s c k res H; simpl in H.
  - exists [], s, c. repeat split; auto. constructor.
  - destruct s as [|x s]; [discriminate|]. destruct (p x) eqn:P; [|discriminate].
    exists [x], s, c. repeat split; auto. constructor; auto.
  - apply IHa in H. destruct H as (u & s1 & c1 & -> & Ma & H).
    apply IHb in H. destruct H as (v & s2 & c2 & -> & Mb & H).
    exists (u ++ v), s2, c2. rewrite app_assoc. repeat split; auto.
    econstructor; eauto.
  - apply star_greedy_sound in H. destruct H as (u & s' & -> & F & H).
    exists u, s', c. repeat split; auto. constructor; auto.
  - apply star_lazy_sound in H. destruct H as (u & s' & -> & F & H).
    exists u, s', c. repeat split; auto. constructor; auto.
  - destruct (exec input a s c k) eqn:E.
    + inversion H; subst. apply IHa in E.
      destruct E as (u & s' & c' & -> & M & K).
      exists u, s', c'. repeat split; auto. constructor; auto.
    + exists [], s, c. repeat split; auto. apply m_opt_out.
  - apply IHa in H. destruct H as (u & s' & c' & -> & M & K).
    rewrite firstn_consumed in K.
    exists u, s', ((n, u) :: c'). repeat split; auto. constructor; auto.
  - destruct (Nat.eqb (List.length s) (List.length input)) eqn:E; [|discriminate].
    apply Nat.eqb_eq in E. exists [], s, c. repeat split; auto. constructor; auto.
  - destruct s; [|discriminate]. exists [], [], c. repeat split; auto. constructor.
Qed.

(** A greedy run takes all of [u] when what follows cannot extend it and the
    continuation accepts there. *)
Lemma star_greedy_run (A : Type) (p : N -> bool) (k : str -> option A)
      (u rest : str) (r : A) :
  Forall (fun x => p x = true) u ->
  k rest = Some r ->
  match rest with [] => True | y :: _ => p y = false end ->
  star_greedy p (u ++ rest) k = Some r.
Proof.
  intros F K E. induction F as [|x u P F IH].
  - destruct rest as [|y rest]; simpl; auto. rewrite E. auto.
  - simpl. rewrite P, IH. reflexivity.
Qed.

(** A lazy run walks over [u] when the continuation refuses every earlier
    stop. *)
Lemma star_lazy_run (A : Type) (p : N -> bool) (k : str -> option A)
      (u rest : str) :
  Forall (fun x => p x = true) u ->
  (forall v1 v2, u = v1 ++ v2 -> v2 <> [] -> k (v2 ++ rest) = None) ->
  star_lazy p (u ++ rest) k = star_lazy p rest k.
Proof.
  intros F. induction F as [|x u P F IH]; intros N; simpl; auto.
  pose proof (N [] (x :: u) eq_refl) as N0. simpl in N0.
  rewrite N0 by discriminate. rewrite P.
  apply IH. intros v1 v2 -> NE. apply (N (x :: v1) v2); auto.
Qed.

Lemma star_lazy_stop (A : Type) (p : N -> bool) (k : str -> option A)
      (s : str) (r : A) :
  k s = Some r -> star_lazy p s k = Some r.
Proof. intros K. destruct s; simpl; rewrite K; reflexivity. Qed.

(** A lazy run always finds an accepting stop that lies within reach. *)
Lemma star_lazy_complete (A : Type) (p : N -> bool) (k : str -> option A)
      (u rest : str) (r : A) :
  Forall (fun x => p x = true) u ->
  k rest = Some r ->
  exists r', star_lazy p (u ++ rest) k = Some r'.
Proof.
  intros F K. induction F as [|x u P F IH].
  - exists r. apply star_lazy_stop; auto.
  - simpl. destruct (k (x :: u ++ rest)) as [r'|]; [eauto|].
    rewrite P. exact IH.
Qed.

Lemma star_greedy_complete (A : Type) (p : N -> bool) (k : str -> option A)
      (u rest : str) (r : A) :
  Forall (fun x => p x = true) u ->
  k rest = Some r ->
  exists r', star_greedy p (u ++ rest) k = Some r'.
Proof.
  intros F K. induction F as [|x u P F IH].
  - destruct rest as [|y rest]; simpl.
    + eauto.
    + destruct (p y); [|eauto].
      destruct (star_greedy p rest k); eauto.
  - simpl. rewrite P. destruct IH as (r' & ->). eauto.
Qed.

(** Completeness: where a run exists that the continuation accepts, the
    matcher succeeds (on that run or on one it tries earlier). *)
Lemma exec_complete (input : str) (r : regex) (u rest : str) (c c' : captures) :
  matches input r u rest c c' ->
  forall k res, k rest c' = Some res ->
  exists res', exec input r (u ++ rest) c k = Some res'.
Proof.
  induction 1; intros k res K; simpl.
  - eauto.
  - rewrite H. eauto.
  - destruct (IHmatches2 k res K) as (r2 & E2).
    destruct (IHmatches1 (fun s1 c1 => exec input b s1 c1 k) r2 E2) as (r1 & E1).
    rewrite <- app_assoc. eauto.
  - eapply star_greedy_complete; eauto.
  - eapply star_lazy_complete; eauto.
  - destruct (IHmatches k res K) as (r1 & ->). eauto.
  - destruct (exec input a rest c k); eauto.
  - apply (IHmatches (fun s' c'0 =>
             k s' ((n, firstn (List.length (u ++ rest) - List.length s') (u ++ rest))
                   :: c'0)) res).
    rewrite firstn_consumed. exact K.
  - rewrite H, Nat.eqb_refl. eauto.
  - eauto.
Qed.

Lemma matches_lit (input s rest : str) (c : captures) :
  matches input (Lit s) s rest c c.
Proof.
  induction s as [|x s IH]; simpl.
  - constructor.
  - eapply (m_seq (u := [x]) (v := s)).
    + constructor. apply N.eqb_refl.
    + exact IH.
Qed.

Lemma seq_inv (input : str) (a b : regex) (u rest : str) (c c' : captures) :
  matches input (Seq a b) u rest c c' ->
  exists u1 u2 c1,
    u = u1 ++ u2 /\ matches input a u1 (u2 ++ rest) c c1
    /\ matches input b u2 rest c1 c'.
Proof. intros H. inversion H; subst. eauto 7. Qed.

Lemma chr_inv (input : str) (p : N -> bool) (u rest : str) (c c' : captures) :
  matches input (Chr p) u rest c c' ->
  exists x, u = [x] /\ p x = true /\ c' = c.
Proof. intros H. inversion H; subst. eauto. Qed.

Lemma starG_inv (input : str) (p : N -> bool) (u rest : str) (c c' : captures) :
  matches input (StarG p) u rest c c' ->
  Forall (fun x => p x = true) u /\ c' = c.
Proof. intros H. inversion H; subst. auto. Qed.

Lemma starL_inv (input : str) (p : N -> bool) (u rest : str) (c c' : captures) :
  matches input (StarL p) u rest c c' ->
  Forall (fun x => p x = true) u /\ c' = c.
Proof. intros H. inversion H; subst. auto. Qed.

Lemma group_inv (input : str) (n : nat) (a : regex) (u rest : str)
      (c c' : captures) :
  matches input (Group n a) u rest c c' ->
  exists c1, matches input a u rest c c1 /\ c' = (n, u) :: c1.
Proof. intros H. inversion H; subst. eauto. Qed.

Lemma opt_inv (input : str) (a : regex) (u rest : str) (c c' : captures) :
  matches input (Opt a) u rest c c' ->
  matches input a u rest c c' \/ (u = [] /\ c' = c).
Proof. intros H. inversion H; subst; auto. Qed.

Lemma eps_inv (input : str) (u rest : str) (c c' : captures) :
  matches input Eps u rest c c' -> u = [] /\ c' = c.
Proof. intros H. inversion H; subst; auto. Qed.

Lemma bol_inv (input : str) (u rest : str) (c c' : captures) :
  matches input Bol u rest c c' ->
  u = [] /\ c' = c /\ List.length rest = List.length input.
Proof. intros H. inversion H; subst; auto. Qed.

Lemma eol_inv (input : str) (u rest : str) (c c' : captures) :
  matches input Eol u rest c c' -> u = [] /\ rest = [] /\ c' = c.
Proof. intros H. inversion H; subst; auto. Qed.

Lemma lit_inv (input s u rest : str) (c c' : captures) :
  matches input (Lit s) u rest c c' -> u = s /\ c' = c.
Proof.
  revert u c c'; induction s as [|x s IH]; simpl; intros u c c' H.
  - apply eps_inv in H. exact H.
  - apply seq_inv in H. destruct H as (u1 & u2 & c1 & -> & Ha & Hb).
    apply chr_inv in Ha. destruct Ha as (y & -> & E & ->).
    apply IH in Hb. destruct Hb as (-> & ->).
    apply N.eqb_eq in E. subst. auto.
Qed.

Lemma refuses_intro (input : str) (a : regex) (s : str) (c : captures) :
  (forall u s' c', s = u ++ s' -> ~ matches input a u s' c c') ->
  refuses input a s c.
Proof.
  intros H k. destruct (exec input a s c k) as [r|] eqn:E; auto.
  apply exec_sound in E. destruct E as (u & s' & c' & E & M & _).
  exfalso. exact (H u s' c' E M).
Qed.

Lemma peel (input : str) (a b : regex) (u rest : str) (c c' : captures)
      (k : str -> captures -> option captures) (r : captures) :
  forces input a u rest c c' ->
  exec input b rest c' k = Some r ->
  exec input (Seq a b) (u ++ rest) c k = Some r.
Proof. intros F E. simpl. apply F. exact E. Qed.

Lemma peel_opt_in (input : str) (a b : regex) (s : str) (c : captures)
      (k : str -> captures -> option captures) (r : captures) :
  exec input a s c (fun s1 c1 => exec input b s1 c1 k) = Some r ->
  exec input (Seq (Opt a) b) s c k = Some r.
Proof. intros E. simpl. rewrite E. reflexivity. Qed.

Lemma peel_opt_out (input : str) (a b : regex) (s : str) (c : captures)
      (k : str -> captures -> option captures) (r : captures) :
  refuses input a s c ->
  exec input b s c k = Some r ->
  exec input (Seq (Opt a) b) s c k = Some r.
Proof. intros R E. simpl. rewrite R. exact E. Qed.

Lemma forces_seq (input : str) (a b : regex) (u v rest : str)
      (c c1 c2 : captures) :
  forces input a u (v ++ rest) c c1 ->
  forces input b v rest c1 c2 ->
  forces input (Seq a b) (u ++ v) rest c c2.
Proof.
  intros Fa Fb k r K. rewrite <- app_assoc. simpl. apply Fa. apply Fb. exact K.
Qed.

Lemma forces_eps (input rest : str) (c : captures) :
  forces input Eps [] rest c c.
Proof. intros k r K. exact K. Qed.

Lemma forces_chr (input : str) (p : N -> bool) (x : N) (rest : str)
      (c : captures) :
  p x = true -> forces input (Chr p) [x] rest c c.
Proof. intros P k r K. simpl. rewrite P. exact K. Qed.

Lemma forces_lit (input s rest : str) (c : captures) :
  forces input (Lit s) s rest c c.
Proof.
  induction s as [|x s IH]; simpl.
  - apply forces_eps.
  - apply (@forces_seq input (Chr (N.eqb x)) (Lit s) [x] s rest c c c); auto.
    apply forces_chr. apply N.eqb_refl.
Qed.

Lemma forces_starG (input : str) (p : N -> bool) (u rest : str) (c : captures) :
  Forall (fun x => p x = true) u ->
  match rest with [] => True | y :: _ => p y = false end ->
  forces input (StarG p) u rest c c.
Proof. intros F E k r K. simpl. apply star_greedy_run; auto. Qed.

Lemma forces_group (input : str) (n : nat) (a : regex) (u rest : str)
      (c c' : captures) :
  forces input a u rest c c' ->
  forces input (Group n a) u rest c ((n, u) :: c').
Proof.
  intros F k r K. simpl. apply F. rewrite firstn_consumed. exact K.
Qed.

Lemma forces_bol (input rest : str) (c : captures) :
  List.length rest = List.length input -> forces input Bol [] rest c c.
Proof. intros L k r K. simpl. rewrite L, Nat.eqb_refl. exact K. Qed.

Lemma forces_eol (input : str) (c : captures) : forces input Eol [] [] c c.
Proof. intros k r K. exact K. Qed.

(** A lazy group stops where the continuation first accepts. *)
Lemma exec_lazy_group (input : str) (n : nat) (p : N -> bool)
      (x : N) (u rest : str) (c : captures)
      (k : str -> captures -> option captures) (r : captures) :
  p x = true ->
  Forall (fun y => p y = true) u ->
  (forall v1 v2 c', u = v1 ++ v2 -> v2 <> [] -> k (v2 ++ rest) c' = None) ->
  k rest ((n, x :: u) :: c) = Some r ->
  exec input (Group n (PlusL p)) ((x :: u) ++ rest) c k = Some r.
Proof.
  intros Px Fu No K. simpl. rewrite Px.
  rewrite star_lazy_run; auto.
  - apply star_lazy_stop.
    pose proof (firstn_consumed (x :: u) rest) as E. simpl in E.
    simpl. rewrite E. exact K.
  - intros v1 v2 Eu Nv. apply No with (v1 := v1); auto.
Qed.

Lemma m_seq_eq (input : str) (a b : regex) (s u v rest : str)
      (c c1 c2 : captures) :
  s = u ++ v ->
  matches input a u (v ++ rest) c c1 ->
  matches input b v rest c1 c2 ->
  matches input (Seq a b) s rest c c2.
Proof. intros ->. apply m_seq. Qed.

End ReFacts.

(* ------------------------------------------------------------------ *)
(** ** The line grammar accepts markers in any order *)

Section Grammar.

Import Re ReFacts.

Lemma task_regex_accepts (indent : str) (flag : N) (body : str) :
  Forall (fun x => Js.is_space x = true) indent ->
  is_flag flag = true ->
  body <> [] ->
  Forall (fun x => Js.is_dot x = true) body ->
  exists m, Re.match_ TASK_LINE_REGEX (checkboxLine indent flag body) = Some m.
Proof.
  intros Hi Hf Hb Hd.
  destruct body as [|b body]; [congruence|]. inversion Hd; subst.
  set (ln := checkboxLine indent flag (b :: body)).
  assert (M : exists c', matches ln TASK_LINE_REGEX ln [] [] c').
  { eexists. unfold TASK_LINE_REGEX. cbn [Seqs].
    eapply (m_seq_eq (u := []) (v := ln)); [reflexivity| |].
    { apply m_bol; rewrite app_nil_r; reflexivity. }
    eapply (m_seq_eq (u := indent ++ Js.lit "- [")
                     (v := [flag] ++ Js.lit "] " ++ b :: body)).
    { unfold ln, checkboxLine. rewrite <- app_assoc. reflexivity. }
    { constructor. eapply (m_seq (u := indent) (v := Js.lit "- ["));
        [constructor; auto | apply matches_lit]. }
    eapply (m_seq (u := [flag]) (v := Js.lit "] " ++ b :: body)).
    { constructor. constructor. auto. }
    eapply (m_seq (u := Js.lit "] ") (v := b :: body)).
    { constructor. apply matches_lit. }
    eapply (m_seq_eq (u := b :: body) (v := [])); [symmetry; apply app_nil_r| |].
    { constructor. eapply (m_seq (u := [b]) (v := body)); constructor; auto. }
    eapply (m_seq (u := []) (v := [])); [apply m_opt_out|].
    eapply (m_seq (u := []) (v := [])); [apply m_opt_out|].
    eapply (m_seq (u := []) (v := [])); [apply m_opt_out|].
    eapply (m_seq (u := []) (v := [])); constructor. constructor. }
  destruct M as (c' & M).
  destruct (exec_complete M (fun _ c => Some c) eq_refl) as (res & E).
  rewrite app_nil_r in E.
  exists res. unfold Re.match_. destruct ln; simpl; simpl in E; rewrite E; reflexivity.
Qed.

End Grammar.

(* ------------------------------------------------------------------ *)
(** ** One run of [syncProject], step by step *)

Section Run.

Context {Remote : Type} {RC : RemoteClient Remote}.

Lemma fetchTasks_run (token : str) (sp : SyncedProject) (w : World Remote) :
  fetchTasks token sp w = (fetched token sp (remote w), w).
Proof.
  unfold fetchTasks, fetched, bind, getWorld.
  destruct (isMyTasks sp), (userTaskListGid sp) as [l|];
    try destruct (Js.truthy l);
    match goal with |- context [match ?x with Some _ => _ | None => _ end] =>
      destruct x end; reflexivity.
Qed.

Lemma pushCompletions_spec (token : str) (m : JsMap.t AsanaTask)
      (entries : list (str * ParsedTask)) :
  forall (n : nat) (w : World Remote),
  exists w' evs,
    remote_only (pushCompletions token m entries n) w
                (n + List.length (filter isOk evs)) w' evs
    /\ map pushOf evs = map Some (conflicts m entries).
Proof.
  induction entries as [|[g pt] rest IH]; intros n w; simpl.
  - exists w, []. unfold remote_only, ret. simpl.
    rewrite app_nil_r, Nat.add_0_r. auto.
  - destruct (JsMap.get g m) as [t|] eqn:G; [|apply IH].
    destruct (negb (Bool.eqb (p_completed pt) (completed t))) eqn:D; [|apply IH].
    destruct (tryUpdate_spec token g (p_completed pt) w)
      as (ok & w1 & (R1 & V1 & N1 & E1) & _).
    destruct (IH (if ok then S n else n) w1) as (w2 & evs & (R2 & V2 & N2 & E2) & P).
    exists w2, (EvUpdate g (p_completed pt) ok :: evs). split.
    + unfold remote_only, bind. rewrite R1, R2, V2, N2, E2, V1, N1, E1.
      rewrite <- app_assoc. simpl.
      repeat split; auto. destruct ok; simpl; repeat f_equal; lia.
    + simpl. rewrite P. reflexivity.
Qed.

(** A run on an existing note, spelled out: the pushes of step 1, the
    refresh, the rebuilt lines, the conditional write, the counts. *)
Lemma syncProject_existing (settings : AsanaSyncSettings) (sp : SyncedProject)
      (w : World Remote) (content : str) (ts0 : list AsanaTask) :
  getAbstractFileByPath (notePath sp) (vault w) = Some (TFile content) ->
  fetched (asanaAccessToken settings) sp (remote w) = Some ts0 ->
  exists w1 pushes,
    remote_only
      (pushCompletions (asanaAccessToken settings) (taskMapOf ts0)
         (existingTaskMapOf (tasks (parseNoteContent content))) 0)
      w (List.length (filter isOk pushes)) w1 pushes
    /\ map pushOf pushes
       = map Some (conflicts (taskMapOf ts0)
                     (existingTaskMapOf (tasks (parseNoteContent content))))
    /\ match fetched (asanaAccessToken settings) sp (remote w1) with
       | None => syncProject settings sp w = (None, w1)
       | Some ts1 =>
           let st := rebuilt settings sp (now w) content ts1 in
           let lines := finalLines settings sp (now w) content ts1 in
           let newContent := Js.join_nl lines in
           exists w2,
             syncProject settings sp w
             = (Some {| added := List.length
                                   (newTasksOf settings (seenGids st) ts1);
                        updated := rw_updated st;
                        completionChanges := List.length (filter isOk pushes) |},
                w2)
             /\ remote w2 = remote w1
             /\ now w2 = now w
             /\ events w2
                = events w ++ pushes
                  ++ (if Js.eqb newContent content then []
                      else [EvModify (notePath sp) newContent])
             /\ getAbstractFileByPath (notePath sp) (vault w2)
                = Some (TFile newContent)
       end.
Proof.
  intros F T0.
  destruct (pushCompletions_spec (asanaAccessToken settings) (taskMapOf ts0)
              (existingTaskMapOf (tasks (parseNoteContent content))) 0 w)
    as (w1 & pushes & (R1 & V1 & N1 & E1) & P).
  exists w1, pushes. split; [repeat split; auto|]. split; [exact P|].
  assert (S1 : forall k : nat -> M Stats,
             syncProject settings sp w
             = bind (pushCompletions (asanaAccessToken settings) (taskMapOf ts0)
                       (existingTaskMapOf (tasks (parseNoteContent content))) 0)
                    k w
             -> syncProject settings sp w
                = k (List.length (filter isOk pushes)) w1).
  { intros k ->. unfold bind at 1. rewrite R1. reflexivity. }
  eassert (S2 : syncProject settings sp w
               = bind (pushCompletions (asanaAccessToken settings) (taskMapOf ts0)
                         (existingTaskMapOf (tasks (parseNoteContent content))) 0)
                      _ w).
  { unfold syncProject; unfold bind at 1.
    rewrite fetchTasks_run, T0; unfold bind at 1.
    unfold getWorld at 1; rewrite F; reflexivity. }
  apply S1 in S2. clear S1.
  destruct (fetched (asanaAccessToken settings) sp (remote w1)) as [ts1|] eqn:T1.
  - cbv zeta. rewrite S2. clear S2.
    unfold bind at 1. rewrite fetchTasks_run, T1.
    unfold bind at 1. unfold getWorld at 1. rewrite N1.
    change (rawLines (parseNoteContent content)) with (Js.split_nl content).
    fold (rebuilt settings sp (now w) content ts1).
    fold (finalLines settings sp (now w) content ts1).
    destruct (Js.eqb (Js.join_nl (finalLines settings sp (now w) content ts1)) content) eqn:Q.
    + exists w1. unfold bind, ret. rewrite app_nil_r.
      repeat split; auto. rewrite V1, F. apply eqb_eq in Q. rewrite Q. reflexivity.
    + eexists. unfold bind, ret, vaultModify, bind, getWorld, setVault, emit. cbn.
      split; [reflexivity|]. cbn. rewrite eqb_refl, E1, N1, <- app_assoc.
      repeat split; reflexivity.
  - rewrite S2. unfold bind at 1. rewrite fetchTasks_run, T1. reflexivity.
Qed.

End Run.

(* ------------------------------------------------------------------ *)
(** ** The rewrite loop in normal form *)

Section RewriteLoop.

Variable settings : AsanaSyncSettings.
Variable asanaTaskMap : JsMap.t AsanaTask.
Variable stamp : str.

Let step := rewrite_step settings asanaTaskMap stamp.

Lemma for_lines_app (S : Type) (f : nat -> str -> S -> S) (a b : list str) :
  forall i st,
    for_lines f i (a ++ b) st = for_lines f (i + List.length a) b (for_lines f i a st).
Proof.
  induction a as [|l a IH]; intros i st; simpl.
  - rewrite Nat.add_0_r. reflexivity.
  - rewrite IH. f_equal. lia.
Qed.

Lemma untilFence_app (ls : list str) :
  fst (untilFence ls) ++ snd (untilFence ls) = ls.
Proof.
  induction ls as [|l ls IH]; simpl; auto.
  destruct (Js.eqb l FENCE); simpl; auto.
  destruct (untilFence ls) as [a b]. simpl in *. rewrite IH. reflexivity.
Qed.

Lemma splitFrontmatter_app (lines : list str) :
  frontmatterOf lines ++ bodyOf lines = lines.
Proof.
  unfold frontmatterOf, bodyOf, splitFrontmatter.
  destruct lines as [|l ls]; auto.
  destruct (Js.eqb l FENCE); auto.
  pose proof (untilFence_app ls) as E.
  destruct (untilFence ls) as [a b]. simpl in *. rewrite E. reflexivity.
Qed.

(** Inside the frontmatter: the lines after the opening fence. *)
Lemma rewrite_frontmatter_steps (ls : list str) :
  forall i st,
    0 < i ->
    inFrontmatter st = true ->
    let st' := for_lines step i (fst (untilFence ls)) st in
    newLines st' = newLines st
                   ++ rewriteFm stamp (updatedFrontmatter st) (fst (untilFence ls))
    /\ seenGids st' = seenGids st
    /\ rw_updated st' = rw_updated st
    /\ (inFrontmatter st' = false \/ snd (untilFence ls) = []).
Proof.
  induction ls as [|l ls IH]; intros i st Hi Hin; simpl.
  - rewrite app_nil_r. auto.
  - destruct (Js.eqb l FENCE) eqn:EF.
    + simpl. unfold step, rewrite_step.
      destruct i; [lia|]. simpl. rewrite Hin, EF. simpl.
      destruct (updatedFrontmatter st); simpl; rewrite <- ?app_assoc; auto.
    + destruct (untilFence ls) as [a b] eqn:EU. simpl.
      specialize (IH (S i) (step i l st)). simpl in IH.
      assert (Hs : inFrontmatter (step i l st) = true
                   /\ seenGids (step i l st) = seenGids st
                   /\ rw_updated (step i l st) = rw_updated st
                   /\ newLines (step i l st)
                        ++ rewriteFm stamp (updatedFrontmatter (step i l st)) a
                      = newLines st
                        ++ (if Js.startsWith (Js.lit "asana_last_sync:") l
                            then lastSyncLine stamp :: rewriteFm stamp true a
                            else l :: rewriteFm stamp (updatedFrontmatter st) a)).
      { unfold step, rewrite_step. destruct i; [lia|]. simpl.
        rewrite Hin, EF.
        destruct (Js.startsWith (Js.lit "asana_last_sync:") l); simpl;
          rewrite <- app_assoc; auto. }
      destruct Hs as (H1 & H2 & H3 & H4).
      destruct (IH ltac:(lia) H1) as (I1 & I2 & I3 & I4).
      rewrite I1, I2, I3, H2, H3, H4, EF. auto.
Qed.

(** In the body every line is handled on its own. *)
Lemma rewrite_body_steps (body : list str) :
  forall i st,
    inFrontmatter st = false ->
    (i = 0 -> match body with l :: _ => l <> FENCE | [] => True end) ->
    let st' := for_lines step i body st in
    newLines st' = newLines st
                   ++ flat_map (rewriteBodyLine settings asanaTaskMap) body
    /\ (forall g, set_has g (seenGids st') = true <->
                  set_has g (seenGids st) = true
                  \/ exists l, In l body /\ carried l = Some g)
    /\ rw_updated st'
       = rw_updated st
         + List.length (filter (countsUpdated settings asanaTaskMap) body).
Proof.
  induction body as [|l body IH]; intros i st Hin H0; simpl.
  - rewrite app_nil_r, Nat.add_0_r. repeat split; auto.
    + intros [H|(l & [] & _)]; auto.
  - assert (F : Nat.eqb i 0 && Js.eqb l FENCE = false).
    { destruct i; simpl; auto. apply eqb_neq. auto. }
    assert (Hs : inFrontmatter (step i l st) = false
                 /\ newLines (step i l st)
                    = newLines st ++ rewriteBodyLine settings asanaTaskMap l
                 /\ (forall g, set_has g (seenGids (step i l st)) = true <->
                               set_has g (seenGids st) = true \/ carried l = Some g)
                 /\ rw_updated (step i l st)
                    = rw_updated st
                      + (if countsUpdated settings asanaTaskMap l then 1 else 0)).
    { unfold step, rewrite_step, rewriteBodyLine, countsUpdated, carried.
      rewrite F, Hin.
      assert (SA : forall g g', set_has g (set_add g' (seenGids st)) = true <->
                                set_has g (seenGids st) = true \/ Some g' = Some g).
      { intros g g'. unfold set_add.
        destruct (set_has g' (seenGids st)) eqn:E.
        - split; auto. intros [H|H]; auto. inversion H; subst; auto.
        - unfold set_has. rewrite existsb_app. simpl.
          rewrite orb_true_iff, orb_false_r, eqb_eq.
          split; intros [H|H]; auto; right; congruence. }
      destruct (Js.startsWith H2 l); simpl.
      { rewrite Nat.add_0_r. repeat split; auto. intros [H|H]; auto; discriminate. }
      destruct (gidMatch l) as [g'|]; simpl.
      2:{ rewrite Nat.add_0_r. repeat split; auto. intros [H|H]; auto; discriminate. }
      destruct (JsMap.get g' asanaTaskMap) as [t|]; simpl.
      2:{ rewrite Nat.add_0_r. repeat split; auto; apply SA. }
      destruct (negb (showCompletedTasks settings) && completed t); simpl.
      - rewrite app_nil_r, Nat.add_0_r. repeat split; auto; apply SA.
      - repeat split; auto; try apply SA. lia. }
    destruct Hs as (H1 & H2' & H3 & H4).
    destruct (IH (S i) (step i l st) H1 ltac:(discriminate)) as (I1 & I2 & I3).
    rewrite I1, I3, H2', H4, <- app_assoc. repeat split.
    + intros H. apply I2 in H. destruct H as [H|(l' & Hl & Hc)].
      * apply H3 in H. destruct H as [H|H]; auto. right; exists l; auto.
      * right; exists l'; auto.
    + intros [H|(l' & [<-|Hl] & Hc)]; apply I2.
      * left. apply H3. auto.
      * left. apply H3. auto.
      * right. eauto.
    + destruct (countsUpdated settings asanaTaskMap l); simpl; lia.
Qed.

Lemma untilFence_open (ls : list str) :
  snd (untilFence ls) <> [] ->
  exists a, fst (untilFence ls) = a ++ [FENCE].
Proof.
  induction ls as [|l ls IH]; simpl; [congruence|].
  destruct (Js.eqb l FENCE) eqn:E.
  - intros _. exists []. apply eqb_eq in E. subst. reflexivity.
  - destruct (untilFence ls) as [a b]. simpl in *. intros H.
    destruct (IH H) as (a' & ->). exists (l :: a'). reflexivity.
Qed.

(** The rewrite loop over a whole note. *)
Theorem rewrite_normal_form (lines : list str) :
  let st := for_lines step 0 lines rewrite_init in
  newLines st = rewriteFrontmatter stamp (frontmatterOf lines)
                ++ flat_map (rewriteBodyLine settings asanaTaskMap) (bodyOf lines)
  /\ (forall g, set_has g (seenGids st) = true <->
                exists l, In l (bodyOf lines) /\ carried l = Some g)
  /\ rw_updated st
     = List.length (filter (countsUpdated settings asanaTaskMap) (bodyOf lines)).
Proof.
  unfold frontmatterOf, bodyOf, splitFrontmatter.
  destruct lines as [|l ls].
  - simpl. repeat split; auto; try discriminate. intros (l & [] & _).
  - destruct (Js.eqb l FENCE) eqn:E.
    + pose proof (untilFence_app ls) as EA.
      destruct (untilFence ls) as [a b] eqn:EU. simpl in EA. subst ls.
      cbn [fst snd]. cbv zeta.
      change (for_lines step 0 (l :: a ++ b) rewrite_init)
        with (for_lines step 1 (a ++ b) (step 0 l rewrite_init)).
      rewrite for_lines_app.
      assert (S0 : step 0 l rewrite_init
                   = {| newLines := [l]; inFrontmatter := true;
                        updatedFrontmatter := false;
                        currentSection := UNSECTIONED; seenGids := [];
                        rw_updated := 0 |}).
      { unfold step, rewrite_step. simpl. rewrite E. reflexivity. }
      rewrite S0.
      pose proof (@rewrite_frontmatter_steps (a ++ b) 1
                    {| newLines := [l]; inFrontmatter := true;
                       updatedFrontmatter := false;
                       currentSection := UNSECTIONED; seenGids := [];
                       rw_updated := 0 |} ltac:(lia) eq_refl) as FS.
      rewrite EU in FS. cbn [fst snd] in FS. cbv zeta in FS.
      destruct FS as (F1 & F2 & F3 & F4).
      destruct F4 as [F4| ->].
      * pose proof (@rewrite_body_steps b (1 + List.length a) _ F4 ltac:(lia))
          as (B1 & B2 & B3).
        rewrite B1, B3, F1, F3. simpl. repeat split; auto.
        -- intros H. apply B2 in H. rewrite F2 in H.
           destruct H as [H|H]; auto. discriminate.
        -- intros H. apply B2. auto.
      * simpl. rewrite F1, F2, F3. simpl. rewrite app_nil_r.
        repeat split; auto; try discriminate. intros (l' & [] & _).
    + cbn [fst snd]. cbv zeta.
      pose proof (@rewrite_body_steps (l :: ls) 0 rewrite_init eq_refl) as B.
      destruct B as (B1 & B2 & B3).
      { intros _. apply eqb_neq. exact E. }
      rewrite B1, B3. simpl. repeat split; auto.
      * intros H. apply B2 in H. destruct H as [H|H]; auto. discriminate.
      * intros H. apply B2. auto.
Qed.

End RewriteLoop.

(* ------------------------------------------------------------------ *)
(** ** Lines and content *)

Lemma split_nl_nonempty (s : str) : Js.split_nl s <> [].
Proof.
  destruct s as [|c s]; simpl; [discriminate|].
  destruct (c =? 10)%N; [discriminate|].
  destruct (Js.split_nl s); discriminate.
Qed.

Lemma split_nl_app (a b : str) :
  Js.split_nl (a ++ 10%N :: b) = Js.split_nl a ++ Js.split_nl b.
Proof.
  induction a as [|c a IH]; simpl; auto.
  destruct (c =? 10)%N; simpl.
  - rewrite IH. reflexivity.
  - rewrite IH. pose proof (split_nl_nonempty a).
    destruct (Js.split_nl a); [congruence|]. reflexivity.
Qed.

Lemma split_nl_line (l : str) : ~ In 10%N l -> Js.split_nl l = [l].
Proof.
  induction l as [|c l IH]; simpl; auto. intros N.
  destruct (N.eqb_spec c 10); [tauto|]. rewrite IH; tauto.
Qed.

Lemma split_nl_no_newline (s l : str) : In l (Js.split_nl s) -> ~ In 10%N l.
Proof.
  revert l; induction s as [|c s IH]; simpl; intros l H.
  - destruct H as [<-|[]]. auto.
  - destruct (N.eqb_spec c 10).
    + destruct H as [<-|H]; auto.
    + pose proof (split_nl_nonempty s).
      destruct (Js.split_nl s) as [|l0 ls]; [congruence|].
      destruct H as [<-|H].
      * simpl. intros [E|E]; [congruence|]. apply (IH l0); simpl; auto.
      * apply IH. simpl; auto.
Qed.

Lemma split_join (ls : list str) :
  ls <> [] -> Js.split_nl (Js.join_nl ls) = flat_map Js.split_nl ls.
Proof.
  induction ls as [|l ls IH]; [congruence|]. intros _.
  destruct ls as [|l' ls].
  - simpl. rewrite app_nil_r. reflexivity.
  - change (Js.join_nl (l :: l' :: ls)) with (l ++ 10%N :: Js.join_nl (l' :: ls)).
    rewrite split_nl_app, IH by discriminate. reflexivity.
Qed.

(** Lines without a newline survive joining and splitting. *)
Lemma split_join_lines (ls : list str) :
  ls <> [] -> Forall (fun l => ~ In 10%N l) ls ->
  Js.split_nl (Js.join_nl ls) = ls.
Proof.
  intros N F. rewrite split_join by auto. clear N.
  induction F as [|l ls H F IH]; simpl; auto.
  rewrite split_nl_line, IH by auto. reflexivity.
Qed.

Lemma split_join_In (ls : list str) (l : str) :
  In l ls -> ~ In 10%N l -> In l (Js.split_nl (Js.join_nl ls)).
Proof.
  intros I N. rewrite split_join by (intros ->; destruct I).
  apply in_flat_map. exists l. split; auto.
  rewrite split_nl_line by auto. simpl; auto.
Qed.

Lemma bodyOf_In (lines : list str) (l : str) :
  In l (bodyOf lines) -> In l lines.
Proof.
  intros H. rewrite <- (splitFrontmatter_app lines). apply in_or_app. auto.
Qed.

(** ** Appending new tasks only adds lines *)

Lemma placeGroup_keeps (settings : AsanaSyncSettings) (lines : list str)
      (entry : str * list AsanaTask) (l : str) :
  In l lines -> In l (placeGroup settings lines entry).
Proof.
  intros H. unfold placeGroup. destruct entry as [sectionName ts].
  destruct (findIndex _ lines) as [idx|];
    destruct (negb (Js.eqb sectionName UNSECTIONED));
    try (apply in_or_app; auto).
  unfold splice.
  rewrite <- (firstn_skipn (S idx + sectionRest (skipn (S idx) lines)) lines) in H.
  apply in_app_or in H. rewrite !in_app_iff. tauto.
Qed.

Lemma appendNewTasks_keeps (settings : AsanaSyncSettings) (sp : SyncedProject)
      (newTasks : list AsanaTask) (lines : list str) (l : str) :
  In l lines -> In l (appendNewTasks settings sp newTasks lines).
Proof.
  unfold appendNewTasks. destruct newTasks as [|t ts]; auto.
  generalize (groupBySection (projectGid sp) (t :: ts)).
  intros groups. revert lines.
  induction groups as [|e groups IH]; simpl; auto.
  intros lines H. apply IH. apply placeGroup_keeps. exact H.
Qed.

(* ------------------------------------------------------------------ *)
(** ** The outcome of a completed run on an existing note *)

Section Outcome.

Context {Remote : Type} {RC : RemoteClient Remote}.

Variables (settings : AsanaSyncSettings) (sp : SyncedProject).

Let token := asanaAccessToken settings.

(** A run on an existing note that returns: what was fetched before and
    after the pushes, what was pushed, what was written and counted.  The
    remote is not touched after the refresh, so the refreshed list is what a
    fetch returns in the final state. *)
Lemma syncProject_outcome (w w2 : World Remote) (content : str) (stats : Stats) :
  getAbstractFileByPath (notePath sp) (vault w) = Some (TFile content) ->
  syncProject settings sp w = (Some stats, w2) ->
  exists ts0 ts1 pushes,
    fetched token sp (remote w) = Some ts0
    /\ fetched token sp (remote w2) = Some ts1
    /\ map pushOf pushes
       = map Some (conflicts (taskMapOf ts0)
                     (existingTaskMapOf (tasks (parseNoteContent content))))
    /\ stats
       = {| added := List.length
                       (newTasksOf settings
                          (seenGids (rebuilt settings sp (now w) content ts1)) ts1);
            updated := rw_updated (rebuilt settings sp (now w) content ts1);
            completionChanges := List.length (filter isOk pushes) |}
    /\ now w2 = now w
    /\ events w2
       = events w ++ pushes
         ++ (if Js.eqb (Js.join_nl (finalLines settings sp (now w) content ts1))
                       content
             then []
             else [EvModify (notePath sp)
                     (Js.join_nl (finalLines settings sp (now w) content ts1))])
    /\ getAbstractFileByPath (notePath sp) (vault w2)
       = Some (TFile (Js.join_nl (finalLines settings sp (now w) content ts1))).
Proof.
  intros F R.
  destruct (fetched token sp (remote w)) as [ts0|] eqn:T0.
  2:{ unfold syncProject in R. unfold bind at 1 in R.
      rewrite fetchTasks_run in R. fold token in R. rewrite T0 in R. discriminate. }
  destruct (syncProject_existing settings sp w F T0) as (w1 & pushes & _ & P & H).
  fold token in H.
  destruct (fetched token sp (remote w1)) as [ts1|] eqn:T1.
  - destruct H as (w2' & R' & Hr & Hn & He & Hv).
    rewrite R in R'. inversion R'; subst w2'. clear R'.
    exists ts0, ts1, pushes. rewrite Hr. repeat split; auto.
  - rewrite R in H. discriminate.
Qed.

End Outcome.

(* ------------------------------------------------------------------ *)
(** ** Conservative deletion *)

Section Conservative.

Context {Remote : Type} {RC : RemoteClient Remote}.

(** C4, as amended: a line of the body whose first identifier comment names
    an identifier that the refreshed task list does not hold is a line of
    the note after the run, unchanged. *)
Theorem unreported_line_kept
        (settings : AsanaSyncSettings) (sp : SyncedProject)
        (w w2 : World Remote) (content : str) (stats : Stats)
        (refreshed : list AsanaTask) (ln g : str) :
  getAbstractFileByPath (notePath sp) (vault w) = Some (TFile content) ->
  syncProject settings sp w = (Some stats, w2) ->
  fetched (asanaAccessToken settings) sp (remote w2) = Some refreshed ->
  In ln (bodyOf (Js.split_nl content)) ->
  gidMatch ln = Some g ->
  JsMap.get g (taskMapOf refreshed) = None ->
  exists newContent,
    getAbstractFileByPath (notePath sp) (vault w2) = Some (TFile newContent)
    /\ In ln (Js.split_nl newContent).
Proof.
  intros F R T I G A.
  destruct (syncProject_outcome settings sp w F R)
    as (ts0 & ts1 & pushes & _ & T1 & _ & _ & _ & _ & V).
  rewrite T in T1. inversion T1; subst ts1. clear T1.
  eexists. split; [exact V|].
  apply split_join_In.
  - unfold finalLines. apply appendNewTasks_keeps. unfold rebuilt.
    destruct (rewrite_normal_form settings (taskMapOf refreshed) (now w)
                (Js.split_nl content)) as (N & _).
    rewrite N. apply in_or_app. right. apply in_flat_map.
    exists ln. split; auto.
    unfold rewriteBodyLine. rewrite G, A.
    destruct (Js.startsWith H2 ln); simpl; auto.
  - apply (split_nl_no_newline content). apply bodyOf_In. exact I.
Qed.

End Conservative.

(** A line that ends in two identifier comments is the task of the second
    one for [parseTaskLine] and of the first one for the rewrite: when only
    the second task is gone from the remote list, the line is replaced. *)
Lemma line_with_two_identifiers_replaced :
  let line := Js.lit "- [ ] a <!-- asana:1 --> <!-- asana:2 -->" in
  let w := Sample.world (Some line) [Sample.task "1" "One" false] "T0" in
  let w2 := snd (syncProject (Sample.settings "tok" true) Sample.proj w) in
  option_map asanaGid (parseTaskLine line 0) = Some (Some (Js.lit "2"))
  /\ JsMap.get (Js.lit "2") (taskMapOf (remote w2)) = None
  /\ Sample.noteOf w2 = Some (TFile (Js.lit "- [ ] One <!-- asana:1 -->"))
  /\ ~ In line (Js.split_nl (Js.lit "- [ ] One <!-- asana:1 -->")).
Proof.
  repeat split; try (vm_compute; reflexivity).
  vm_compute. intros [H|[]]. discriminate.
Qed.

(** Inside the frontmatter a line that starts with the stamp key is replaced
    by a fresh stamp, identifier comment or not. *)
Lemma stamp_line_with_identifier_replaced :
  let line := Js.lit "asana_last_sync: old <!-- asana:5 -->" in
  let doc := Js.join_nl [FENCE; line; FENCE] in
  let w := Sample.world (Some doc) [] "T1" in
  let w2 := snd (syncProject (Sample.settings "tok" true) Sample.proj w) in
  gidMatch line = Some (Js.lit "5")
  /\ JsMap.get (Js.lit "5") (taskMapOf (remote w2)) = None
  /\ Sample.noteOf w2
     = Some (TFile (Js.join_nl [FENCE; lastSyncLine (Js.lit "T1"); FENCE])).
Proof. repeat split; vm_compute; reflexivity. Qed.

Lemma unreported_line_kept_witness :
  let line := Js.lit "- [ ] Gone <!-- asana:9 -->" in
  let w := Sample.world (Some line) [Sample.task "1" "One" false] "T0" in
  let r := syncProject (Sample.settings "tok" true) Sample.proj w in
  exists newContent,
    getAbstractFileByPath (notePath Sample.proj) (vault (snd r))
    = Some (TFile newContent)
    /\ In line (Js.split_nl newContent).
Proof.
  intros line w r.
  apply unreported_line_kept
    with (settings := Sample.settings "tok" true) (w := w) (content := line)
         (stats := {| added := 1; updated := 0; completionChanges := 0 |})
         (refreshed := [Sample.task "1" "One" false]) (g := Js.lit "9").
  - reflexivity.
  - vm_compute. reflexivity.
  - reflexivity.
  - vm_compute. auto.
  - vm_compute. reflexivity.
  - vm_compute. reflexivity.
Defined.

(* ------------------------------------------------------------------ *)
(** ** What the two patterns find in a line *)

Section Patterns.

Import Re ReFacts.

Lemma search_sound (input : str) (r : regex) :
  forall s m, search_from input r s = Some m ->
  exists a b, s = a ++ b /\ exec input r b [] (fun _ c => Some c) = Some m.
Proof.
  induction s as [|x s IH]; intros m H; simpl in H.
  - destruct (exec input r [] [] (fun _ c => Some c)) eqn:E; [|discriminate].
    inversion H; subst. exists [], []. auto.
  - destruct (exec input r (x :: s) [] (fun _ c => Some c)) eqn:E.
    + inversion H; subst. exists [], (x :: s). auto.
    + destruct (IH m H) as (a & b & -> & E'). exists (x :: a), b. auto.
Qed.

Lemma search_complete (input : str) (r : regex) (b : str) (m : captures) :
  exec input r b [] (fun _ c => Some c) = Some m ->
  forall a, exists m', search_from input r (a ++ b) = Some m'.
Proof.
  intros E a. induction a as [|x a IH].
  - exists m. destruct b; simpl; simpl in E; rewrite E; reflexivity.
  - simpl. destruct (exec input r (x :: a ++ b) [] (fun _ c => Some c)); eauto.
Qed.

Lemma gid_comment_inv (input : str) (n : nat) (u rest : str) (c c' : captures) :
  matches input (GID_COMMENT n) u rest c c' ->
  exists ws1 g ws2,
    u = commentText ws1 g ws2 /\ spaces ws1 /\ wordy g /\ spaces ws2
    /\ c' = (n, g) :: c.
Proof.
  unfold GID_COMMENT. cbn [Seqs]. intros H.
  apply seq_inv in H. destruct H as (u1 & r1 & c1 & -> & H1 & H).
  apply lit_inv in H1. destruct H1 as (-> & ->).
  apply seq_inv in H. destruct H as (ws1 & r2 & c2 & -> & H1 & H).
  apply starG_inv in H1. destruct H1 as (S1 & ->).
  apply seq_inv in H. destruct H as (u3 & r3 & c3 & -> & H1 & H).
  apply lit_inv in H1. destruct H1 as (-> & ->).
  apply seq_inv in H. destruct H as (g & r4 & c4 & -> & H1 & H).
  apply group_inv in H1. destruct H1 as (c5 & H1 & ->).
  unfold PlusG in H1.
  apply seq_inv in H1. destruct H1 as (g1 & g2 & c6 & -> & H1 & H2).
  apply chr_inv in H1. destruct H1 as (x & -> & Wx & ->).
  apply starG_inv in H2. destruct H2 as (Wg & ->).
  apply seq_inv in H. destruct H as (ws2 & r5 & c7 & -> & H1 & H).
  apply starG_inv in H1. destruct H1 as (S2 & ->).
  apply lit_inv in H. destruct H as (-> & ->).
  exists ws1, ([x] ++ g2), ws2. unfold commentText, spaces, wordy.
  repeat split; auto; try discriminate.
  constructor; auto.
Qed.

Lemma gid_comment_matches (input : str) (n : nat) (ws1 g ws2 rest : str)
      (c : captures) :
  spaces ws1 -> wordy g -> spaces ws2 ->
  matches input (GID_COMMENT n) (commentText ws1 g ws2) rest c ((n, g) :: c).
Proof.
  intros S1 (Ng & Wg) S2. unfold GID_COMMENT, commentText. cbn [Seqs].
  destruct g as [|x g]; [congruence|]. inversion Wg; subst.
  eapply m_seq; [apply matches_lit|].
  eapply m_seq; [constructor; exact S1|].
  eapply m_seq; [apply matches_lit|].
  eapply m_seq.
  { constructor. unfold PlusG.
    eapply (m_seq (u := [x]) (v := g)); constructor; auto. }
  eapply m_seq; [constructor; exact S2|].
  apply matches_lit.
Qed.

(** A line that holds an identifier comment has a first one. *)
Lemma gidMatch_finds (pre ws1 g ws2 post : str) :
  spaces ws1 -> wordy g -> spaces ws2 ->
  exists g', gidMatch (pre ++ commentText ws1 g ws2 ++ post) = Some g'.
Proof.
  intros S1 Wg S2.
  set (ln := pre ++ commentText ws1 g ws2 ++ post).
  pose proof (gid_comment_matches ln 1 post [] S1 Wg S2) as M.
  destruct (exec_complete M (fun _ c => Some c) eq_refl) as (m & E).
  destruct (search_complete _ _ _ E pre) as (m' & Sr).
  fold ln in Sr. unfold gidMatch, match_, ASANA_GID_REGEX. rewrite Sr.
  apply search_sound in Sr. destruct Sr as (a & b & _ & E').
  apply exec_sound in E'. destruct E' as (u & s' & c' & _ & M' & K).
  inversion K; subst. apply gid_comment_inv in M'.
  destruct M' as (w1 & g' & w2 & _ & _ & _ & _ & ->).
  exists g'. simpl. reflexivity.
Qed.

End Patterns.

Section ParseInversion.

Import Re ReFacts.

Ltac inv_re :=
  repeat match goal with
  | H : matches _ (Seq _ _) _ _ _ _ |- _ =>
      apply seq_inv in H; destruct H as (? & ? & ? & ? & ? & ?); subst
  | H : matches _ (Chr _) _ _ _ _ |- _ =>
      apply chr_inv in H; destruct H as (? & ? & ? & ?); subst
  | H : matches _ Eps _ _ _ _ |- _ =>
      apply eps_inv in H; destruct H as (? & ?); subst
  | H : matches _ (StarG _) _ _ _ _ |- _ =>
      apply starG_inv in H; destruct H as (? & ?); subst
  | H : matches _ (StarL _) _ _ _ _ |- _ =>
      apply starL_inv in H; destruct H as (? & ?); subst
  | H : matches _ (Group _ _) _ _ _ _ |- _ =>
      apply group_inv in H; destruct H as (? & ? & ?); subst
  | H : matches _ (Lit _) _ _ _ _ |- _ =>
      apply lit_inv in H; destruct H as (? & ?); subst
  | H : matches _ Eol _ _ _ _ |- _ =>
      apply eol_inv in H; destruct H as (? & ? & ?); subst
  end.

Lemma date_inv (input u rest : str) (c c' : captures) :
  matches input DATE u rest c c' -> is_date u = true /\ c' = c.
Proof.
  unfold DATE. cbn [Seqs Rep]. intros H. inv_re.
  repeat match goal with
         | H : N.eqb _ _ = true |- _ => apply N.eqb_eq in H; subst
         end.
  split; auto. simpl.
  repeat match goal with
         | H : Js.is_digit _ = true |- _ => rewrite H; clear H
         end.
  reflexivity.
Qed.

Lemma due_part_inv (input u rest : str) (c c' : captures) :
  matches input DUE_PART u rest c c' ->
  exists w1 w2 d,
    u = dueText (Some (w1, w2, d)) /\ spaces w1 /\ spaces w2
    /\ is_date d = true /\ c' = (5, d) :: c.
Proof.
  unfold DUE_PART. cbn [Seqs]. intros H. inv_re.
  match goal with H : matches _ DATE _ _ _ _ |- _ =>
    apply date_inv in H; destruct H as (D & ->) end.
  do 3 eexists. unfold dueText, spaces. repeat split; eauto.
Qed.

Lemma assignee_part_inv (input u rest : str) (c c' : captures) :
  matches input ASSIGNEE_PART u rest c c' ->
  exists w1 w2 a,
    u = assigneeText (Some (w1, w2, a)) /\ spaces w1 /\ spaces w2
    /\ a <> [] /\ dots a /\ c' = (6, a) :: c.
Proof.
  unfold ASSIGNEE_PART, PlusL. cbn [Seqs]. intros H. inv_re.
  do 3 eexists. unfold assigneeText, spaces, dots.
  repeat split; eauto; try discriminate.
  simpl. constructor; auto.
Qed.

Lemma gid_part_inv (input u rest : str) (c c' : captures) :
  matches input GID_PART u rest c c' ->
  exists w0 w1 g w2,
    u = gidText (Some (w0, w1, g, w2)) /\ spaces w0 /\ spaces w1
    /\ wordy g /\ spaces w2 /\ c' = (7, g) :: c.
Proof.
  unfold GID_PART. intros H.
  apply seq_inv in H. destruct H as (w0 & u2 & c1 & -> & H1 & H).
  apply starG_inv in H1. destruct H1 as (S0 & ->).
  apply gid_comment_inv in H.
  destruct H as (w1 & g & w2 & -> & S1 & Wg & S2 & ->).
  exists w0, w1, g, w2. repeat split; auto; apply Wg.
Qed.

(** Every line that [parseTaskLine] accepts is cut into parts, and the task
    is read off them. *)
Theorem parse_inv (l : str) (i : nat) (pt : ParsedTask) :
  parseTaskLine l i = Some pt ->
  exists p, partsOk p /\ l = lineText p /\ pt = taskOfParts p l i.
Proof.
  unfold parseTaskLine, match_. intros H.
  destruct (search_from l TASK_LINE_REGEX l) as [m|] eqn:Sr; [|discriminate].
  inversion H; subst pt; clear H.
  apply search_sound in Sr. destruct Sr as (a & b & El & E).
  apply exec_sound in E. destruct E as (u & s' & c' & -> & M & K).
  inversion K; subst c'; clear K.
  unfold TASK_LINE_REGEX in M. cbn [Seqs] in M.
  apply seq_inv in M. destruct M as (u0 & u1 & c0 & -> & B & M).
  apply bol_inv in B. destruct B as (-> & -> & Len).
  apply seq_inv in M. destruct M as (g1 & r1 & c1 & -> & G1 & M).
  apply seq_inv in M. destruct M as (g2 & r2 & c2 & -> & G2 & M).
  apply seq_inv in M. destruct M as (g3 & r3 & c3 & -> & G3 & M).
  apply seq_inv in M. destruct M as (g4 & r4 & c4 & -> & G4 & M).
  apply seq_inv in M. destruct M as (od & r5 & c5 & -> & OD & M).
  apply seq_inv in M. destruct M as (oa & r6 & c6 & -> & OA & M).
  apply seq_inv in M. destruct M as (og & r7 & c7 & -> & OG & M).
  unfold PlusL in G4. inv_re.
  match goal with
  | H : matches _ (Opt DUE_PART) _ _
          [(4, [?t] ++ ?ts); _; (2, [?f]); (1, ?ind ++ _)] _ |- _ =>
      rename t into t0; rename ts into t1; rename f into flag;
      rename ind into indent
  end.
  match goal with
  | H : matches _ (Opt GID_PART) _ ((?tr ++ []) ++ []) _ _ |- _ =>
      rename tr into trail
  end.
  assert (a = []).
  { rewrite !length_app in Len. destruct a; auto. simpl in Len. lia. }
  subst a. cbn [app] in *. rewrite ?app_nil_r in *.
  apply opt_inv in OD. apply opt_inv in OA. apply opt_inv in OG.
  match goal with H : is_flag flag = true |- _ => rename H into Hflag end.
  match goal with H : Js.is_dot t0 = true |- _ => rename H into Ht0 end.
  match goal with H : Forall _ t1 |- _ => rename H into Ht1 end.
  match goal with H : Forall _ indent |- _ => rename H into Hind end.
  match goal with H : Forall _ trail |- _ => rename H into Htr end.
  assert (Hc : negb (N.eqb flag 32)
               = Js.eqb [flag] (Js.lit "x") || Js.eqb [flag] (Js.lit "X")).
  { unfold is_flag in Hflag.
    destruct (N.eqb_spec flag 32) as [->|]; [reflexivity|].
    destruct (N.eqb_spec flag 120) as [->|]; [reflexivity|].
    destruct (N.eqb_spec flag 88) as [->|]; [reflexivity|].
    rewrite <- !N.eqb_neq in *.
    repeat match goal with H : N.eqb _ _ = false |- _ => rewrite H in Hflag end.
    discriminate. }
  destruct OD as [OD|(-> & ->)];
    [apply due_part_inv in OD;
     destruct OD as (dw1 & dw2 & d & -> & Sd1 & Sd2 & Dd & ->)|];
  (destruct OA as [OA|(-> & ->)];
    [apply assignee_part_inv in OA;
     destruct OA as (aw1 & aw2 & an & -> & Sa1 & Sa2 & Na & Da & ->)|]);
  (destruct OG as [OG|(-> & ->)];
    [apply gid_part_inv in OG;
     destruct OG as (gw0 & gw1 & g & gw2 & -> & Sg0 & Sg1 & Wg & Sg2 & ->)|]).
  all: match goal with
       | |- context [(7, ?g) :: _] => pose (og := Some (gw0, gw1, g, gw2))
       | _ => pose (og := @None (str * str * str * str))
       end.
  all: match goal with
       | |- context [(6, ?a) :: _] => pose (oa := Some (aw1, aw2, a))
       | _ => pose (oa := @None (str * str * str))
       end.
  all: match goal with
       | |- context [(5, ?d) :: _] => pose (od := Some (dw1, dw2, d))
       | _ => pose (od := @None (str * str * str))
       end.
  all: exists {| lp_indent := indent; lp_flag := flag; lp_title := t0 :: t1;
                 lp_due := od; lp_assignee := oa; lp_gid := og;
                 lp_trail := trail |}.
  all: subst od oa og.
  all: split;
    [unfold partsOk, spaces, dots, wordy in *; cbn;
     repeat split; auto; try discriminate; try (constructor; auto); try tauto|].
  all: split;
    [unfold lineText; cbn [lp_indent lp_flag lp_title lp_due
                                     lp_assignee lp_gid lp_trail
                                     dueText assigneeText gidText];
     rewrite <- ?app_assoc; cbn [app]; rewrite ?app_nil_r; reflexivity|].
  all: unfold taskOfParts; cbn [lp_flag lp_title lp_due lp_assignee lp_gid];
    cbn [cap_get Nat.eqb]; rewrite Hc; cbn [option_map or_null]; try reflexivity.
  all: repeat match goal with
       | W : wordy ?g |- context [Js.truthy ?g] =>
           replace (Js.truthy g) with true
             by (destruct W as (N & _); destruct g; [congruence|reflexivity])
       | D : is_date ?d = true |- context [Js.truthy ?d] =>
           replace (Js.truthy d) with true
             by (destruct d; [discriminate|reflexivity])
       end; reflexivity.
Qed.

End ParseInversion.

(** A task with an identifier comes from a line with an identifier comment. *)
Lemma parse_has_comment (l : str) (i : nat) (pt : ParsedTask) (g : str) :
  parseTaskLine l i = Some pt -> asanaGid pt = Some g ->
  exists g', gidMatch l = Some g'.
Proof.
  intros P G. apply parse_inv in P. destruct P as (p & Ok & -> & ->).
  unfold taskOfParts in G. simpl in G.
  destruct (lp_gid p) as [[[[w0 w1] g0] w2]|] eqn:E; [|discriminate].
  destruct Ok as (_ & _ & _ & _ & _ & _ & Og & _). rewrite E in Og.
  destruct Og as (S0 & S1 & Wg & S2).
  unfold lineText. rewrite E. unfold gidText.
  repeat rewrite app_assoc.
  rewrite <- (app_assoc _ (commentText w1 g0 w2) (lp_trail p)).
  apply gidMatch_finds; auto.
Qed.

(** A task line begins with white space and a dash. *)
Lemma parse_line_head (l : str) (i : nat) (pt : ParsedTask) :
  parseTaskLine l i = Some pt ->
  exists indent rest, spaces indent /\ l = indent ++ 45%N :: rest.
Proof.
  intros P. apply parse_inv in P. destruct P as (p & Ok & -> & _).
  exists (lp_indent p). eexists. split; [apply Ok|].
  unfold lineText, DASH_BOX. simpl. reflexivity.
Qed.

(* ------------------------------------------------------------------ *)
(** ** The note parser reads tasks off the body *)

Section ParseLoop.

Lemma parse_frontmatter_steps (ls : list str) :
  forall i st,
    0 < i ->
    ns_inFrontmatter st = true ->
    let st' := for_lines parseNote_step i (fst (untilFence ls)) st in
    ns_tasks st' = ns_tasks st
    /\ (ns_inFrontmatter st' = false \/ snd (untilFence ls) = []).
Proof.
  induction ls as [|l ls IH]; intros i st Hi Hin; simpl; auto.
  destruct (Js.eqb l FENCE) eqn:EF.
  - simpl. unfold parseNote_step. destruct i; [lia|]. simpl.
    rewrite Hin, EF. simpl. auto.
  - destruct (untilFence ls) as [a b] eqn:EU. simpl.
    specialize (IH (S i) (parseNote_step i l st)). simpl in IH.
    assert (Hs : ns_inFrontmatter (parseNote_step i l st) = true
                 /\ ns_tasks (parseNote_step i l st) = ns_tasks st).
    { unfold parseNote_step. destruct i; [lia|]. simpl.
      rewrite Hin, EF. simpl. auto. }
    destruct Hs as (H1 & H2).
    destruct (IH ltac:(lia) H1) as (I1 & I2).
    rewrite I1, H2. auto.
Qed.

Lemma parseNote_body_tasks (i : nat) (l : str) (st : NoteState) :
  ns_inFrontmatter (parseNote_body i l st) = ns_inFrontmatter st
  /\ forall pt, In pt (ns_tasks (parseNote_body i l st)) ->
                In pt (ns_tasks st) \/ parseTaskLine l i = Some pt.
Proof.
  unfold parseNote_body. destruct (Js.startsWith H2 l); simpl; auto.
  destruct (parseTaskLine l i) as [p|]; simpl; auto.
  split; auto. intros pt H. apply in_app_or in H.
  destruct H as [H|[<-|[]]]; auto.
Qed.

Lemma parse_body_steps (body : list str) :
  forall i st,
    ns_inFrontmatter st = false ->
    (i = 0 -> match body with l :: _ => l <> FENCE | [] => True end) ->
    forall pt, In pt (ns_tasks (for_lines parseNote_step i body st)) ->
               In pt (ns_tasks st) \/ fromLines body pt.
Proof.
  induction body as [|l body IH]; intros i st Hin H0 pt; simpl; auto.
  assert (F : Nat.eqb i 0 && Js.eqb l FENCE = false).
  { destruct i; simpl; auto. apply eqb_neq. auto. }
  assert (Hs : ns_inFrontmatter (parseNote_step i l st) = false
               /\ forall q, In q (ns_tasks (parseNote_step i l st)) ->
                            In q (ns_tasks st) \/ parseTaskLine l i = Some q).
  { unfold parseNote_step. rewrite F, Hin.
    pose proof (parseNote_body_tasks i l st) as (B1 & B2). rewrite Hin in B1.
    destruct (ns_frontmatterDone st && negb (ns_headerDone st)); auto.
    destruct (Js.startsWith H1 l); simpl; auto.
    destruct (Js.eqb (Js.trim l) []); auto. }
  destruct Hs as (S1 & S2).
  intros H. apply (IH (S i) _ S1 ltac:(discriminate)) in H.
  destruct H as [H|(l' & j & Hl & Hp)].
  - apply S2 in H. destruct H as [H|H]; auto.
    right. exists l, i. simpl; auto.
  - right. exists l', j. simpl; auto.
Qed.

(** Every parsed task of a note is the reading of one of its body lines. *)
Theorem tasks_from_body (content : str) (pt : ParsedTask) :
  In pt (tasks (parseNoteContent content)) ->
  fromLines (bodyOf (Js.split_nl content)) pt.
Proof.
  unfold parseNoteContent. cbn [tasks].
  generalize (Js.split_nl content). intros lines.
  unfold bodyOf, splitFrontmatter.
  set (st0 := {| ns_tasks := []; ns_sections := [];
                 ns_currentSection := UNSECTIONED;
                 ns_frontmatter := []; ns_header := [];
                 ns_inFrontmatter := false; ns_frontmatterDone := false;
                 ns_headerDone := false |}).
  destruct lines as [|l ls]; [intros []|].
  destruct (Js.eqb l FENCE) eqn:E.
  - pose proof (untilFence_app ls) as EA.
    destruct (untilFence ls) as [a b] eqn:EU. simpl in EA. subst ls.
    cbn [fst snd].
    change (for_lines parseNote_step 0 (l :: a ++ b) st0)
      with (for_lines parseNote_step 1 (a ++ b) (parseNote_step 0 l st0)).
    rewrite for_lines_app.
    assert (S0 : ns_inFrontmatter (parseNote_step 0 l st0) = true
                 /\ ns_tasks (parseNote_step 0 l st0) = []).
    { unfold parseNote_step. simpl. rewrite E. auto. }
    destruct S0 as (S1 & S2).
    pose proof (@parse_frontmatter_steps (a ++ b) 1 _ ltac:(lia) S1) as FS.
    rewrite EU in FS. cbn [fst snd] in FS. cbv zeta in FS.
    destruct FS as (F1 & [F2| ->]).
    + intros H.
      apply (@parse_body_steps b (1 + List.length a) _ F2) in H; [|intros ?; lia].
      rewrite F1, S2 in H. destruct H as [[]|H]; auto.
    + simpl. rewrite F1, S2. intros [].
  - cbn [snd]. intros H.
    apply (@parse_body_steps (l :: ls) 0 st0 eq_refl) in H.
    + destruct H as [[]|H]; auto.
    + intros _. apply eqb_neq. exact E.
Qed.

End ParseLoop.

(** ** The map of the identified tasks of a note *)

Lemma in_set (V : Type) (k k' : str) (v v' : V) (m : JsMap.t V) :
  In (k, v) (JsMap.set k' v' m) -> (k = k' /\ v = v') \/ In (k, v) m.
Proof.
  induction m as [|[k2 v2] m IH]; simpl.
  - intros [H|[]]. inversion H; auto.
  - destruct (Js.eqb k' k2) eqn:E; simpl.
    + apply eqb_eq in E. subst k2. intros [H|H]; auto.
      inversion H; auto.
    + intros [H|H]; auto. destruct (IH H); auto.
Qed.

Lemma keys_set (V : Type) (k : str) (v : V) (m : JsMap.t V) :
  map fst (JsMap.set k v m)
  = if JsMap.has k m then map fst m else map fst m ++ [k].
Proof.
  unfold JsMap.has. induction m as [|[k2 v2] m IH]; simpl; auto.
  destruct (Js.eqb k k2) eqn:E; simpl; auto.
  rewrite IH. destruct (JsMap.get k m); reflexivity.
Qed.

Lemma has_keys (V : Type) (k : str) (m : JsMap.t V) :
  JsMap.has k m = true <-> In k (map fst m).
Proof.
  unfold JsMap.has. induction m as [|[k2 v2] m IH]; simpl.
  - split; [discriminate|tauto].
  - destruct (Js.eqb k k2) eqn:E.
    + apply eqb_eq in E. subst. tauto.
    + apply eqb_neq in E. rewrite IH. split; auto.
      intros [H|H]; auto. congruence.
Qed.

Lemma nodup_set (V : Type) (k : str) (v : V) (m : JsMap.t V) :
  NoDup (map fst m) -> NoDup (map fst (JsMap.set k v m)).
Proof.
  intros N. rewrite keys_set. destruct (JsMap.has k m) eqn:H; auto.
  apply NoDup_app; auto.
  - repeat constructor. intros [].
  - intros x Hx [<-|[]]. apply has_keys in Hx. congruence.
Qed.

Lemma get_in (V : Type) (k : str) (v : V) (m : JsMap.t V) :
  JsMap.get k m = Some v -> In (k, v) m.
Proof.
  induction m as [|[k2 v2] m IH]; simpl; [discriminate|].
  destruct (Js.eqb k k2) eqn:E; auto.
  apply eqb_eq in E. subst. intros H; inversion H; auto.
Qed.

Lemma in_get (V : Type) (k : str) (v : V) (m : JsMap.t V) :
  NoDup (map fst m) -> In (k, v) m -> JsMap.get k m = Some v.
Proof.
  induction m as [|[k2 v2] m IH]; simpl; [tauto|].
  intros N [H|H].
  - inversion H; subst. rewrite eqb_refl. reflexivity.
  - inversion N as [|? ? Hn Hd]; subst. destruct (Js.eqb k k2) eqn:E; auto.
    apply eqb_eq in E. subst. exfalso. apply Hn.
    apply (in_map fst) in H. exact H.
Qed.

Lemma existingTaskMap_entries (ps : list ParsedTask) :
  NoDup (map fst (existingTaskMapOf ps))
  /\ forall g pt, In (g, pt) (existingTaskMapOf ps) ->
                  In pt ps /\ asanaGid pt = Some g.
Proof.
  unfold existingTaskMapOf.
  assert (G : forall m,
             NoDup (map fst m) ->
             (forall g pt, In (g, pt) m -> In pt ps /\ asanaGid pt = Some g) ->
             forall qs, (forall q, In q qs -> In q ps) ->
             NoDup (map fst (fold_left
               (fun m p => match asanaGid p with
                           | Some g => if Js.truthy g then JsMap.set g p m else m
                           | None => m
                           end) qs m))
             /\ forall g pt, In (g, pt) (fold_left
               (fun m p => match asanaGid p with
                           | Some g => if Js.truthy g then JsMap.set g p m else m
                           | None => m
                           end) qs m) ->
                  In pt ps /\ asanaGid pt = Some g).
  { intros m N I qs. revert m N I.
    induction qs as [|q qs IH]; intros m N I Q; simpl; auto.
    apply IH.
    - destruct (asanaGid q) as [g|]; auto.
      destruct (Js.truthy g); auto. apply nodup_set; auto.
    - intros g pt H. destruct (asanaGid q) as [g'|] eqn:E; auto.
      destruct (Js.truthy g'); auto.
      apply in_set in H. destruct H as [(-> & ->)|H]; auto.
      split; auto. apply Q. simpl; auto.
    - intros q' H. apply Q. simpl; auto. }
  apply G; auto.
  - constructor.
  - intros g pt [].
Qed.

(** ** What a run pushes *)

Lemma conflicts_in (m : JsMap.t AsanaTask) (entries : list (str * ParsedTask))
      (g : str) (v : bool) :
  In (g, v) (conflicts m entries) <->
  exists pt t, In (g, pt) entries /\ v = p_completed pt
               /\ JsMap.get g m = Some t /\ completed t = negb v.
Proof.
  unfold conflicts. rewrite in_flat_map. split.
  - intros ([g' pt] & I & H). simpl in H.
    destruct (JsMap.get g' m) as [t|] eqn:G; [|destruct H].
    destruct (Bool.eqb (p_completed pt) (completed t)) eqn:D; simpl in H;
      [destruct H|].
    destruct H as [H|[]]. inversion H; subst.
    exists pt, t. repeat split; auto.
    destruct (p_completed pt), (completed t); simpl in *; congruence.
  - intros (pt & t & I & -> & G & C). exists (g, pt). split; auto.
    simpl. rewrite G, C.
    destruct (p_completed pt); simpl; auto.
Qed.

Lemma pushes_are_conflicts (pushes : list Event) (cs : list (str * bool)) :
  map pushOf pushes = map Some cs ->
  (forall e, In e pushes ->
             exists g v ok, e = EvUpdate g v ok /\ In (g, v) cs)
  /\ (forall g v, In (g, v) cs -> exists ok, In (EvUpdate g v ok) pushes).
Proof.
  revert cs. induction pushes as [|e pushes IH]; intros [|c cs] H;
    simpl in H; try discriminate.
  - split; [intros e []|intros g v []].
  - inversion H as [[H0 H1]]. destruct (IH cs H1) as (I1 & I2).
    destruct e as [g v ok| | |]; try discriminate. simpl in H0.
    inversion H0; subst c. split.
    + intros e [<-|He].
      * exists g, v, ok. simpl; auto.
      * destruct (I1 e He) as (g' & v' & ok' & -> & Hin).
        exists g', v', ok'. simpl; auto.
    + intros g' v' [Hc|Hc].
      * inversion Hc; subst. exists ok. simpl; auto.
      * destruct (I2 g' v' Hc) as (ok' & Hin). exists ok'. simpl; auto.
Qed.

Lemma rewriteFm_keeps (stamp : str) (l : str) (ls : list str) :
  forall upd,
    In l ls -> Js.startsWith (Js.lit "asana_last_sync:") l = false ->
    In l (rewriteFm stamp upd ls).
Proof.
  induction ls as [|x ls IH]; intros upd I K; [destruct I|].
  destruct I as [->|H]; simpl.
  - rewrite K. destruct (Js.eqb l FENCE); [|simpl; auto].
    apply in_or_app. simpl; auto.
  - destruct (Js.eqb x FENCE).
    + apply in_or_app. right. simpl. right. apply IH; auto.
    + destruct (Js.startsWith (Js.lit "asana_last_sync:") x); simpl; right;
        apply IH; auto.
Qed.

Lemma startsWith_cons (a x : N) (p s : str) :
  Js.startsWith (a :: p) (x :: s) = N.eqb a x && Js.startsWith p s.
Proof. reflexivity. Qed.

Lemma task_line_not_stamp (l : str) (i : nat) (pt : ParsedTask) :
  parseTaskLine l i = Some pt ->
  Js.startsWith (Js.lit "asana_last_sync:") l = false.
Proof.
  intros P. apply parse_line_head in P.
  destruct P as (indent & rest & S & ->).
  destruct indent as [|x indent]; [reflexivity|].
  inversion S as [|? ? Hx _]; subst.
  change (Js.lit "asana_last_sync:") with (97%N :: Js.lit "sana_last_sync:").
  rewrite <- app_comm_cons, startsWith_cons.
  destruct (N.eqb_spec 97 x) as [<-|]; [discriminate Hx|reflexivity].
Qed.

(** A line without an identifier comment goes through the rewrite as it is,
    wherever it stands, unless it is a stamp line of the frontmatter. *)
Lemma plain_line_kept (settings : AsanaSyncSettings) (sp : SyncedProject)
      (stamp content : str) (refreshed : list AsanaTask) (ln : str) :
  In ln (Js.split_nl content) ->
  gidMatch ln = None ->
  Js.startsWith (Js.lit "asana_last_sync:") ln = false ->
  In ln (Js.split_nl (Js.join_nl (finalLines settings sp stamp content refreshed))).
Proof.
  intros I G K. apply split_join_In.
  2:{ apply (split_nl_no_newline content). exact I. }
  unfold finalLines. apply appendNewTasks_keeps. unfold rebuilt.
  destruct (rewrite_normal_form settings (taskMapOf refreshed) stamp
              (Js.split_nl content)) as (N & _).
  rewrite N. rewrite <- (splitFrontmatter_app (Js.split_nl content)) in I.
  apply in_app_or in I. apply in_or_app. destruct I as [I|I].
  - left. unfold rewriteFrontmatter.
    destruct (frontmatterOf (Js.split_nl content)) as [|l0 fm]; [destruct I|].
    destruct I as [<-|I]; simpl; auto. right. apply rewriteFm_keeps; auto.
  - right. apply in_flat_map. exists ln. split; auto.
    unfold rewriteBodyLine. rewrite G.
    destruct (Js.startsWith H2 ln); simpl; auto.
Qed.

(* ------------------------------------------------------------------ *)
(** ** Tasks without an identifier *)

Section Unidentified.

Context {Remote : Type} {RC : RemoteClient Remote}.

(** A task line without identifier comment is still there after a run. *)
Lemma plain_task_line_survives
      (settings : AsanaSyncSettings) (sp : SyncedProject)
      (w w2 : World Remote) (content : str) (stats : Stats)
      (ln : str) (i : nat) (pt : ParsedTask) :
  getAbstractFileByPath (notePath sp) (vault w) = Some (TFile content) ->
  syncProject settings sp w = (Some stats, w2) ->
  In ln (Js.split_nl content) ->
  parseTaskLine ln i = Some pt ->
  gidMatch ln = None ->
  exists newContent,
    getAbstractFileByPath (notePath sp) (vault w2) = Some (TFile newContent)
    /\ In ln (Js.split_nl newContent).
Proof.
  intros F R I P G.
  destruct (syncProject_outcome settings sp w F R)
    as (ts0 & ts1 & pushes & _ & _ & _ & _ & _ & _ & V).
  eexists. split; [exact V|].
  apply plain_line_kept; auto.
  apply (task_line_not_stamp _ _ P).
Qed.

(** C9, as amended: a line that parses as a task and holds no identifier
    comment is a line of the note after the run, and every completion update
    of the run stems from another line, one that parses to a task with the
    identifier that is updated. *)
Theorem unidentified_task_untouched
        (settings : AsanaSyncSettings) (sp : SyncedProject)
        (w w2 : World Remote) (content : str) (stats : Stats)
        (ln : str) (i : nat) (pt : ParsedTask) :
  getAbstractFileByPath (notePath sp) (vault w) = Some (TFile content) ->
  syncProject settings sp w = (Some stats, w2) ->
  In ln (Js.split_nl content) ->
  parseTaskLine ln i = Some pt ->
  gidMatch ln = None ->
  (exists pushes writes,
      events w2 = events w ++ pushes ++ writes
      /\ (forall e, In e writes -> exists c, e = EvModify (notePath sp) c)
      /\ forall e, In e pushes ->
           exists g v ok l' j pt',
             e = EvUpdate g v ok
             /\ In l' (bodyOf (Js.split_nl content))
             /\ parseTaskLine l' j = Some pt'
             /\ asanaGid pt' = Some g /\ p_completed pt' = v
             /\ l' <> ln)
  /\ exists newContent,
       getAbstractFileByPath (notePath sp) (vault w2) = Some (TFile newContent)
       /\ In ln (Js.split_nl newContent).
Proof.
  intros F R I P G.
  destruct (syncProject_outcome settings sp w F R)
    as (ts0 & ts1 & pushes & _ & _ & Pm & _ & _ & Ev & V).
  split.
  - exists pushes. eexists. split; [exact Ev|]. split.
    + intros e He. destruct (Js.eqb _ content); [destruct He|].
      destruct He as [<-|[]]. eauto.
    + intros e He. apply pushes_are_conflicts in Pm. destruct Pm as (Pm & _).
      destruct (Pm e He) as (g & v & ok & -> & Hc).
      apply conflicts_in in Hc. destruct Hc as (pt' & t & Hin & -> & _ & _).
      destruct (existingTaskMap_entries (tasks (parseNoteContent content)))
        as (_ & Hm).
      destruct (Hm g pt' Hin) as (Ht & Hg).
      apply tasks_from_body in Ht. destruct Ht as (l' & j & Hl & Hp).
      exists g, (p_completed pt'), ok, l', j, pt'. repeat split; auto.
      intros ->. destruct (parse_has_comment _ _ Hp Hg) as (g' & Hg').
      congruence.
  - exact (@plain_task_line_survives settings sp w w2 content stats ln i pt
             F R I P G).
Qed.

End Unidentified.

(** A line with an identifier comment that is not at its end parses as a
    task without identifier; the rewrite takes the comment for its
    identifier all the same and replaces the line. *)
Lemma task_with_inner_comment_replaced :
  let line := Js.lit "- [ ] a <!-- asana:1 --> b" in
  let w := Sample.world (Some line) [Sample.task "1" "One" false] "T0" in
  let w2 := snd (syncProject (Sample.settings "tok" true) Sample.proj w) in
  option_map asanaGid (parseTaskLine line 0) = Some None
  /\ Sample.noteOf w2 = Some (TFile (Js.lit "- [ ] One <!-- asana:1 -->"))
  /\ ~ In line (Js.split_nl (Js.lit "- [ ] One <!-- asana:1 -->")).
Proof.
  repeat split; try (vm_compute; reflexivity).
  vm_compute. intros [H|[]]. discriminate.
Qed.

Lemma unidentified_task_untouched_witness :
  let content := Js.lit "- [x] mine
- [x] Draft <!-- asana:111 -->" in
  let ln := Js.lit "- [x] mine" in
  let w := Sample.world (Some content) [Sample.task "111" "Draft" false] "T0" in
  let r := syncProject (Sample.settings "tok" true) Sample.proj w in
  (exists pushes writes,
      events (snd r) = events w ++ pushes ++ writes
      /\ (forall e, In e writes -> exists c, e = EvModify (notePath Sample.proj) c)
      /\ forall e, In e pushes ->
           exists g v ok l' j pt',
             e = EvUpdate g v ok
             /\ In l' (bodyOf (Js.split_nl content))
             /\ parseTaskLine l' j = Some pt'
             /\ asanaGid pt' = Some g /\ p_completed pt' = v
             /\ l' <> ln)
  /\ exists newContent,
       getAbstractFileByPath (notePath Sample.proj) (vault (snd r))
       = Some (TFile newContent)
       /\ In ln (Js.split_nl newContent).
Proof.
  intros content ln w r.
  apply unidentified_task_untouched
    with (settings := Sample.settings "tok" true) (w := w) (content := content)
         (stats := {| added := 0; updated := 1; completionChanges := 1 |})
         (i := 0)
         (pt := {| line := ln; lineNumber := 0; p_completed := true;
                   p_name := Js.lit "mine"; asanaGid := None;
                   dueDate := None; p_assignee := None |}).
  - reflexivity.
  - vm_compute. reflexivity.
  - vm_compute. auto.
  - vm_compute. reflexivity.
  - vm_compute. reflexivity.
Defined.

(* ------------------------------------------------------------------ *)
(** ** The fate of one body line *)



Lemma updatesFor_app (g : str) (a b : list Event) :
  updatesFor g (a ++ b) = updatesFor g a ++ updatesFor g b.
Proof. apply filter_app. Qed.

Lemma format_checkbox (t : AsanaTask) (sd sa : bool) :
  exists rest,
    formatTaskLine t sd sa
    = (if completed t then Js.lit "- [x] " else Js.lit "- [ ] ") ++ rest.
Proof.
  unfold formatTaskLine.
  set (tail := Js.lit " <!-- asana:" ++ gid t ++ Js.lit " -->").
  destruct (due_on t) as [d|];
    [destruct (sd && Js.truthy d)|];
    (destruct (assignee t) as [a|];
     [destruct (sa && Js.truthy (ref_name a))|]);
    destruct (completed t); eexists; simpl;
    rewrite <- ?app_assoc; simpl; reflexivity.
Qed.

Section LineFate.

Context {Remote : Type} {RC : RemoteClient Remote}.

(** After a run, the note is the rewritten frontmatter, then what the
    rewrite makes of each body line in turn, with the new tasks put in. *)
Lemma note_after_run
      (settings : AsanaSyncSettings) (sp : SyncedProject)
      (w w2 : World Remote) (content : str) (stats : Stats)
      (refreshed : list AsanaTask) (pre post : list str) (ln : str) :
  getAbstractFileByPath (notePath sp) (vault w) = Some (TFile content) ->
  syncProject settings sp w = (Some stats, w2) ->
  fetched (asanaAccessToken settings) sp (remote w2) = Some refreshed ->
  bodyOf (Js.split_nl content) = pre ++ ln :: post ->
  let f := rewriteBodyLine settings (taskMapOf refreshed) in
  exists news,
    (forall t, In t news ->
               In t refreshed /\ carried ln <> Some (gid t)
               /\ (showCompletedTasks settings = false -> completed t = false))
    /\ getAbstractFileByPath (notePath sp) (vault w2)
       = Some (TFile (Js.join_nl
           (appendNewTasks settings sp news
              (rewriteFrontmatter (now w) (frontmatterOf (Js.split_nl content))
               ++ flat_map f pre ++ f ln ++ flat_map f post)))).
Proof.
  intros F R T B f.
  destruct (syncProject_outcome settings sp w F R)
    as (ts0 & ts1 & pushes & _ & T1 & _ & _ & _ & _ & V).
  rewrite T in T1. inversion T1; subst ts1. clear T1.
  destruct (rewrite_normal_form settings (taskMapOf refreshed) (now w)
              (Js.split_nl content)) as (N & Sn & _).
  exists (newTasksOf settings
            (seenGids (rebuilt settings sp (now w) content refreshed)) refreshed).
  split.
  - intros t Ht. unfold newTasksOf in Ht. apply filter_In in Ht.
    destruct Ht as (Ht & C). apply andb_true_iff in C. destruct C as (C1 & C2).
    repeat split; auto.
    + intros Hc. apply negb_true_iff in C1.
      assert (S : set_has (gid t)
                    (seenGids (rebuilt settings sp (now w) content refreshed))
                  = true).
      { apply Sn. exists ln. rewrite B. split; auto.
        apply in_or_app. simpl; auto. }
      congruence.
    + intros Hs. rewrite Hs in C2. simpl in C2.
      apply negb_true_iff in C2. exact C2.
  - rewrite V. unfold finalLines, rebuilt. rewrite N, B.
    rewrite flat_map_app. simpl. reflexivity.
Qed.

End LineFate.

(* ------------------------------------------------------------------ *)
(** ** Conflict arbitration and the hide-completed filter *)

Section Arbitration.

Context {Remote : Type} {RC : RemoteClient Remote}.

Variables (settings : AsanaSyncSettings) (sp : SyncedProject).

Let token := asanaAccessToken settings.

(** The updates of a run for one identifier: the pushes of step 1. *)
Lemma updates_of_run (w w2 : World Remote) (content : str) (stats : Stats)
      (ts0 : list AsanaTask) :
  getAbstractFileByPath (notePath sp) (vault w) = Some (TFile content) ->
  syncProject settings sp w = (Some stats, w2) ->
  fetched token sp (remote w) = Some ts0 ->
  exists pushes writes,
    events w2 = events w ++ pushes ++ writes
    /\ (forall e, In e writes -> exists c, e = EvModify (notePath sp) c)
    /\ completionChanges stats = List.length (filter isOk pushes)
    /\ map pushOf pushes
       = map Some (conflicts (taskMapOf ts0)
                     (existingTaskMapOf (tasks (parseNoteContent content)))).
Proof.
  intros F R T.
  destruct (syncProject_outcome settings sp w F R)
    as (ts0' & ts1 & pushes & T0 & _ & Pm & St & _ & Ev & _).
  fold token in T0. rewrite T in T0. inversion T0; subst ts0'.
  exists pushes. eexists. split; [exact Ev|]. repeat split; auto.
  - intros e He. destruct (Js.eqb _ content); [destruct He|].
    destruct He as [<-|[]]. eauto.
  - rewrite St. reflexivity.
Qed.


(** C7, as amended: with completed tasks hidden, a body line whose
    identifier the refreshed list reports completed leaves no line in the
    note, and no line for that task is put in; the only updates the run
    issues for the task are the pushes of step 1, the completion state of
    the note where it differs from what was fetched first. *)
Theorem hidden_completed_line_dropped
        (w w2 : World Remote) (content : str) (stats : Stats)
        (ts0 refreshed : list AsanaTask) (g : str) (t : AsanaTask)
        (pre post : list str) (ln : str) :
  getAbstractFileByPath (notePath sp) (vault w) = Some (TFile content) ->
  syncProject settings sp w = (Some stats, w2) ->
  fetched token sp (remote w) = Some ts0 ->
  fetched token sp (remote w2) = Some refreshed ->
  showCompletedTasks settings = false ->
  bodyOf (Js.split_nl content) = pre ++ ln :: post ->
  carried ln = Some g ->
  JsMap.get g (taskMapOf refreshed) = Some t ->
  completed t = true ->
  let f := rewriteBodyLine settings (taskMapOf refreshed) in
  (exists news,
      (forall t', In t' news -> gid t' <> g /\ completed t' = false)
      /\ getAbstractFileByPath (notePath sp) (vault w2)
         = Some (TFile (Js.join_nl
             (appendNewTasks settings sp news
                (rewriteFrontmatter (now w) (frontmatterOf (Js.split_nl content))
                 ++ flat_map f pre ++ flat_map f post)))))
  /\ exists pushes writes,
       events w2 = events w ++ pushes ++ writes
       /\ (forall e, In e writes -> exists c, e = EvModify (notePath sp) c)
       /\ forall v ok, In (EvUpdate g v ok) pushes ->
            exists pt t0,
              JsMap.get g (existingTaskMapOf (tasks (parseNoteContent content)))
              = Some pt
              /\ p_completed pt = v
              /\ JsMap.get g (taskMapOf ts0) = Some t0
              /\ completed t0 = negb v.
Proof.
  intros F R T T1 Hs B Cr G C f. split.
  - destruct (@note_after_run _ _ settings sp w w2 content stats refreshed
              pre post ln F R T1 B) as (news & Hn & V).
    exists news. split.
    + intros t' Ht. destruct (Hn t' Ht) as (_ & H1 & H2). split; auto.
      intros E. apply H1. rewrite E. exact Cr.
    + assert (E : rewriteBodyLine settings (taskMapOf refreshed) ln = []).
      { unfold rewriteBodyLine. unfold carried in Cr.
        destruct (Js.startsWith H2 ln); [discriminate|].
        rewrite Cr, G, C, Hs. reflexivity. }
      rewrite V, E. reflexivity.
  - destruct (updates_of_run w F R T) as (pushes & writes & Ev & Wr & _ & Pm).
    exists pushes, writes. repeat split; auto.
    intros v ok He. apply pushes_are_conflicts in Pm. destruct Pm as (Pm & _).
    destruct (Pm _ He) as (g' & v' & ok' & E & Hc). inversion E; subst g' v' ok'.
    apply conflicts_in in Hc. destruct Hc as (pt & t0 & Hin & -> & G0 & C0).
    destruct (existingTaskMap_entries (tasks (parseNoteContent content)))
      as (Nd & _).
    exists pt, t0. repeat split; auto. apply in_get; auto.
Qed.

End Arbitration.


(** With completed tasks hidden, the run that removes the line of a task
    may be the one that completes it on the remote side. *)
Lemma hidden_line_pushed_first :
  let content := Js.lit "- [ ] Keep <!-- asana:1 -->
- [x] Done <!-- asana:2 -->" in
  let w := Sample.world (Some content)
             [Sample.task "1" "Keep" false; Sample.task "2" "Done" false] "T0" in
  let r := syncProject (Sample.settings "tok" false) Sample.proj w in
  map completed (remote w) = [false; false]
  /\ map completed (remote (snd r)) = [false; true]
  /\ Sample.noteOf (snd r) = Some (TFile (Js.lit "- [ ] Keep <!-- asana:1 -->"))
  /\ In (EvUpdate (Js.lit "2") true true) (events (snd r)).
Proof. repeat split; vm_compute; auto. Qed.


Lemma hidden_completed_line_dropped_witness :
  let content := Js.lit "- [ ] Keep <!-- asana:1 -->
- [x] Done <!-- asana:2 -->" in
  let settings := Sample.settings "tok" false in
  let ts0 := [Sample.task "1" "Keep" false; Sample.task "2" "Done" true] in
  let w := Sample.world (Some content) ts0 "T0" in
  let r := syncProject settings Sample.proj w in
  let f := rewriteBodyLine settings (taskMapOf ts0) in
  (exists news,
      (forall t', In t' news -> gid t' <> Js.lit "2" /\ completed t' = false)
      /\ getAbstractFileByPath (notePath Sample.proj) (vault (snd r))
         = Some (TFile (Js.join_nl
             (appendNewTasks settings Sample.proj news
                (rewriteFrontmatter (now w) (frontmatterOf (Js.split_nl content))
                 ++ flat_map f [Js.lit "- [ ] Keep <!-- asana:1 -->"]
                 ++ flat_map f [])))))
  /\ exists pushes writes,
       events (snd r) = events w ++ pushes ++ writes
       /\ (forall e, In e writes -> exists c, e = EvModify (notePath Sample.proj) c)
       /\ forall v ok, In (EvUpdate (Js.lit "2") v ok) pushes ->
            exists pt t0,
              JsMap.get (Js.lit "2")
                (existingTaskMapOf (tasks (parseNoteContent content))) = Some pt
              /\ p_completed pt = v
              /\ JsMap.get (Js.lit "2") (taskMapOf ts0) = Some t0
              /\ completed t0 = negb v.
Proof.
  intros content settings ts0 w r f.
  exact (@hidden_completed_line_dropped (list AsanaTask) ListRemote.client
           settings Sample.proj w (snd r) content
           {| added := 0; updated := 1; completionChanges := 0 |}
           ts0 ts0 (Js.lit "2") (Sample.task "2" "Done" true)
           [Js.lit "- [ ] Keep <!-- asana:1 -->"] []
           (Js.lit "- [x] Done <!-- asana:2 -->")
           eq_refl eq_refl eq_refl eq_refl eq_refl eq_refl eq_refl eq_refl
           eq_refl).
Defined.

(* ------------------------------------------------------------------ *)
(** ** Checkbox lines are task lines, markers in order or not *)

Lemma span_unique (p : N -> bool) (a b r s : str) (x y : N) :
  Forall (fun c => p c = true) a -> Forall (fun c => p c = true) b ->
  p x = false -> p y = false ->
  a ++ x :: r = b ++ y :: s ->
  a = b /\ x = y /\ r = s.
Proof.
  intros Fa. revert b. induction Fa as [|c a Pc Fa IH]; intros b Fb Px Py E.
  - destruct Fb as [|d b Pd Fb]; simpl in E.
    + inversion E; auto.
    + inversion E; subst. congruence.
  - destruct Fb as [|d b Pd Fb]; simpl in E.
    + inversion E; subst. congruence.
    + inversion E as [[Ed Er]]; subst.
      destruct (IH b Fb Px Py Er) as (-> & -> & ->). auto.
Qed.

Section Checkbox.

Context {Remote : Type} {RC : RemoteClient Remote}.

(** C6, as amended: a checkbox line -- white space, [- [], a flag, [] ], then
    at least one character and no line terminator -- always parses as a task,
    whatever markers stand in it and in whatever order.  The completion is
    the one its box shows, and the other fields are those of a cut of the
    text after the box into a title, an optional due date, an optional
    assignee, an optional identifier comment -- in this order -- and white
    space: a marker that does not stand in its place of this order is text
    of the title or of the assignee name.  The run keeps such a line as it
    is when it holds no identifier comment. *)
Theorem checkbox_line_is_task
        (indent : str) (flag : N) (body : str) (i : nat) :
  spaces indent ->
  is_flag flag = true ->
  body <> [] ->
  dots body ->
  (exists pt p,
      parseTaskLine (checkboxLine indent flag body) i = Some pt
      /\ p_completed pt = negb (N.eqb flag 32)
      /\ partsOk p
      /\ lp_indent p = indent /\ lp_flag p = flag
      /\ body = lp_title p ++ dueText (lp_due p)
                ++ assigneeText (lp_assignee p) ++ gidText (lp_gid p)
                ++ lp_trail p
      /\ pt = taskOfParts p (checkboxLine indent flag body) i)
  /\ forall (settings : AsanaSyncSettings) (sp : SyncedProject)
            (w w2 : World Remote) (content : str) (stats : Stats),
       getAbstractFileByPath (notePath sp) (vault w) = Some (TFile content) ->
       syncProject settings sp w = (Some stats, w2) ->
       In (checkboxLine indent flag body) (Js.split_nl content) ->
       gidMatch (checkboxLine indent flag body) = None ->
       exists newContent,
         getAbstractFileByPath (notePath sp) (vault w2) = Some (TFile newContent)
         /\ In (checkboxLine indent flag body) (Js.split_nl newContent).
Proof.
  intros Si Hf Nb Db.
  destruct (@task_regex_accepts indent flag body Si Hf Nb Db) as (m & M).
  assert (P : exists pt, parseTaskLine (checkboxLine indent flag body) i = Some pt)
    by (unfold parseTaskLine; rewrite M; eexists; reflexivity).
  destruct P as (pt & Pt). split.
  - pose proof Pt as Inv. apply parse_inv in Inv.
    destruct Inv as (p & Ok & El & Et).
    exists pt, p.
    unfold checkboxLine, lineText in El.
    change (Js.lit "- [") with (45%N :: Js.lit " [") in El.
    change DASH_BOX with (45%N :: Js.lit " [") in El.
    rewrite <- !app_comm_cons in El.
    pose proof Ok as (Sp & _).
    apply (span_unique Js.is_space) in El; auto.
    destruct El as (Ei & _ & El). simpl in El.
    injection El as Ef Eb.
    split; [exact Pt|]. split.
    { rewrite Et. unfold taskOfParts. cbn [p_completed]. rewrite Ef.
      reflexivity. }
    split; [exact Ok|]. split; [symmetry; exact Ei|].
    split; [symmetry; exact Ef|]. split; [exact Eb|exact Et].
  - intros settings sp w w2 content stats F R I G.
    exact (@plain_task_line_survives _ _ settings sp w w2 content stats
             _ i pt F R I Pt G).
Qed.

End Checkbox.

(** The markers out of order: the assignee before the due date, and the
    identifier before the due date.  Both lines parse; the second one is
    rewritten from the remote task. *)
Lemma markers_out_of_order_still_parse :
  let l1 := Js.lit "- [ ] Task " ++ BUST ++ Js.lit " Bob " ++ CALENDAR
            ++ Js.lit " 2024-01-15" in
  let l2 := Js.lit "- [ ] Task <!-- asana:1 --> " ++ CALENDAR
            ++ Js.lit " 2024-01-15" in
  let w := Sample.world (Some l2) [Sample.task "1" "Task" false] "T0" in
  let w2 := snd (syncProject (Sample.settings "tok" true) Sample.proj w) in
  option_map p_name (parseTaskLine l1 0) = Some (Js.lit "Task")
  /\ option_map p_assignee (parseTaskLine l1 0)
     = Some (Some (Js.lit "Bob " ++ CALENDAR ++ Js.lit " 2024-01-15"))
  /\ option_map p_name (parseTaskLine l2 0)
     = Some (Js.lit "Task <!-- asana:1 -->")
  /\ Sample.noteOf w2 = Some (TFile (Js.lit "- [ ] Task <!-- asana:1 -->"))
  /\ ~ In l2 (Js.split_nl (Js.lit "- [ ] Task <!-- asana:1 -->")).
Proof.
  repeat split; try (vm_compute; reflexivity).
  vm_compute. intros [H|[]]. discriminate.
Qed.

Lemma checkbox_line_is_task_witness :
  let body := Js.lit "Task " ++ BUST ++ Js.lit " Bob " ++ CALENDAR
              ++ Js.lit " 2024-01-15" in
  (exists pt p,
      parseTaskLine (checkboxLine [] 32%N body) 0 = Some pt
      /\ p_completed pt = negb (N.eqb 32 32)
      /\ partsOk p
      /\ lp_indent p = [] /\ lp_flag p = 32%N
      /\ body = lp_title p ++ dueText (lp_due p)
                ++ assigneeText (lp_assignee p) ++ gidText (lp_gid p)
                ++ lp_trail p
      /\ pt = taskOfParts p (checkboxLine [] 32%N body) 0)
  /\ forall (settings : AsanaSyncSettings) (sp : SyncedProject)
            (w w2 : World (list AsanaTask)) (content : str) (stats : Stats),
       getAbstractFileByPath (notePath sp) (vault w) = Some (TFile content) ->
       syncProject settings sp w = (Some stats, w2) ->
       In (checkboxLine [] 32%N body) (Js.split_nl content) ->
       gidMatch (checkboxLine [] 32%N body) = None ->
       exists newContent,
         getAbstractFileByPath (notePath sp) (vault w2) = Some (TFile newContent)
         /\ In (checkboxLine [] 32%N body) (Js.split_nl newContent).
Proof.
  intros body.
  apply (@checkbox_line_is_task (list AsanaTask) ListRemote.client [] 32%N body 0).
  - constructor.
  - reflexivity.
  - discriminate.
  - unfold dots, body. repeat constructor.
Defined.

(* ------------------------------------------------------------------ *)
(** ** Bootstrap *)

Section Bootstrap.

Context {Remote : Type} {RC : RemoteClient Remote}.

Lemma lastSlash_lt (s : str) :
  forall i acc, s <> [] -> acc < i + List.length s ->
                lastSlash s i acc < i + List.length s.
Proof.
  induction s as [|c s IH]; intros i acc N H; [congruence|].
  simpl. destruct s as [|d s].
  - simpl in *. destruct (c =? 47)%N; lia.
  - replace (i + S (List.length (d :: s))) with (S i + List.length (d :: s))
      by (simpl; lia).
    apply IH; [discriminate|]. simpl in *. destruct (c =? 47)%N; lia.
Qed.

Lemma folderOf_proper (path : str) :
  Js.truthy (folderOf path) = true -> folderOf path <> path.
Proof.
  intros T E. destruct path as [|c path]; [discriminate T|].
  pose proof (@lastSlash_lt (c :: path) 0 0 ltac:(discriminate) ltac:(simpl; lia))
    as L.
  apply (f_equal (@List.length N)) in E. unfold folderOf in E.
  rewrite length_firstn in E. simpl in L, E. lia.
Qed.

(** When the note does not exist, the run creates it and stops: nothing is
    pushed, nothing fetched again, and [added] is the number of fetched
    tasks. *)
Lemma bootstrap_run (settings : AsanaSyncSettings) (sp : SyncedProject)
      (w : World Remote) (ts : list AsanaTask) :
  getAbstractFileByPath (notePath sp) (vault w) = None ->
  fetched (asanaAccessToken settings) sp (remote w) = Some ts ->
  exists w' folder,
    syncProject settings sp w
    = (Some {| added := List.length ts; updated := 0; completionChanges := 0 |},
       w')
    /\ remote w' = remote w
    /\ events w'
       = events w ++ folder
         ++ [EvCreate (notePath sp)
               (generateNoteContent (projectName sp) (projectGid sp)
                  (isMyTasks sp) ts (showDueDates settings)
                  (showAssignees settings) (showCompletedTasks settings)
                  (now w))]
    /\ (folder = [] \/ folder = [EvCreateFolder (folderOf (notePath sp))]).
Proof.
  intros F T. unfold syncProject. unfold bind at 1.
  rewrite fetchTasks_run, T. unfold bind at 1. unfold getWorld at 1. rewrite F.
  destruct (Js.truthy (folderOf (notePath sp))) eqn:Tr.
  - destruct (getAbstractFileByPath (folderOf (notePath sp)) (vault w)) eqn:Fo.
    + eexists. exists []. unfold bind, ret, vaultCreate, bind, getWorld. cbn.
      rewrite F. cbn. repeat split; auto.
    + eexists. exists [EvCreateFolder (folderOf (notePath sp))].
      unfold bind, ret, vaultCreateFolder, vaultCreate, bind, getWorld,
        setVault, emit. cbn.
      assert (Ne : Js.eqb (notePath sp) (folderOf (notePath sp)) = false).
      { apply eqb_neq. intros E. symmetry in E. revert E.
        apply folderOf_proper. exact Tr. }
      rewrite Ne, F. cbn. rewrite <- app_assoc. repeat split; auto.
  - eexists. exists []. unfold bind, ret, vaultCreate, bind, getWorld. cbn.
    rewrite F. cbn. repeat split; auto.
Qed.

End Bootstrap.

(** C5: the count that bootstrap returns ignores the hide filter.  One
    completed task, completed tasks hidden: the new note shows no task, the
    run reports one added. *)
Theorem bootstrap_counts_hidden_tasks :
  let fetched := [Sample.task "111" "Draft" true] in
  let settings := Sample.settings "tok" false in
  let w := Sample.world None fetched "T0" in
  let r := syncProject settings Sample.proj w in
  List.length (filter (fun t => negb (completed t)) fetched) = 0
  /\ fst r = Some {| added := 1; updated := 0; completionChanges := 0 |}
  /\ Sample.noteOf (snd r)
     = Some (TFile (Js.join_nl
          [FENCE; Js.lit "asana_project_gid: " ++ [34%N] ++ Js.lit "P" ++ [34%N];
           Js.lit "asana_is_my_tasks: false"; lastSyncLine (Js.lit "T0");
           FENCE; []; Js.lit "# Proj"; []])).
Proof. repeat split; vm_compute; reflexivity. Qed.

(* ------------------------------------------------------------------ *)
(** ** The codec round trip *)

Section RoundTrip.

Import Re ReFacts.

Lemma format_is_lineText (t : AsanaTask) (sd sa : bool) :
  formatTaskLine t sd sa = lineText (partsOfTask t sd sa).
Proof.
  unfold formatTaskLine, lineText, partsOfTask. cbn [lp_indent lp_flag lp_title
    lp_due lp_assignee lp_gid lp_trail].
  destruct (due_on t) as [d|]; [destruct (sd && Js.truthy d)|];
    (destruct (assignee t) as [a|];
     [destruct (sa && Js.truthy (ref_name a))|]);
    destruct (completed t);
    unfold dueText, assigneeText, gidText, commentText;
    rewrite <- ?app_assoc; simpl; rewrite ?app_nil_r; reflexivity.
Qed.

Lemma trimStart_split (s : str) :
  exists ws, spaces ws /\ s = ws ++ Js.trimStart s
             /\ match Js.trimStart s with
                | [] => True
                | x :: _ => Js.is_space x = false
                end.
Proof.
  induction s as [|c s IH].
  - exists []. repeat split; auto. constructor.
  - simpl. destruct (Js.is_space c) eqn:E.
    + destruct IH as (ws & S & Es & H). exists (c :: ws).
      repeat split; auto.
      * constructor; auto.
      * simpl. rewrite <- Es. reflexivity.
    + exists []. repeat split; auto. constructor.
Qed.

Lemma trimStart_id (s : str) :
  match s with [] => True | x :: _ => Js.is_space x = false end ->
  Js.trimStart s = s.
Proof. destruct s as [|x s]; simpl; auto. intros ->. reflexivity. Qed.

Lemma trimmed_spec (s : str) :
  trimmed s = true ->
  exists x r, s = x :: r /\ Js.is_space x = false
              /\ Js.is_space (last s 0%N) = false.
Proof.
  unfold trimmed. destruct s as [|x r]; [discriminate|].
  rewrite andb_true_iff, !negb_true_iff. intros (H1 & H2). eauto.
Qed.

Lemma trim_trimmed (s : str) : trimmed s = true -> Js.trim s = s.
Proof.
  intros T. destruct (trimmed_spec s T) as (x & r & -> & Hx & Hl).
  unfold Js.trim, Js.trimEnd.
  rewrite (trimStart_id (x :: r)) by exact Hx.
  rewrite trimStart_id, rev_involutive; auto.
  destruct (rev (x :: r)) as [|y q] eqn:E; auto.
  assert (L : last (x :: r) 0%N = y).
  { rewrite <- (rev_involutive (x :: r)), E. simpl. apply last_last. }
  rewrite <- L. exact Hl.
Qed.

Lemma last_app_nonempty (a b : str) : b <> [] -> last (a ++ b) 0%N = last b 0%N.
Proof.
  intros N. destruct (exists_last N) as (b' & y & ->).
  rewrite app_assoc, !last_last. reflexivity.
Qed.

Lemma spaces_last (s : str) : s <> [] -> spaces s -> Js.is_space (last s 0%N) = true.
Proof.
  intros N S. destruct (exists_last N) as (s' & y & ->).
  rewrite last_last. unfold spaces in S. rewrite Forall_app in S.
  destruct S as (_ & S). inversion S; auto.
Qed.

Lemma startsWith_spec (m s : str) :
  Js.startsWith m s = true <-> exists r, s = m ++ r.
Proof.
  revert s; induction m as [|a m IH]; intros s.
  - split; [intros _; exists s; reflexivity | reflexivity].
  - destruct s as [|x s].
    + split; [discriminate|]. intros (r & H). discriminate.
    + rewrite startsWith_cons, andb_true_iff, N.eqb_eq, IH. split.
      * intros (-> & r & ->). exists r. reflexivity.
      * intros (r & H). inversion H; subst. split; [reflexivity|]. exists r. reflexivity.
Qed.

(** A marker that holds no space and starts inside [v] ends inside [v] when a
    space follows. *)
Lemma startsWith_before_space (m v rest : str) :
  ~ In 32%N m ->
  Js.startsWith m (v ++ 32%N :: rest) = true ->
  Js.startsWith m v = true.
Proof.
  revert v; induction m as [|a m IH]; intros v N H; [reflexivity|].
  destruct v as [|x v].
  - simpl in H. rewrite startsWith_cons, andb_true_iff, N.eqb_eq in H.
    destruct H as (-> & _). exfalso. apply N. simpl; auto.
  - simpl in H. rewrite startsWith_cons in *.
    apply andb_true_iff in H. destruct H as (H1 & H2).
    rewrite H1. simpl. apply IH; auto. intros I. apply N. simpl; auto.
Qed.

Lemma contains_suffix (m v1 v2 : str) :
  contains m (v1 ++ v2) = false -> Js.startsWith m v2 = false.
Proof.
  induction v1 as [|x v1 IH]; simpl; intros H.
  - destruct v2; simpl in H; apply orb_false_iff in H; tauto.
  - apply orb_false_iff in H. destruct H as (_ & H). auto.
Qed.

(** A text that starts, after white space, with a marker without space
    cannot begin in the middle of a clean field that a space follows. *)
Lemma no_marker_inside (m field v1 v2 rest w r : str) :
  trimmed field = true ->
  contains m field = false ->
  ~ In 32%N m -> m <> [] ->
  Js.is_space (hd 0%N m) = false ->
  field = v1 ++ v2 -> v2 <> [] ->
  spaces w ->
  v2 ++ 32%N :: rest = w ++ m ++ r ->
  False.
Proof.
  intros T C N Nm Hm E Nv Sw Eq.
  destruct (trimmed_spec field T) as (x0 & r0 & _ & _ & Hl).
  rewrite E, (last_app_nonempty v1 Nv) in Hl.
  destruct (trimStart_split v2) as (ws & Sws & Ev & Hv).
  destruct (Js.trimStart v2) as [|y v'] eqn:Et.
  { rewrite app_nil_r in Ev. subst ws.
    rewrite (spaces_last Nv Sws) in Hl. discriminate. }
  destruct m as [|a m]; [congruence|]. simpl in Hm.
  rewrite Ev in Eq. rewrite <- app_assoc in Eq. simpl in Eq.
  apply (span_unique Js.is_space) in Eq; auto.
  destruct Eq as (_ & <- & Er).
  assert (S : Js.startsWith (y :: m) ((y :: v') ++ 32%N :: rest) = true).
  { apply startsWith_spec. exists r. simpl. rewrite Er. reflexivity. }
  apply startsWith_before_space in S; auto.
  rewrite E, Ev in C. rewrite app_assoc in C.
  apply contains_suffix in C. congruence.
Qed.

Lemma after_assignee_lead (input u s' : str) (c c' : captures) :
  matches input AFTER_ASSIGNEE u s' c c' ->
  s' = [] /\ (spaces u \/ exists w r, spaces w /\ u = w ++ COMMENT_OPEN ++ r).
Proof.
  unfold AFTER_ASSIGNEE. intros M.
  apply seq_inv in M. destruct M as (og & u1 & c1 & -> & OG & M).
  apply seq_inv in M. destruct M as (tr & u2 & c2 & -> & ST & M).
  apply eol_inv in M. destruct M as (-> & -> & ->).
  apply starG_inv in ST. destruct ST as (St & ->).
  split; auto. rewrite app_nil_r.
  apply opt_inv in OG. destruct OG as [OG|(-> & ->)].
  - apply gid_part_inv in OG.
    destruct OG as (w0 & w1 & g & w2 & -> & S0 & _).
    right. exists w0. eexists. split; auto.
    unfold gidText, commentText. rewrite <- !app_assoc. reflexivity.
  - left. exact St.
Qed.

Lemma after_title_lead (input u s' : str) (c c' : captures) :
  matches input AFTER_TITLE u s' c c' ->
  s' = [] /\ (spaces u
              \/ exists w m r, spaces w /\ u = w ++ m ++ r
                               /\ (m = CALENDAR \/ m = BUST \/ m = COMMENT_OPEN)).
Proof.
  unfold AFTER_TITLE. intros M.
  apply seq_inv in M. destruct M as (od & u1 & c1 & -> & OD & M).
  apply seq_inv in M. destruct M as (oa & u2 & c2 & -> & OA & M).
  apply after_assignee_lead in M. destruct M as (-> & L).
  split; auto.
  apply opt_inv in OD. destruct OD as [OD|(-> & ->)].
  { apply due_part_inv in OD. destruct OD as (w1 & w2 & d & -> & S1 & _).
    right. exists w1, CALENDAR. eexists. split; auto. split; auto.
    unfold dueText. rewrite <- !app_assoc. reflexivity. }
  apply opt_inv in OA. destruct OA as [OA|(-> & ->)].
  { apply assignee_part_inv in OA.
    destruct OA as (w1 & w2 & a & -> & S1 & _).
    right. exists w1, BUST. eexists. split; auto. split; auto.
    unfold assigneeText. simpl. rewrite <- !app_assoc. reflexivity. }
  simpl. destruct L as [L|(w & r & Sw & ->)]; auto.
  right. exists w, COMMENT_OPEN, r. auto.
Qed.

Lemma spaces_not_trimmed_suffix (field v1 v2 rest : str) :
  trimmed field = true -> field = v1 ++ v2 -> v2 <> [] ->
  ~ spaces (v2 ++ rest).
Proof.
  intros T E Nv S.
  destruct (trimmed_spec field T) as (x0 & r0 & _ & _ & Hl).
  rewrite E, (last_app_nonempty v1 Nv) in Hl.
  unfold spaces in S. rewrite Forall_app in S. destruct S as (S & _).
  rewrite (spaces_last Nv S) in Hl. discriminate.
Qed.

(** The title group cannot stop inside a clean title. *)
Lemma refuses_after_title (input title v1 v2 rest : str) (c : captures) :
  wf_title title = true ->
  title = v1 ++ v2 -> v2 <> [] ->
  refuses input AFTER_TITLE (v2 ++ 32%N :: rest) c.
Proof.
  unfold wf_title. rewrite !andb_true_iff, !negb_true_iff.
  intros ((((T & _) & C1) & C2) & C3) E Nv.
  apply refuses_intro. intros u s' c' Eq M.
  apply after_title_lead in M. destruct M as (-> & L).
  rewrite app_nil_r in Eq. subst u.
  destruct L as [L|(w & m & r & Sw & Eq & Hm)].
  - exact (@spaces_not_trimmed_suffix _ _ _ _ T E Nv L).
  - destruct Hm as [->|[->| ->]];
      refine (@no_marker_inside _ title v1 v2 rest w r T _ _ _ _ E Nv Sw Eq);
      auto; try discriminate; try reflexivity;
      simpl; intuition discriminate.
Qed.

(** Nor can the assignee group stop inside a clean name. *)
Lemma refuses_after_assignee (input a v1 v2 rest : str) (c : captures) :
  wf_assignee a = true ->
  a = v1 ++ v2 -> v2 <> [] ->
  refuses input AFTER_ASSIGNEE (v2 ++ 32%N :: rest) c.
Proof.
  unfold wf_assignee. rewrite !andb_true_iff, !negb_true_iff.
  intros ((T & _) & C3) E Nv.
  apply refuses_intro. intros u s' c' Eq M.
  apply after_assignee_lead in M. destruct M as (-> & L).
  rewrite app_nil_r in Eq. subst u.
  destruct L as [L|(w & r & Sw & Eq)].
  - exact (@spaces_not_trimmed_suffix _ _ _ _ T E Nv L).
  - refine (@no_marker_inside _ a v1 v2 rest w r T _ _ _ _ E Nv Sw Eq);
      auto; try discriminate; try reflexivity;
      simpl; intuition discriminate.
Qed.

(** A part is refused where the text goes on with another marker. *)
Lemma refuses_due (input rest : str) (c : captures) (x y : N) :
  (x, y) <> (55357%N, 56517%N) -> Js.is_space x = false ->
  refuses input DUE_PART (32%N :: x :: y :: rest) c.
Proof.
  intros Ne Hx. apply refuses_intro. intros u s' c' Eq M.
  apply due_part_inv in M. destruct M as (w1 & w2 & d & -> & S1 & _).
  unfold dueText, CALENDAR in Eq. rewrite <- !app_assoc in Eq. simpl in Eq.
  change (32%N :: x :: y :: rest) with ([32%N] ++ x :: y :: rest) in Eq.
  apply (span_unique Js.is_space) in Eq; auto; try (repeat constructor; fail).
  destruct Eq as (_ & -> & Eq). inversion Eq; subst. congruence.
Qed.

Lemma refuses_assignee (input rest : str) (c : captures) (x y : N) :
  (x, y) <> (55357%N, 56420%N) -> Js.is_space x = false ->
  refuses input ASSIGNEE_PART (32%N :: x :: y :: rest) c.
Proof.
  intros Ne Hx. apply refuses_intro. intros u s' c' Eq M.
  apply assignee_part_inv in M. destruct M as (w1 & w2 & a & -> & S1 & _).
  unfold assigneeText, BUST in Eq. rewrite <- !app_assoc in Eq. simpl in Eq.
  change (32%N :: x :: y :: rest) with ([32%N] ++ x :: y :: rest) in Eq.
  apply (span_unique Js.is_space) in Eq; auto; try (repeat constructor; fail).
  destruct Eq as (_ & -> & Eq). inversion Eq; subst. congruence.
Qed.

Lemma is_date_digits (d : str) :
  is_date d = true ->
  exists y1 y2 y3 y4 m1 m2 d1 d2,
    d = [y1; y2; y3; y4; 45%N; m1; m2; 45%N; d1; d2]
    /\ Forall (fun x => Js.is_digit x = true) [y1; y2; y3; y4; m1; m2; d1; d2].
Proof.
  unfold is_date.
  destruct d as [|y1 [|y2 [|y3 [|y4 [|h1 [|m1 [|m2 [|h2 [|d1 [|d2 [|? ?]]]]]]]]]]];
    try discriminate.
  rewrite !andb_true_iff, !N.eqb_eq.
  intros (((((((((H1 & H2) & H3) & H4) & ->) & H5) & H6) & ->) & H7) & H8).
  exists y1, y2, y3, y4, m1, m2, d1, d2. split; auto.
  repeat constructor; auto.
Qed.

Lemma digit_not_space (x : N) : Js.is_digit x = true -> Js.is_space x = false.
Proof.
  unfold Js.is_digit, Js.is_space. rewrite andb_true_iff, !N.leb_le.
  intros (H1 & H2).
  repeat match goal with
         | |- context [(?a <=? ?b)%N] =>
             destruct (N.leb_spec a b); try lia
         | |- context [(?a =? ?b)%N] =>
             destruct (N.eqb_spec a b); try lia
         end; reflexivity.
Qed.

Lemma forces_date (input d rest : str) (c : captures) :
  is_date d = true -> forces input DATE d rest c c.
Proof.
  intros D. destruct (is_date_digits d D)
    as (y1 & y2 & y3 & y4 & m1 & m2 & d1 & d2 & -> & F).
  repeat match goal with
         | H : Forall _ (_ :: _) |- _ => inversion H; subst; clear H
         end.
  unfold DATE. cbn [Seqs Rep Lit].
  intros k r K. simpl.
  repeat match goal with
         | H : Js.is_digit _ = true |- _ => rewrite H; clear H
         end.
  exact K.
Qed.

Lemma forces_due (input d rest : str) (c : captures) :
  is_date d = true ->
  forces input DUE_PART (dueText (Some ([32%N], [32%N], d))) rest c ((5, d) :: c).
Proof.
  intros D. unfold DUE_PART, dueText. cbn [Seqs].
  eapply forces_seq.
  { apply forces_starG; [repeat constructor|reflexivity]. }
  eapply forces_seq; [apply forces_lit|].
  eapply forces_seq.
  { apply forces_starG; [repeat constructor|].
    destruct (is_date_digits d D) as (y1 & ? & ? & ? & ? & ? & ? & ? & -> & F).
    simpl. apply digit_not_space. inversion F; auto. }
  apply forces_group. apply forces_date. exact D.
Qed.

Lemma wf_gid_spec (g : str) :
  wf_gid g = true ->
  exists x u, g = x :: u /\ Js.is_word x = true
              /\ Forall (fun y => Js.is_word y = true) u.
Proof.
  unfold wf_gid. destruct g as [|x u]; [discriminate|]. simpl.
  rewrite andb_true_iff, forallb_forall. intros (Hx & Hu).
  exists x, u. repeat split; auto. apply Forall_forall. exact Hu.
Qed.

Lemma forces_gid (input g rest : str) (c : captures) :
  wf_gid g = true ->
  forces input GID_PART (gidText (Some ([32%N], [32%N], g, [32%N]))) rest c
         ((7, g) :: c).
Proof.
  intros W. destruct (wf_gid_spec g W) as (x & u & -> & Hx & Hu).
  unfold GID_PART, GID_COMMENT, gidText, commentText, PlusG. cbn [Seqs].
  eapply forces_seq.
  { apply forces_starG; [repeat constructor|reflexivity]. }
  eapply forces_seq; [apply forces_lit|].
  eapply forces_seq.
  { apply forces_starG; [repeat constructor|reflexivity]. }
  eapply forces_seq; [apply forces_lit|].
  eapply forces_seq.
  { apply forces_group.
    eapply (@forces_seq input (Chr Js.is_word) (StarG Js.is_word) [x] u).
    - apply forces_chr. exact Hx.
    - apply forces_starG; [exact Hu|reflexivity]. }
  eapply forces_seq.
  { apply forces_starG; [repeat constructor|reflexivity]. }
  apply forces_lit.
Qed.

Lemma exec_after_assignee (input g : str) (c : captures) :
  wf_gid g = true ->
  exec input AFTER_ASSIGNEE (gidText (Some ([32%N], [32%N], g, [32%N]))) c accept
  = Some ((7, g) :: c).
Proof.
  intros W. unfold AFTER_ASSIGNEE.
  apply peel_opt_in.
  rewrite <- (app_nil_r (gidText _)).
  apply (@forces_gid input g [] c W). reflexivity.
Qed.

Lemma wf_assignee_spec (a : str) :
  wf_assignee a = true ->
  exists x u, a = x :: u /\ Js.is_space x = false /\ Js.is_dot x = true
              /\ Forall (fun y => Js.is_dot y = true) u.
Proof.
  unfold wf_assignee. rewrite !andb_true_iff. intros ((T & D) & _).
  destruct (trimmed_spec a T) as (x & u & -> & Hx & _).
  simpl in D. apply andb_true_iff in D. destruct D as (Dx & Du).
  exists x, u. repeat split; auto.
  apply Forall_forall. apply forallb_forall. exact Du.
Qed.

Lemma exec_assignee_on (input a g : str) (c : captures) :
  wf_assignee a = true -> wf_gid g = true ->
  exec input (Seq (Opt ASSIGNEE_PART) AFTER_ASSIGNEE)
       (assigneeText (Some ([32%N], [32%N], a))
        ++ gidText (Some ([32%N], [32%N], g, [32%N]))) c accept
  = Some ((7, g) :: (6, a) :: c).
Proof.
  intros Wa Wg. destruct (wf_assignee_spec a Wa) as (x & u & -> & Sx & Dx & Du).
  apply peel_opt_in.
  unfold ASSIGNEE_PART, assigneeText. cbn [Seqs]. rewrite <- !app_assoc.
  apply peel with (c' := c).
  { apply forces_starG; [repeat constructor|reflexivity]. }
  apply peel with (c' := c); [apply forces_lit|].
  apply peel with (c' := c).
  { apply forces_starG; [repeat constructor|exact Sx]. }
  apply exec_lazy_group; auto.
  - intros v1 v2 c' E Nv. unfold gidText. cbn [app].
    apply (@refuses_after_assignee input (x :: u) (x :: v1) v2); auto.
    rewrite E. reflexivity.
  - apply exec_after_assignee. exact Wg.
Qed.

Lemma exec_assignee_off (input g : str) (c : captures) :
  wf_gid g = true ->
  exec input (Seq (Opt ASSIGNEE_PART) AFTER_ASSIGNEE)
       (gidText (Some ([32%N], [32%N], g, [32%N]))) c accept
  = Some ((7, g) :: c).
Proof.
  intros Wg. apply peel_opt_out.
  - unfold gidText, commentText, COMMENT_OPEN. cbn [app].
    apply refuses_assignee; [discriminate|reflexivity].
  - apply exec_after_assignee. exact Wg.
Qed.

Lemma wfTask_spec (t : AsanaTask) :
  wfTask t = true ->
  wf_title (name t) = true /\ wf_gid (gid t) = true
  /\ (forall d, due_on t = Some d -> is_date d = true /\ Js.truthy d = true)
  /\ (forall a, assignee t = Some a ->
                wf_assignee (ref_name a) = true
                /\ Js.truthy (ref_name a) = true).
Proof.
  unfold wfTask. rewrite !andb_true_iff. intros (((Wt & Wg) & Wd) & Wa).
  repeat split; auto.
  - rewrite H in Wd. exact Wd.
  - rewrite H in Wd. destruct d; [discriminate Wd|reflexivity].
  - rewrite H in Wa. exact Wa.
  - rewrite H in Wa. destruct (wf_assignee_spec _ Wa) as (x & u & -> & _).
    reflexivity.
Qed.

(** After the title of a formatted line the matcher takes the parts that
    are there. *)
Lemma exec_after_title (input : str) (t : AsanaTask) (sd sa : bool)
      (c : captures) :
  wfTask t = true ->
  let p := partsOfTask t sd sa in
  exec input AFTER_TITLE
       (dueText (lp_due p) ++ assigneeText (lp_assignee p)
        ++ gidText (lp_gid p)) c accept
  = Some (partCaptures p ++ c).
Proof.
  intros W p. destruct (wfTask_spec t W) as (Wt & Wg & Wd & Wa).
  unfold AFTER_TITLE, partCaptures. subst p. unfold partsOfTask.
  cbn [lp_due lp_assignee lp_gid].
  assert (A : forall c0,
             exec input (Seq (Opt ASSIGNEE_PART) AFTER_ASSIGNEE)
               (assigneeText
                  match assignee t with
                  | Some a => if sa && Js.truthy (ref_name a)
                              then Some ([32%N], [32%N], ref_name a) else None
                  | None => None
                  end
                ++ gidText (Some ([32%N], [32%N], gid t, [32%N]))) c0 accept
             = Some ([(7, gid t)]
                     ++ match
                          match assignee t with
                          | Some a => if sa && Js.truthy (ref_name a)
                                      then Some ([32%N], [32%N], ref_name a)
                                      else None
                          | None => None
                          end
                        with Some (_, _, a) => [(6, a)] | None => [] end
                     ++ c0)).
  { intros c0. destruct (assignee t) as [a|] eqn:Ea.
    - destruct (Wa a eq_refl) as (Wn & Tn). rewrite Tn, andb_true_r.
      destruct sa.
      + apply exec_assignee_on; auto.
      + apply exec_assignee_off; auto.
    - apply exec_assignee_off; auto. }
  destruct (due_on t) as [d|] eqn:Ed.
  - destruct (Wd d eq_refl) as (Dd & Td). rewrite Td, andb_true_r.
    destruct sd.
    + apply peel_opt_in.
      apply (@forces_due input d _ c Dd). rewrite A.
      rewrite <- !app_assoc. reflexivity.
    + apply peel_opt_out; [|rewrite A, app_nil_r; reflexivity].
      destruct (assignee t) as [a|]; [destruct (sa && Js.truthy (ref_name a))|];
        cbn; apply refuses_due; try discriminate; reflexivity.
  - apply peel_opt_out; [|rewrite A, app_nil_r; reflexivity].
    destruct (assignee t) as [a|]; [destruct (sa && Js.truthy (ref_name a))|];
      cbn; apply refuses_due; try discriminate; reflexivity.
Qed.

Lemma wf_title_spec (n : str) :
  wf_title n = true ->
  trimmed n = true
  /\ exists x u, n = x :: u /\ Js.is_dot x = true
                 /\ Forall (fun y => Js.is_dot y = true) u.
Proof.
  unfold wf_title. rewrite !andb_true_iff. intros ((((T & D) & _) & _) & _).
  split; auto.
  destruct (trimmed_spec n T) as (x & u & -> & _).
  simpl in D. apply andb_true_iff in D. destruct D as (Dx & Du).
  exists x, u. repeat split; auto.
  apply Forall_forall. apply forallb_forall. exact Du.
Qed.

(** The pattern behind [^] on a formatted line. *)
Lemma exec_formatted_body (input : str) (t : AsanaTask) (sd sa : bool) :
  wfTask t = true ->
  let p := partsOfTask t sd sa in
  exec input
       (Seq (Group 1 (Seq (StarG Js.is_space) (Lit (Js.lit "- ["))))
          (Seq (Group 2 (Chr is_flag))
             (Seq (Group 3 (Lit (Js.lit "] ")))
                (Seq (Group 4 (PlusL Js.is_dot)) AFTER_TITLE))))
       (lineText p) [] accept
  = Some (partCaptures p
          ++ [(4, name t); (3, BOX_END); (2, [lp_flag p]); (1, DASH_BOX)]).
Proof.
  intros W p. destruct (wfTask_spec t W) as (Wt & _).
  destruct (wf_title_spec _ Wt) as (_ & x & u & En & Dx & Du).
  unfold lineText. subst p. cbn [partsOfTask lp_indent lp_flag lp_title
                                  lp_trail app].
  set (flag := if completed t then 120%N else 32%N).
  apply peel with (c' := [(1, DASH_BOX)]).
  { apply forces_group.
    eapply (@forces_seq _ _ _ [] DASH_BOX);
      [apply forces_starG; [constructor|reflexivity] | apply forces_lit]. }
  apply (@peel input _ _ [flag] _ _ [(2, [flag]); (1, DASH_BOX)]).
  { apply forces_group. apply forces_chr. unfold flag.
    destruct (completed t); reflexivity. }
  apply peel with (c' := [(3, BOX_END); (2, [flag]); (1, DASH_BOX)]).
  { apply forces_group. apply forces_lit. }
  rewrite app_nil_r, En.
  match goal with
  | |- exec ?i (Seq ?a ?b) ?s ?c ?k = _ =>
      change (exec i a s c (fun s1 c1 => exec i b s1 c1 k) =
              Some (partCaptures (partsOfTask t sd sa)
                    ++ [(4, x :: u); (3, BOX_END); (2, [flag]);
                        (1, DASH_BOX)]))
  end.
  apply exec_lazy_group; auto.
  - intros v1 v2 c' E Nv.
    assert (S : exists rest,
               dueText (lp_due (partsOfTask t sd sa))
               ++ assigneeText (lp_assignee (partsOfTask t sd sa))
               ++ gidText (lp_gid (partsOfTask t sd sa)) = 32%N :: rest).
    { unfold partsOfTask. cbn [lp_due lp_assignee lp_gid].
      destruct (due_on t) as [d|]; [destruct (sd && Js.truthy d)|];
        (destruct (assignee t) as [a|];
         [destruct (sa && Js.truthy (ref_name a))|]);
        cbn; eauto. }
    destruct S as (rest & ->).
    apply (@refuses_after_title _ (name t) (x :: v1) v2); auto.
    rewrite En, E. reflexivity.
  - rewrite <- En. apply (@exec_after_title _ t sd sa _ W).
Qed.

(** The whole pattern on a formatted line. *)
Lemma exec_formatted (t : AsanaTask) (sd sa : bool) :
  wfTask t = true ->
  let p := partsOfTask t sd sa in
  exec (lineText p) TASK_LINE_REGEX (lineText p) [] accept
  = Some (partCaptures p
          ++ [(4, name t); (3, BOX_END); (2, [lp_flag p]); (1, DASH_BOX)]).
Proof.
  intros W p.
  unfold TASK_LINE_REGEX. cbn [Seqs].
  apply (@peel (lineText p) _ _ [] (lineText p) [] []).
  { apply forces_bol. reflexivity. }
  apply (@exec_formatted_body (lineText p) t sd sa W).
Qed.

End RoundTrip.

(** The captures the matcher makes on a formatted line. *)
Lemma search_formatted (t : AsanaTask) (showDue showAssignee : bool) :
  wfTask t = true ->
  Re.search_from (formatTaskLine t showDue showAssignee)
    TASK_LINE_REGEX (formatTaskLine t showDue showAssignee)
  = Some (partCaptures (partsOfTask t showDue showAssignee)
          ++ [(4, name t); (3, BOX_END);
              (2, [lp_flag (partsOfTask t showDue showAssignee)]);
              (1, DASH_BOX)]).
Proof.
  intros W. pose proof (@exec_formatted t showDue showAssignee W) as E.
  cbv zeta in E. rewrite <- format_is_lineText in E.
  unfold accept in E.
  destruct (formatTaskLine t showDue showAssignee); simpl;
    simpl in E; rewrite E; reflexivity.
Qed.

(** The identifier and the completion flag come back from a formatted
    line. *)
Lemma parse_formatted_id
      (t : AsanaTask) (showDue showAssignee : bool) (i : nat)
      (pt : ParsedTask) :
  wfTask t = true ->
  parseTaskLine (formatTaskLine t showDue showAssignee) i = Some pt ->
  asanaGid pt = Some (gid t) /\ p_completed pt = completed t.
Proof.
  intros W P.
  destruct (wfTask_spec t W) as (_ & Wg & _).
  destruct (wf_gid_spec _ Wg) as (g0 & gs & Eg & _).
  unfold parseTaskLine, Re.match_ in P.
  rewrite (@search_formatted t showDue showAssignee W) in P.
  inversion P; subst pt; clear P. cbn [asanaGid p_completed].
  unfold partCaptures, partsOfTask. cbn [lp_due lp_assignee lp_gid lp_flag].
  split.
  - cbn [app Re.cap_get Nat.eqb or_null]. rewrite Eg. reflexivity.
  - destruct (due_on t) as [d|]; [destruct (showDue && Js.truthy d)|];
      (destruct (assignee t) as [a|];
       [destruct (showAssignee && Js.truthy (ref_name a))|]);
      destruct (completed t); reflexivity.
Qed.

(** C2, as amended: for a task whose title is clean (not empty, no white
    space at its ends, no line terminator, none of the two markers and no
    comment opener in it), whose identifier is a non-empty word, whose due
    date is a calendar date and whose assignee name is clean as well,
    parsing the formatted line gives back the title, the completion flag and
    the identifier, and the due date and the assignee name exactly when the
    matching display option is on (none otherwise). *)
Theorem format_parse_roundtrip
        (t : AsanaTask) (showDue showAssignee : bool) (i : nat) :
  wfTask t = true ->
  parseTaskLine (formatTaskLine t showDue showAssignee) i
  = Some {| line := formatTaskLine t showDue showAssignee;
            lineNumber := i;
            p_completed := completed t;
            p_name := name t;
            asanaGid := Some (gid t);
            dueDate := if showDue then due_on t else None;
            p_assignee := if showAssignee
                          then option_map ref_name (assignee t) else None |}.
Proof.
  intros W.
  destruct (wfTask_spec t W) as (Wt & Wg & Wd & Wa).
  destruct (wf_title_spec _ Wt) as (Tt & _).
  destruct (wf_gid_spec _ Wg) as (g0 & gs & Eg & _).
  unfold parseTaskLine, Re.match_.
  rewrite (@search_formatted t showDue showAssignee W).
  unfold partCaptures, partsOfTask.
  cbn [lp_due lp_assignee lp_gid lp_flag].
  f_equal.
  destruct (due_on t) as [d|] eqn:Ed;
    [destruct (Wd d eq_refl) as (Dd & Td); rewrite Td, andb_true_r|];
    (destruct (assignee t) as [a|] eqn:Ea;
     [destruct (Wa a eq_refl) as (Wn & Tn); rewrite Tn, andb_true_r;
      assert (Ta : Js.trim (ref_name a) = ref_name a)
        by (apply trim_trimmed; unfold wf_assignee in Wn;
            rewrite !andb_true_iff in Wn; tauto)|]);
    destruct showDue, showAssignee, (completed t);
    cbn [app Re.cap_get Nat.eqb option_map or_null];
    rewrite ?Ta, ?Tn, ?Td, (trim_trimmed _ Tt), Eg; reflexivity.
Qed.

(** With due dates switched off the formatted line holds no date, and the
    parsed task has none. *)
Lemma hidden_due_date_not_recovered :
  let t := {| gid := Js.lit "111"; name := Js.lit "Draft"; completed := false;
              due_on := Some (Js.lit "2024-01-15"); assignee := None;
              permalink_url := []; notes := []; memberships := [] |} in
  formatTaskLine t false true = Js.lit "- [ ] Draft <!-- asana:111 -->"
  /\ option_map dueDate (parseTaskLine (formatTaskLine t false true) 0)
     = Some None
  /\ due_on t = Some (Js.lit "2024-01-15").
Proof. repeat split; vm_compute; reflexivity. Qed.

(** A title that holds a due-date marker loses it to the due date, even with
    both options on. *)
Lemma title_with_marker_not_recovered :
  let t := {| gid := Js.lit "7";
              name := Js.lit "Ship " ++ CALENDAR ++ Js.lit " 2024-01-15";
              completed := false; due_on := None; assignee := None;
              permalink_url := []; notes := []; memberships := [] |} in
  option_map p_name (parseTaskLine (formatTaskLine t true true) 0)
  = Some (Js.lit "Ship")
  /\ option_map dueDate (parseTaskLine (formatTaskLine t true true) 0)
     = Some (Some (Js.lit "2024-01-15")).
Proof. repeat split; vm_compute; reflexivity. Qed.

Lemma format_parse_roundtrip_witness :
  let t := {| gid := Js.lit "111"; name := Js.lit "Design the homepage";
              completed := true; due_on := Some (Js.lit "2025-01-20");
              assignee := Some {| ref_gid := Js.lit "9";
                                  ref_name := Js.lit "Alice" |};
              permalink_url := []; notes := []; memberships := [] |} in
  parseTaskLine (formatTaskLine t true true) 3
  = Some {| line := formatTaskLine t true true;
            lineNumber := 3;
            p_completed := true;
            p_name := Js.lit "Design the homepage";
            asanaGid := Some (Js.lit "111");
            dueDate := Some (Js.lit "2025-01-20");
            p_assignee := Some (Js.lit "Alice") |}.
Proof.
  intros t. apply (@format_parse_roundtrip t true true 3). reflexivity.
Defined.

(* ------------------------------------------------------------------ *)
(** ** Where new tasks are put *)

Section Placement.

Variable settings : AsanaSyncSettings.

Let fmt (t : AsanaTask) : str :=
  formatTaskLine t (showDueDates settings) (showAssignees settings).

Lemma fmt_notHeading (t : AsanaTask) : notHeading (fmt t).
Proof.
  unfold notHeading, fmt.
  destruct (format_checkbox t (showDueDates settings) (showAssignees settings))
    as (rest & ->).
  destruct (completed t); reflexivity.
Qed.

Lemma splice_app_r (A : Type) (j : nat) (b a c : list A) :
  List.length a <= j ->
  splice j b (a ++ c) = a ++ splice (j - List.length a) b c.
Proof.
  intros H. unfold splice.
  rewrite firstn_app, skipn_app.
  rewrite firstn_all2, skipn_all2 by lia. simpl.
  rewrite <- !app_assoc. reflexivity.
Qed.

Lemma in_firstn_skipn (A : Type) (j : nat) (l : list A) (x : A) :
  In x (firstn j l) \/ In x (skipn j l) -> In x l.
Proof.
  intros H. rewrite <- (firstn_skipn j l). apply in_or_app. exact H.
Qed.

End Placement.

Lemma groupBySection_member (pg : str) (ts : list AsanaTask) (t : AsanaTask) :
  In t ts ->
  exists l, In (sectionNameOf pg t, l) (groupBySection pg ts) /\ In t l.
Proof.
  unfold groupBySection.
  set (f := fun (m : JsMap.t (list AsanaTask)) (task : AsanaTask) =>
              let sectionName := sectionNameOf pg task in
              let m0 := if JsMap.has sectionName m then m
                        else JsMap.set sectionName [] m in
              match JsMap.get sectionName m0 with
              | Some l => JsMap.set sectionName (l ++ [task]) m0
              | None => m0
              end).
  assert (Step : forall m task,
             exists old,
               JsMap.get (sectionNameOf pg task) (f m task) = Some (old ++ [task])
               /\ (forall l, JsMap.get (sectionNameOf pg task) m = Some l -> old = l)
               /\ forall k, k <> sectionNameOf pg task ->
                            JsMap.get k (f m task) = JsMap.get k m).
  { intros m task. unfold f. cbv zeta. unfold JsMap.has.
    destruct (JsMap.get (sectionNameOf pg task) m) as [l|] eqn:G.
    - rewrite G. exists l. repeat split.
      + apply get_set_same.
      + intros l' E. congruence.
      + intros k N. apply get_set_other. exact N.
    - rewrite get_set_same. exists []. repeat split.
      + apply get_set_same.
      + intros l' E. discriminate.
      + intros k N. rewrite !get_set_other by exact N. reflexivity. }
  assert (Inv : forall rest m,
             (forall q, In q rest \/
                        (exists l, JsMap.get (sectionNameOf pg q) m = Some l
                                   /\ In q l) ->
                        exists l, JsMap.get (sectionNameOf pg q)
                                    (fold_left f rest m) = Some l /\ In q l)).
  { induction rest as [|task rest IH]; intros m q H; simpl.
    - destruct H as [[]|H]; exact H.
    - apply IH. destruct (Step m task) as (old & G1 & G2 & G3).
      destruct H as [[->|H]|(l & G & I)].
      + right. exists (old ++ [q]). split; auto.
        apply in_or_app. simpl; auto.
      + left. exact H.
      + right. destruct (Js.str_eq_dec (sectionNameOf pg q)
                           (sectionNameOf pg task)) as [E|N].
        * rewrite E in *. rewrite (G2 l G) in G1.
          exists (l ++ [task]). split; auto. apply in_or_app. auto.
        * exists l. rewrite (G3 _ N). auto. }
  intros I. destruct (Inv ts [] t (or_introl I)) as (l & G & Il).
  exists l. split; auto. apply get_in. exact G.
Qed.

Section PlacementTheorem.

Variables (settings : AsanaSyncSettings) (sp : SyncedProject).

Lemma placeGroups_keep (groups : list (str * list AsanaTask)) (l : str) :
  forall lines, In l lines ->
                In l (fold_left (placeGroup settings) groups lines).
Proof.
  induction groups as [|e groups IH]; simpl; auto.
  intros lines H. apply IH. apply placeGroup_keeps. exact H.
Qed.

End PlacementTheorem.

(* ------------------------------------------------------------------ *)
(** ** The identifier of a formatted line *)

Section FormattedGid.

Import Re ReFacts.

Lemma search_skip (input : str) (r : regex) (pre rest : str) :
  (forall v1 v2, pre = v1 ++ v2 -> v2 <> [] ->
                 exec input r (v2 ++ rest) [] accept = None) ->
  search_from input r (pre ++ rest) = search_from input r rest.
Proof.
  induction pre as [|x pre IH]; intros H; auto.
  simpl. pose proof (H [] (x :: pre) eq_refl ltac:(discriminate)) as E.
  simpl in E. unfold accept in E. rewrite E.
  apply IH. intros v1 v2 -> Nv. apply (H (x :: v1) v2); auto.
Qed.

Lemma contains_nil_r (m : str) : m <> [] -> contains m [] = false.
Proof. destruct m; [congruence|reflexivity]. Qed.

Lemma startsWith_app_l (m v w : str) :
  Js.startsWith m v = true -> Js.startsWith m (v ++ w) = true.
Proof.
  intros H. apply startsWith_spec in H. destruct H as (r & ->).
  apply startsWith_spec. exists (r ++ w). rewrite app_assoc. reflexivity.
Qed.

Lemma contains_true (m v1 v2 : str) :
  Js.startsWith m v2 = true -> contains m (v1 ++ v2) = true.
Proof.
  induction v1 as [|x v1 IH]; intros H; simpl.
  - destruct v2; simpl; rewrite H; reflexivity.
  - rewrite IH by exact H. apply orb_true_r.
Qed.

(** Fields that do not hold the marker, joined by spaces, do not hold it
    either, as long as the marker itself holds no space. *)
Lemma contains_app_space (m a b : str) :
  m <> [] -> ~ In 32%N m ->
  contains m a = false -> contains m b = false ->
  contains m (a ++ 32%N :: b) = false.
Proof.
  intros Nm N Ha Hb. induction a as [|x a IH].
  - simpl. rewrite Hb, orb_false_r.
    destruct m as [|y m]; [congruence|]. rewrite startsWith_cons.
    destruct (N.eqb_spec y 32) as [->|]; [|reflexivity].
    exfalso. apply N. simpl; auto.
  - simpl in *. apply orb_false_iff in Ha. destruct Ha as (H1 & H2).
    rewrite (IH H2), orb_false_r.
    destruct (Js.startsWith m (x :: a ++ 32%N :: b)) eqn:E; auto.
    apply (@startsWith_before_space m (x :: a) b N) in E. congruence.
Qed.

Lemma contains_without (m s : str) (a : N) :
  hd a m = a -> m <> [] -> ~ In a s -> contains m s = false.
Proof.
  intros Hm Nm N. destruct m as [|y m]; [congruence|]. simpl in Hm. subst y.
  induction s as [|x s IH]; [reflexivity|].
  simpl. rewrite IH by (intros I; apply N; simpl; auto).
  rewrite startsWith_cons.
  destruct (N.eqb_spec a x) as [->|]; [|reflexivity].
  exfalso. apply N. simpl; auto.
Qed.

Lemma date_no_bracket (d : str) : is_date d = true -> ~ In 60%N d.
Proof.
  intros D. destruct (is_date_digits d D)
    as (y1 & y2 & y3 & y4 & m1 & m2 & d1 & d2 & -> & F).
  rewrite Forall_forall in F. intros I.
  assert (Dg : Js.is_digit 60 = true).
  { simpl in I.
    repeat (destruct I as [I|I]; [try discriminate; subst; apply F; simpl; auto 10|]).
    destruct I. }
  discriminate.
Qed.

Lemma format_split (t : AsanaTask) (sd sa : bool) :
  formatTaskLine t sd sa
  = (beforeComment t sd sa ++ [32%N])
    ++ commentText [32%N] (gid t) [32%N].
Proof.
  rewrite format_is_lineText. unfold lineText, beforeComment.
  cbn [partsOfTask lp_indent lp_flag lp_title lp_due lp_assignee lp_gid
       lp_trail gidText].
  rewrite app_nil_r, <- !app_assoc. reflexivity.
Qed.

Lemma contains_spaced (m a X : str) :
  m <> [] -> ~ In 32%N m ->
  contains m a = false ->
  X = [] \/ (exists b, X = 32%N :: b /\ contains m b = false) ->
  contains m (a ++ X) = false.
Proof.
  intros Nm N Ha [->|(b & -> & Hb)].
  - rewrite app_nil_r. exact Ha.
  - apply contains_app_space; auto.
Qed.

Lemma before_comment_clean (t : AsanaTask) (sd sa : bool) :
  wfTask t = true ->
  contains COMMENT_OPEN (beforeComment t sd sa) = false.
Proof.
  intros W. destruct (wfTask_spec t W) as (Wt & Wg & Wd & Wa).
  assert (Ct : contains COMMENT_OPEN (name t) = false).
  { unfold wf_title in Wt. rewrite !andb_true_iff, !negb_true_iff in Wt. tauto. }
  assert (N32 : ~ In 32%N COMMENT_OPEN) by (simpl; intuition discriminate).
  assert (Nm : COMMENT_OPEN <> []) by discriminate.
  unfold beforeComment. cbn [partsOfTask lp_flag lp_title lp_due lp_assignee].
  set (flag := if completed t then 120%N else 32%N).
  set (A := assigneeText _). set (D := dueText _).
  assert (SA : A = [] \/ exists b, A = 32%N :: b
                                   /\ contains COMMENT_OPEN b = false).
  { unfold A. destruct (assignee t) as [a|] eqn:Ea; [|left; reflexivity].
    destruct (sa && Js.truthy (ref_name a)); [|left; reflexivity].
    right. exists (BUST ++ 32%N :: ref_name a). split; [reflexivity|].
    apply contains_app_space; auto.
    destruct (Wa a eq_refl) as (Wn & _).
    unfold wf_assignee in Wn. rewrite !andb_true_iff, !negb_true_iff in Wn.
    tauto. }
  assert (SD : D ++ A = [] \/ exists b, D ++ A = 32%N :: b
                                        /\ contains COMMENT_OPEN b = false).
  { unfold D. destruct (due_on t) as [d|] eqn:Ed; [|exact SA].
    destruct (sd && Js.truthy d); [|exact SA].
    right. exists (CALENDAR ++ 32%N :: (d ++ A)). split.
    - unfold dueText. rewrite <- !app_assoc. reflexivity.
    - apply contains_app_space; auto.
      apply contains_spaced; auto.
      destruct (Wd d eq_refl) as (Dd & _).
      apply (@contains_without COMMENT_OPEN d 60%N); auto.
      apply date_no_bracket. exact Dd. }
  change (contains COMMENT_OPEN
            ([45%N] ++ 32%N :: ([91%N; flag; 93%N]
                                ++ 32%N :: (name t ++ D ++ A))) = false).
  apply contains_app_space; auto.
  apply contains_app_space; auto.
  - unfold flag. destruct (completed t); reflexivity.
  - apply contains_spaced; auto.
Qed.

(** On a formatted line of a clean task the first identifier comment is the
    one [formatTaskLine] wrote. *)
Theorem gidMatch_formatted (t : AsanaTask) (sd sa : bool) :
  wfTask t = true ->
  gidMatch (formatTaskLine t sd sa) = Some (gid t).
Proof.
  intros W. destruct (wfTask_spec t W) as (_ & Wg & _).
  pose proof (before_comment_clean t sd sa W) as C.
  unfold gidMatch, match_, ASANA_GID_REGEX.
  set (ln := formatTaskLine t sd sa).
  assert (Sr : search_from ln (GID_COMMENT 1) ln = Some [(1, gid t)]).
  { unfold ln at 2. rewrite format_split.
    rewrite search_skip.
    - assert (F : forces ln (GID_COMMENT 1)
                    (commentText [32%N] (gid t) [32%N]) [] [] [(1, gid t)]).
      { pose proof (@forces_gid ln (gid t) [] [] Wg) as Fg.
        unfold GID_PART, gidText in Fg.
        destruct (wf_gid_spec _ Wg) as (x & u & Eg & Hx & Hu).
        unfold GID_COMMENT, commentText, PlusG. cbn [Seqs]. rewrite Eg.
        eapply forces_seq; [apply forces_lit|].
        eapply forces_seq.
        { apply forces_starG; [repeat constructor|reflexivity]. }
        eapply forces_seq; [apply forces_lit|].
        eapply forces_seq.
        { apply forces_group.
          eapply (@forces_seq ln (Chr Js.is_word) (StarG Js.is_word) [x] u).
          - apply forces_chr. exact Hx.
          - apply forces_starG; [exact Hu|reflexivity]. }
        eapply forces_seq.
        { apply forces_starG; [repeat constructor|reflexivity]. }
        apply forces_lit. }
      specialize (F accept [(1, gid t)] eq_refl). rewrite app_nil_r in F.
      destruct (commentText [32%N] (gid t) [32%N]); simpl;
        simpl in F; unfold accept in F; rewrite F; reflexivity.
    - intros v1 v2 E Nv.
      destruct (exec ln (GID_COMMENT 1)
                  (v2 ++ commentText [32%N] (gid t) [32%N]) [] accept)
        as [m|] eqn:Ex; auto.
      exfalso. apply exec_sound in Ex.
      destruct Ex as (u & s' & c' & Eq & M & _).
      apply gid_comment_inv in M. destruct M as (w1 & g & w2 & -> & _).
      assert (S : Js.startsWith COMMENT_OPEN
                    (v2 ++ commentText [32%N] (gid t) [32%N]) = true).
      { apply startsWith_spec. eexists. rewrite Eq. unfold commentText.
        rewrite <- !app_assoc. reflexivity. }
      (* the occurrence starts in [v2], which ends with a space *)
      destruct (exists_last Nv) as (v2' & y & Ev2).
      assert (y = 32%N).
      { assert (L : last (beforeComment t sd sa ++ [32%N]) 0%N = 32%N)
          by apply last_last.
        rewrite E, Ev2, app_assoc, last_last in L. exact L. }
      subst y v2. rewrite <- app_assoc in S. simpl in S.
      apply startsWith_before_space in S;
        [|simpl; intuition discriminate].
      destruct (exists_last (l := beforeComment t sd sa ++ [32%N])
                  ltac:(intros X; apply app_eq_nil in X; destruct X; discriminate))
        as (b' & z & Eb).
      assert (Hb : beforeComment t sd sa = v1 ++ v2').
      { rewrite app_assoc in E. apply app_inj_tail in E. tauto. }
      rewrite Hb in C.
      rewrite (@contains_true COMMENT_OPEN v1 v2' S) in C. discriminate. }
  rewrite Sr. reflexivity.
Qed.

End FormattedGid.

(* ------------------------------------------------------------------ *)
(** ** Helper facts for a second pass over a synced note *)

Lemma join_split (s : str) : Js.join_nl (Js.split_nl s) = s.
Proof.
  induction s as [|c s IH]; simpl; auto.
  pose proof (split_nl_nonempty s) as Ne.
  destruct (N.eqb_spec c 10) as [->|].
  - destruct (Js.split_nl s) as [|l ls]; [congruence|].
    change (Js.join_nl ([] :: l :: ls)) with ([] ++ 10%N :: Js.join_nl (l :: ls)).
    rewrite IH. reflexivity.
  - destruct (Js.split_nl s) as [|l ls]; [congruence|].
    destruct ls as [|l' ls]; simpl in *; rewrite <- IH; reflexivity.
Qed.

Lemma taskMap_fold_other (ts : list AsanaTask) (k : str) :
  forall m, ~ In k (map gid ts) ->
    JsMap.get k (fold_left (fun m t => JsMap.set (gid t) t m) ts m)
    = JsMap.get k m.
Proof.
  induction ts as [|x ts IH]; intros m N; simpl; auto.
  rewrite IH by (intros I; apply N; simpl; auto).
  apply get_set_other. intros ->. apply N. simpl; auto.
Qed.

(** With one task per identifier the map gives each task back. *)
Lemma taskMap_in_get (ts : list AsanaTask) (t : AsanaTask) :
  NoDup (map gid ts) -> In t ts -> JsMap.get (gid t) (taskMapOf ts) = Some t.
Proof.
  unfold taskMapOf. generalize (@nil (str * AsanaTask)).
  induction ts as [|x ts IH]; intros m N I; [destruct I|].
  simpl in N. inversion N as [|? ? Nx N']; subst. simpl.
  destruct I as [->|I].
  - rewrite taskMap_fold_other by exact Nx. apply get_set_same.
  - apply IH; auto.
Qed.

Lemma taskMap_get_in (ts : list AsanaTask) (g : str) (t : AsanaTask) :
  JsMap.get g (taskMapOf ts) = Some t -> In t ts /\ gid t = g.
Proof.
  intros H. apply get_in in H. revert H. unfold taskMapOf.
  assert (G : forall m,
             In (g, t) (fold_left (fun m t => JsMap.set (gid t) t m) ts m) ->
             In (g, t) m \/ (In t ts /\ gid t = g)).
  { induction ts as [|x ts IH]; intros m H; simpl in *; auto.
    destruct (IH _ H) as [I|(I & E)]; [|tauto].
    apply in_set in I. destruct I as [(-> & ->)|I]; auto. }
  intros H. destruct (G [] H) as [[]|R]. exact R.
Qed.

(** Every group holds tasks of the list, filed under the section of one of
    them. *)
Lemma groupBySection_sound (pg : str) (ts : list AsanaTask)
      (s : str) (l : list AsanaTask) :
  In (s, l) (groupBySection pg ts) ->
  (exists t, In t ts /\ sectionNameOf pg t = s)
  /\ (forall t, In t l -> In t ts).
Proof.
  unfold groupBySection.
  set (f := fun (m : JsMap.t (list AsanaTask)) (task : AsanaTask) =>
              let sectionName := sectionNameOf pg task in
              let m0 := if JsMap.has sectionName m then m
                        else JsMap.set sectionName [] m in
              match JsMap.get sectionName m0 with
              | Some l => JsMap.set sectionName (l ++ [task]) m0
              | None => m0
              end).
  set (Inv := fun m : JsMap.t (list AsanaTask) =>
                forall s l, In (s, l) m ->
                  (exists t, In t ts /\ sectionNameOf pg t = s)
                  /\ (forall t, In t l -> In t ts)).
  assert (G : forall qs, (forall q, In q qs -> In q ts) ->
                         forall m, Inv m -> Inv (fold_left f qs m)).
  { induction qs as [|q qs IH]; intros Q m I; simpl; auto.
    apply IH; [intros q' H; apply Q; simpl; auto|].
    assert (Iq : In q ts) by (apply Q; simpl; auto).
    unfold f. cbv zeta.
    set (m0 := if JsMap.has (sectionNameOf pg q) m then m
               else JsMap.set (sectionNameOf pg q) [] m).
    assert (I0 : Inv m0).
    { unfold m0. destruct (JsMap.has (sectionNameOf pg q) m); auto.
      intros s' l' H. apply in_set in H. destruct H as [(-> & ->)|H]; auto.
      split; [eauto|intros t []]. }
    destruct (JsMap.get (sectionNameOf pg q) m0) as [l0|] eqn:E; auto.
    intros s' l' H. apply in_set in H. destruct H as [(-> & ->)|H]; auto.
    split; [eauto|]. intros t H. apply in_app_or in H.
    destruct H as [H|[<-|[]]]; auto.
    apply get_in in E. apply (I0 _ _ E). exact H. }
  intros H. apply (G ts (fun q H => H) []); auto.
  intros s' l' [].
Qed.

Lemma lastSync_not_fence (stamp : str) :
  Js.eqb (lastSyncLine stamp) FENCE = false.
Proof. reflexivity. Qed.

Lemma lastSync_is_stamp (stamp : str) :
  Js.startsWith (Js.lit "asana_last_sync:") (lastSyncLine stamp) = true.
Proof. reflexivity. Qed.

(** Rewriting the frontmatter a second time with the same stamp changes
    nothing. *)
Lemma rewriteFm_idem (stamp : str) (ls : list str) :
  forall u1 u2, (u1 = true -> u2 = true) ->
    rewriteFm stamp u2 (rewriteFm stamp u1 ls) = rewriteFm stamp u1 ls.
Proof.
  induction ls as [|l ls IH]; intros u1 u2 U; cbn [rewriteFm]; auto.
  destruct (Js.eqb l FENCE) eqn:E.
  - destruct u1.
    + rewrite (U eq_refl). cbn [app rewriteFm]. rewrite E. cbn [app].
      rewrite IH; auto.
    + cbn [app rewriteFm].
      rewrite lastSync_not_fence, lastSync_is_stamp, E. cbn [app].
      rewrite IH; auto.
  - destruct (Js.startsWith (Js.lit "asana_last_sync:") l) eqn:K;
      cbn [rewriteFm].
    + rewrite lastSync_not_fence, lastSync_is_stamp, IH; auto.
    + rewrite E, K, IH; auto.
Qed.

Lemma rewriteFrontmatter_idem (stamp : str) (fm : list str) :
  rewriteFrontmatter stamp (rewriteFrontmatter stamp fm)
  = rewriteFrontmatter stamp fm.
Proof.
  destruct fm as [|l ls]; simpl; auto. rewrite rewriteFm_idem; auto.
Qed.

(** A closed frontmatter block is still the frontmatter block after the
    rewrite. *)
Lemma untilFence_rewritten (stamp : str) (ls B : list str) :
  In FENCE ls ->
  forall u, untilFence (rewriteFm stamp u (fst (untilFence ls)) ++ B)
            = (rewriteFm stamp u (fst (untilFence ls)), B).
Proof.
  induction ls as [|l ls IH]; intros I u; [destruct I|].
  cbn [untilFence]. destruct (Js.eqb l FENCE) eqn:E.
  - cbn [fst rewriteFm]. rewrite E. destruct u; cbn [app untilFence].
    + rewrite E. reflexivity.
    + rewrite lastSync_not_fence, E. reflexivity.
  - destruct I as [->|I]; [rewrite eqb_refl in E; discriminate|].
    specialize (IH I).
    destruct (untilFence ls) as [a b] eqn:EU. cbn [fst] in *.
    cbn [rewriteFm]. rewrite E.
    destruct (Js.startsWith (Js.lit "asana_last_sync:") l);
      cbn [app untilFence]; rewrite ?lastSync_not_fence, ?E, IH; reflexivity.
Qed.

Lemma trimStart_snoc (s : str) (x : N) :
  Js.is_space x = false -> exists y, Js.trimStart (s ++ [x]) = y ++ [x].
Proof.
  intros Hx. induction s as [|c s (y & IH)]; simpl.
  - rewrite Hx. exists []. reflexivity.
  - destruct (Js.is_space c); [eauto|]. exists (c :: s). reflexivity.
Qed.

Lemma trim_head (x : N) (s : str) :
  Js.is_space x = false -> exists r, Js.trim (x :: s) = x :: r.
Proof.
  intros Hx. unfold Js.trim, Js.trimEnd. simpl Js.trimStart at 2. rewrite Hx.
  simpl rev. destruct (@trimStart_snoc (rev s) x Hx) as (y & ->).
  rewrite rev_app_distr. simpl. eauto.
Qed.

Lemma rewriteFm_members (stamp : str) (ls : list str) (l : str) :
  forall u, In l (rewriteFm stamp u ls) -> In l ls \/ l = lastSyncLine stamp.
Proof.
  induction ls as [|x ls IH]; intros u H; [destruct H|].
  cbn [rewriteFm] in H. destruct (Js.eqb x FENCE).
  - apply in_app_or in H. destruct H as [H|[<-|H]].
    + destruct u; [destruct H|]. destruct H as [<-|[]]. auto.
    + simpl; auto.
    + destruct (IH _ H); simpl; auto.
  - destruct (Js.startsWith (Js.lit "asana_last_sync:") x);
      destruct H as [<-|H]; simpl; auto; destruct (IH _ H); auto.
Qed.

Lemma rewriteFrontmatter_members (stamp : str) (fm : list str) (l : str) :
  In l (rewriteFrontmatter stamp fm) -> In l fm \/ l = lastSyncLine stamp.
Proof.
  destruct fm as [|x ls]; [intros []|]. intros [<-|H]; simpl; auto.
  destruct (@rewriteFm_members _ _ _ _ H); auto.
Qed.

Lemma findIndex_app_r (A : Type) (f : A -> bool) (a b : list A) :
  (forall x, In x a -> f x = false) ->
  findIndex f (a ++ b) = option_map (Nat.add (List.length a)) (findIndex f b).
Proof.
  induction a as [|x a IH]; intros H; simpl.
  - destruct (findIndex f b); reflexivity.
  - rewrite (H x) by (simpl; auto). rewrite IH by (intros; apply H; simpl; auto).
    destruct (findIndex f b); reflexivity.
Qed.

Section Prefix.

Variables (settings : AsanaSyncSettings) (sp : SyncedProject).

Let fmt (t : AsanaTask) : str :=
  formatTaskLine t (showDueDates settings) (showAssignees settings).

(** Lines in front that read as no section heading stay in front when a
    group is placed. *)
Lemma placeGroup_prefix (fm lines : list str) (e : str * list AsanaTask) :
  Forall (fun l => Js.startsWith H2 (Js.trim l) = false) fm ->
  placeGroup settings (fm ++ lines) e = fm ++ placeGroup settings lines e.
Proof.
  intros F. destruct e as [s ts]. unfold placeGroup.
  rewrite findIndex_app_r.
  2:{ intros x Hx. rewrite Forall_forall in F. specialize (F x Hx).
      apply eqb_neq. intros E. rewrite E in F.
      assert (T : Js.startsWith H2 (H2 ++ s) = true)
        by (apply startsWith_spec; eauto).
      congruence. }
  destruct (findIndex (fun l => Js.eqb (Js.trim l) (H2 ++ s)) lines) as [idx|];
    cbn [option_map]; destruct (negb (Js.eqb s UNSECTIONED));
    rewrite <- ?app_assoc; auto.
  replace (skipn (S (List.length fm + idx)) (fm ++ lines))
    with (skipn (S idx) lines).
  2:{ symmetry. rewrite skipn_app.
      rewrite (@skipn_all2 _ (S (List.length fm + idx)) fm) by lia.
      replace (S (List.length fm + idx) - List.length fm) with (S idx) by lia.
      reflexivity. }
  rewrite splice_app_r by lia. f_equal. f_equal. lia.
Qed.

Lemma appendNewTasks_prefix (fm lines : list str) (newTasks : list AsanaTask) :
  Forall (fun l => Js.startsWith H2 (Js.trim l) = false) fm ->
  appendNewTasks settings sp newTasks (fm ++ lines)
  = fm ++ appendNewTasks settings sp newTasks lines.
Proof.
  intros F. unfold appendNewTasks. destruct newTasks as [|t ts]; auto.
  generalize (groupBySection (projectGid sp) (t :: ts)). intros groups.
  revert lines. induction groups as [|e groups IH]; intros lines; simpl; auto.
  rewrite placeGroup_prefix by exact F. apply IH.
Qed.

(** What placing a group adds: an empty line, the heading of the group, the
    lines of its tasks. *)
Lemma placeGroup_adds (lines : list str) (s : str) (ts : list AsanaTask)
      (b : str) :
  In b (placeGroup settings lines (s, ts)) ->
  In b lines \/ b = [] \/ b = H2 ++ s \/ exists t, In t ts /\ b = fmt t.
Proof.
  assert (T : In b (map fmt ts) -> exists t, In t ts /\ b = fmt t).
  { intros H. apply in_map_iff in H. destruct H as (t & <- & H). eauto. }
  unfold placeGroup. fold fmt.
  destruct (findIndex _ lines) as [idx|];
    destruct (negb (Js.eqb s UNSECTIONED)); unfold splice;
    rewrite ?in_app_iff; cbn [In]; intros H.
  - set (j := S idx + sectionRest (skipn (S idx) lines)) in *.
    destruct H as [H|[H|H]]; auto; left; apply (@in_firstn_skipn _ j); auto.
  - destruct H as [H|H]; auto.
  - destruct H as [H|[[H|[H|[H|[]]]]|H]]; auto.
  - destruct H as [H|H]; auto.
Qed.

Lemma placeGroup_has (lines : list str) (s : str) (ts : list AsanaTask)
      (t : AsanaTask) :
  In t ts -> In (fmt t) (placeGroup settings lines (s, ts)).
Proof.
  intros H. apply (in_map fmt) in H. unfold placeGroup. fold fmt.
  destruct (findIndex _ lines) as [idx|];
    destruct (negb (Js.eqb s UNSECTIONED)); unfold splice;
    rewrite ?in_app_iff; auto.
Qed.

Lemma appendNewTasks_adds (lines : list str) (newTasks : list AsanaTask)
      (b : str) :
  In b (appendNewTasks settings sp newTasks lines) ->
  In b lines \/ b = []
  \/ (exists t, In t newTasks /\ b = H2 ++ sectionNameOf (projectGid sp) t)
  \/ exists t, In t newTasks /\ b = fmt t.
Proof.
  unfold appendNewTasks. destruct newTasks as [|t0 ts0]; auto.
  pose proof (groupBySection_sound (projectGid sp) (t0 :: ts0)) as Snd.
  revert Snd. generalize (groupBySection (projectGid sp) (t0 :: ts0)).
  generalize (t0 :: ts0). intros news groups. revert lines.
  induction groups as [|[s ts] groups IH]; intros lines Snd H; simpl in *; auto.
  destruct (IH _ (fun s l I => Snd s l (or_intror I)) H) as [I|R]; auto.
  destruct (Snd s ts (or_introl eq_refl)) as ((t & It & Et) & Sub).
  apply placeGroup_adds in I.
  destruct I as [I|[I|[I|(t' & I & E)]]]; auto.
  - right. right. left. exists t. subst. auto.
  - right. right. right. exists t'. auto.
Qed.

Lemma appendNewTasks_has (lines : list str) (newTasks : list AsanaTask)
      (t : AsanaTask) :
  In t newTasks -> In (fmt t) (appendNewTasks settings sp newTasks lines).
Proof.
  intros It. unfold appendNewTasks.
  destruct newTasks as [|t0 ts0]; [destruct It|].
  destruct (groupBySection_member (projectGid sp) (t0 :: ts0) t It)
    as (grp & Ig & Itg).
  apply in_split in Ig. destruct Ig as (g1 & g2 & ->).
  rewrite fold_left_app. cbn [fold_left].
  apply placeGroups_keep. apply placeGroup_has. exact Itg.
Qed.

End Prefix.

(* ------------------------------------------------------------------ *)
(** ** Notes and task lists a second pass leaves alone *)

Lemma singleLine_spec (s : str) : singleLine s = true <-> ~ In 10%N s.
Proof.
  unfold singleLine. rewrite negb_true_iff. split.
  - intros H I. assert (E : existsb (N.eqb 10) s = true).
    { apply existsb_exists. exists 10%N. split; auto. }
    congruence.
  - intros N. destruct (existsb (N.eqb 10) s) eqn:E; auto.
    apply existsb_exists in E. destruct E as (x & I & E).
    apply N.eqb_eq in E. subst. tauto.
Qed.

Lemma heading_not_task (l : str) (i : nat) :
  Js.startsWith H2 l = true -> parseTaskLine l i = None.
Proof.
  intros H. destruct (parseTaskLine l i) as [pt|] eqn:P; auto.
  apply parse_line_head in P. destruct P as (indent & rest & S & ->).
  exfalso. destruct indent as [|x indent].
  - discriminate H.
  - inversion S as [|? ? Hx _]; subst. simpl in H.
    unfold H2 in H. rewrite startsWith_cons in H.
    destruct (N.eqb_spec 35 x) as [<-|]; discriminate.
Qed.

Lemma parse_index (l : str) (i : nat) (pt : ParsedTask) :
  parseTaskLine l i = Some pt ->
  exists pt0, parseTaskLine l 0 = Some pt0 /\ asanaGid pt0 = asanaGid pt.
Proof.
  unfold parseTaskLine. destruct (Re.match_ TASK_LINE_REGEX l); [|discriminate].
  intros H. inversion H; subst. eexists. split; reflexivity.
Qed.

Lemma idAgrees_spec (l : str) (i : nat) (pt : ParsedTask) (g : str) :
  idAgrees l = true ->
  parseTaskLine l i = Some pt -> asanaGid pt = Some g -> carried l = Some g.
Proof.
  intros A P G. destruct (parse_index _ _ P) as (pt0 & P0 & G0).
  unfold idAgrees in A. rewrite P0, G0, G in A.
  destruct (carried l) as [g'|]; [|discriminate].
  apply eqb_eq in A. subst. reflexivity.
Qed.

Lemma dots_single (s : str) :
  Forall (fun y => Js.is_dot y = true) s -> ~ In 10%N s.
Proof.
  intros F I. rewrite Forall_forall in F. specialize (F _ I). discriminate.
Qed.

Lemma words_single (s : str) :
  Forall (fun y => Js.is_word y = true) s -> ~ In 10%N s.
Proof.
  intros F I. rewrite Forall_forall in F. specialize (F _ I). discriminate.
Qed.

Lemma date_single (d : str) : is_date d = true -> ~ In 10%N d.
Proof.
  intros D. destruct (is_date_digits d D)
    as (y1 & y2 & y3 & y4 & m1 & m2 & d1 & d2 & -> & F).
  rewrite Forall_forall in F. intros I.
  assert (Dg : Js.is_digit 10 = true).
  { simpl in I.
    repeat (destruct I as [I|I]; [try discriminate; subst; apply F; simpl; auto 10|]).
    destruct I. }
  discriminate.
Qed.

(** A formatted line of a clean task is one line. *)
Lemma format_single (t : AsanaTask) (sd sa : bool) :
  wfTask t = true -> ~ In 10%N (formatTaskLine t sd sa).
Proof.
  intros W. destruct (wfTask_spec t W) as (Wt & Wg & Wd & Wa).
  destruct (wf_title_spec _ Wt) as (_ & x & u & En & Dx & Du).
  destruct (wf_gid_spec _ Wg) as (gx & gu & Eg & Gx & Gu).
  assert (Nn : ~ In 10%N (name t)).
  { rewrite En. apply dots_single. constructor; auto. }
  assert (Ng : ~ In 10%N (gid t)).
  { rewrite Eg. apply words_single. constructor; auto. }
  rewrite format_is_lineText. unfold lineText.
  cbn [partsOfTask lp_indent lp_flag lp_title lp_due lp_assignee lp_gid
       lp_trail gidText].
  unfold commentText. rewrite !in_app_iff.
  assert (Nd : ~ In 10%N (dueText
                 match due_on t with
                 | Some d => if sd && Js.truthy d
                             then Some ([32%N], [32%N], d) else None
                 | None => None
                 end)).
  { destruct (due_on t) as [d|] eqn:Ed; [|simpl; tauto].
    destruct (sd && Js.truthy d); [|simpl; tauto].
    destruct (Wd d eq_refl) as (Dd & _). apply date_single in Dd.
    unfold dueText. rewrite !in_app_iff. simpl. intuition discriminate. }
  assert (Na : ~ In 10%N (assigneeText
                 match assignee t with
                 | Some a => if sa && Js.truthy (ref_name a)
                             then Some ([32%N], [32%N], ref_name a) else None
                 | None => None
                 end)).
  { destruct (assignee t) as [a|] eqn:Ea; [|simpl; tauto].
    destruct (sa && Js.truthy (ref_name a)); [|simpl; tauto].
    destruct (Wa a eq_refl) as (Wn & _).
    destruct (wf_assignee_spec _ Wn) as (ax & au & Ean & _ & Ax & Au).
    assert (~ In 10%N (ref_name a)).
    { rewrite Ean. apply dots_single. constructor; auto. }
    unfold assigneeText. rewrite !in_app_iff. simpl. intuition discriminate. }
  assert (Nf : (if completed t then 120%N else 32%N) <> 10%N)
    by (destruct (completed t); discriminate).
  unfold DASH_BOX, BOX_END, COMMENT_OPEN, ASANA_KEY, COMMENT_CLOSE.
  cbn [In]. intuition (try discriminate; eauto).
Qed.

Lemma format_not_fence (t : AsanaTask) (sd sa : bool) :
  formatTaskLine t sd sa <> FENCE.
Proof.
  destruct (format_checkbox t sd sa) as (rest & ->).
  destruct (completed t); discriminate.
Qed.

Lemma frontmatter_cases (lines : list str) :
  fencesOk lines = true ->
  (frontmatterOf lines = [] /\ ~ In FENCE lines)
  \/ (exists l ls, lines = l :: ls /\ Js.eqb l FENCE = true /\ In FENCE ls
                   /\ frontmatterOf lines = l :: fst (untilFence ls)).
Proof.
  unfold fencesOk, frontmatterOf, splitFrontmatter.
  destruct lines as [|l ls]; [intros _; left; split; auto|].
  destruct (Js.eqb l FENCE) eqn:E; intros H.
  - right. exists l, ls. repeat split; auto.
    + apply existsb_exists in H. destruct H as (x & I & Ex).
      apply eqb_eq in Ex. subst. exact I.
    + destruct (untilFence ls); reflexivity.
  - left. split; auto. apply negb_true_iff in H. intros [->|I].
    + rewrite eqb_refl in E. discriminate.
    + assert (X : existsb (Js.eqb FENCE) ls = true).
      { apply existsb_exists. exists FENCE. split; [exact I|apply eqb_refl]. }
      congruence.
Qed.

(** After the rewrite the frontmatter block is the rewritten block, and the
    body is what follows it. *)
Lemma split_rewritten (stamp : str) (lines B : list str) :
  fencesOk lines = true ->
  (frontmatterOf lines = [] -> forall b, In b B -> b <> FENCE) ->
  splitFrontmatter (rewriteFrontmatter stamp (frontmatterOf lines) ++ B)
  = (rewriteFrontmatter stamp (frontmatterOf lines), B).
Proof.
  intros Fk Nb. destruct (frontmatter_cases lines Fk)
    as [(E & _)|(l & ls & -> & El & I & E)]; rewrite E.
  - simpl. destruct B as [|b B]; auto. unfold splitFrontmatter.
    assert (X : Js.eqb b FENCE = false).
    { apply eqb_neq. apply (Nb E). simpl; auto. }
    rewrite X. reflexivity.
  - cbn [rewriteFrontmatter app splitFrontmatter]. rewrite El.
    rewrite untilFence_rewritten by exact I. reflexivity.
Qed.

Lemma flat_map_fixed (A : Type) (f : A -> list A) (l : list A) :
  (forall x, In x l -> f x = [x]) -> flat_map f l = l.
Proof.
  induction l as [|x l IH]; intros H; simpl; auto.
  rewrite (H x) by (simpl; auto).
  rewrite IH by (intros; apply H; simpl; auto). reflexivity.
Qed.

Lemma filter_none (A : Type) (p : A -> bool) (l : list A) :
  (forall x, In x l -> p x = false) -> filter p l = [].
Proof.
  induction l as [|x l IH]; intros H; simpl; auto.
  rewrite (H x) by (simpl; auto).
  apply IH. intros; apply H; simpl; auto.
Qed.

Lemma lastSync_single (stamp : str) :
  ~ In 10%N stamp -> ~ In 10%N (lastSyncLine stamp).
Proof.
  intros N. unfold lastSyncLine. rewrite !in_app_iff. simpl.
  intuition discriminate.
Qed.

Lemma lastSync_plain (stamp : str) :
  Js.startsWith H2 (Js.trim (lastSyncLine stamp)) = false.
Proof.
  change (lastSyncLine stamp)
    with (97%N :: (Js.lit "sana_last_sync: " ++ [34%N] ++ stamp ++ [34%N])).
  destruct (@trim_head 97%N
              (Js.lit "sana_last_sync: " ++ [34%N] ++ stamp ++ [34%N])
              eq_refl) as (r & ->).
  reflexivity.
Qed.

Lemma carried_formatted (t : AsanaTask) (sd sa : bool) :
  wfTask t = true -> carried (formatTaskLine t sd sa) = Some (gid t).
Proof.
  intros W. unfold carried.
  destruct (format_checkbox t sd sa) as (rest & E).
  assert (Nh : Js.startsWith H2 (formatTaskLine t sd sa) = false).
  { rewrite E. destruct (completed t); reflexivity. }
  rewrite Nh. apply gidMatch_formatted. exact W.
Qed.

(* ------------------------------------------------------------------ *)
(** ** The note a pass leaves behind, read by the next pass *)

Section SecondPass.

Variables (settings : AsanaSyncSettings) (sp : SyncedProject).
Variables (R : list AsanaTask) (content0 stamp : str).

Let m := taskMapOf R.
Let f := rewriteBodyLine settings m.
Let fmt (t : AsanaTask) : str :=
  formatTaskLine t (showDueDates settings) (showAssignees settings).
Let hidden (t : AsanaTask) : bool :=
  negb (showCompletedTasks settings) && completed t.
Let lines0 := Js.split_nl content0.
Let fm1 := rewriteFrontmatter stamp (frontmatterOf lines0).
Let seen1 := seenGids (rebuilt settings sp stamp content0 R).
Let news1 := newTasksOf settings seen1 R.
Let B1 := appendNewTasks settings sp news1 (flat_map f (bodyOf lines0)).
Let content1 := Js.join_nl (finalLines settings sp stamp content0 R).
Let lines1 := Js.split_nl content1.

Hypothesis wfR : forallb wfTask R = true.
Hypothesis uniqR : NoDup (map gid R).
Hypothesis secR :
  forallb (fun t => singleLine (sectionNameOf (projectGid sp) t)) R = true.
Hypothesis stampLine : singleLine stamp = true.
Hypothesis fences : fencesOk lines0 = true.
Hypothesis fmPlain : forallb plainFrontmatter (frontmatterOf lines0) = true.
Hypothesis idsAgree : forallb idAgrees (bodyOf lines0) = true.

(** A body line the next pass leaves as it is and reads no conflict from. *)
Let settled (b : str) : Prop :=
  f b = [b] /\ ~ In 10%N b /\ (frontmatterOf lines0 = [] -> b <> FENCE)
  /\ forall i pt g t,
       parseTaskLine b i = Some pt -> asanaGid pt = Some g ->
       JsMap.get g m = Some t -> p_completed pt = completed t.

Lemma wf_in (t : AsanaTask) : In t R -> wfTask t = true.
Proof.
  intros I. pose proof wfR as W. rewrite forallb_forall in W. auto.
Qed.

Lemma formatted_settled (t : AsanaTask) :
  In t R -> hidden t = false -> settled (fmt t).
Proof.
  intros I Hd. pose proof (wf_in t I) as W.
  unfold settled, f, rewriteBodyLine, fmt, m, hidden in *.
  split; [|split; [|split]].
  - pose proof (fmt_notHeading settings t) as Nh. unfold notHeading in Nh.
    rewrite Nh, gidMatch_formatted, (taskMap_in_get R t uniqR I), Hd by exact W.
    reflexivity.
  - apply format_single. exact W.
  - intros _. apply format_not_fence.
  - intros i pt g t' P G Gt.
    destruct (@parse_formatted_id t _ _ i pt W P) as (Eg & Ec).
    rewrite Eg in G. inversion G; subst g.
    rewrite (taskMap_in_get R t uniqR I) in Gt. inversion Gt; subst t'.
    exact Ec.
Qed.

Lemma empty_settled : settled [].
Proof.
  unfold settled, f, rewriteBodyLine. split; [|split; [|split]].
  - reflexivity.
  - intros [].
  - discriminate.
  - intros i pt g t P. assert (E : parseTaskLine [] i = None) by reflexivity.
    congruence.
Qed.

Lemma heading_settled (s : str) : ~ In 10%N s -> settled (H2 ++ s).
Proof.
  intros N. assert (Hh : Js.startsWith H2 (H2 ++ s) = true)
    by (apply startsWith_spec; eauto).
  unfold settled, f, rewriteBodyLine. rewrite Hh.
  split; [|split; [|split]]; auto.
  - rewrite in_app_iff. unfold H2. simpl. intuition discriminate.
  - intros _. unfold H2, FENCE. simpl. discriminate.
  - intros i pt g t P. rewrite heading_not_task in P by exact Hh.
    discriminate.
Qed.

Lemma kept_settled (l : str) :
  In l (bodyOf lines0) ->
  Js.startsWith H2 l = true
  \/ (Js.startsWith H2 l = false
      /\ (gidMatch l = None
          \/ exists g, gidMatch l = Some g /\ JsMap.get g m = None)) ->
  settled l.
Proof.
  intros I K. unfold settled. split; [|split; [|split]].
  - unfold f, rewriteBodyLine.
    destruct K as [->|(-> & [->|(g & -> & ->)])]; reflexivity.
  - apply (split_nl_no_newline content0). apply bodyOf_In. exact I.
  - intros E. destruct (frontmatter_cases lines0 fences)
      as [(_ & Nf)|(l0 & ls & _ & _ & _ & E')]; [|congruence].
    intros ->. apply Nf. apply bodyOf_In. exact I.
  - intros i pt g t P G Gt.
    pose proof idsAgree as A. rewrite forallb_forall in A.
    pose proof (@idAgrees_spec l i pt g (A l I) P G) as C. unfold carried in C.
    destruct K as [Hh|(Hh & [Gm|(g' & Gm & Gn)])]; rewrite Hh in C;
      try discriminate; rewrite Gm in C; try discriminate.
    inversion C; subst g'. congruence.
Qed.

Lemma rewritten_settled (b : str) :
  In b (flat_map f (bodyOf lines0)) -> settled b.
Proof.
  intros H. apply in_flat_map in H. destruct H as (l & I & Ib).
  unfold f, rewriteBodyLine in Ib.
  destruct (Js.startsWith H2 l) eqn:Hh.
  { destruct Ib as [<-|[]]. apply kept_settled; auto. }
  destruct (gidMatch l) as [g|] eqn:Gm.
  2:{ destruct Ib as [<-|[]]. apply kept_settled; auto. }
  destruct (JsMap.get g m) as [t|] eqn:Gt.
  2:{ destruct Ib as [<-|[]]. apply kept_settled; auto.
      right. split; auto. right. exists g. auto. }
  destruct (negb (showCompletedTasks settings) && completed t) eqn:Hd;
    [destruct Ib|].
  destruct Ib as [<-|[]]. apply taskMap_get_in in Gt.
  apply formatted_settled; tauto.
Qed.

Lemma seen1_spec (g : str) :
  set_has g seen1 = true <->
  exists l, In l (bodyOf lines0) /\ carried l = Some g.
Proof.
  unfold seen1, rebuilt.
  destruct (rewrite_normal_form settings (taskMapOf R) stamp
              (Js.split_nl content0)) as (_ & S & _).
  apply S.
Qed.

Lemma news1_shown (t : AsanaTask) :
  In t news1 -> In t R /\ hidden t = false.
Proof.
  unfold news1, newTasksOf. rewrite filter_In, andb_true_iff, !negb_true_iff.
  tauto.
Qed.

Lemma B1_settled (b : str) : In b B1 -> settled b.
Proof.
  intros H. apply appendNewTasks_adds in H.
  destruct H as [H|[->|[(t & It & ->)|(t & It & ->)]]].
  - apply rewritten_settled. exact H.
  - apply empty_settled.
  - apply heading_settled. apply news1_shown in It. destruct It as (It & _).
    pose proof secR as S. rewrite forallb_forall in S.
    apply singleLine_spec. apply S. exact It.
  - apply news1_shown in It. apply formatted_settled; tauto.
Qed.

(** Every task the filter shows has its formatted line in the body. *)
Lemma shown_in_B1 (t : AsanaTask) :
  In t R -> hidden t = false -> In (fmt t) B1.
Proof.
  intros I Hd. destruct (set_has (gid t) seen1) eqn:Sn.
  - apply seen1_spec in Sn. destruct Sn as (l & Il & C).
    apply appendNewTasks_keeps. apply in_flat_map. exists l. split; auto.
    unfold carried in C. unfold f, rewriteBodyLine.
    destruct (Js.startsWith H2 l); [discriminate|]. rewrite C.
    unfold m. rewrite (taskMap_in_get R t uniqR I). fold (hidden t).
    rewrite Hd. simpl; auto.
  - apply appendNewTasks_has. unfold news1, newTasksOf.
    apply filter_In. split; auto. rewrite Sn. fold (hidden t). rewrite Hd.
    reflexivity.
Qed.

Lemma fm1_plain :
  Forall (fun l => Js.startsWith H2 (Js.trim l) = false) fm1.
Proof.
  apply Forall_forall. intros l H.
  apply rewriteFrontmatter_members in H. destruct H as [H| ->].
  - pose proof fmPlain as P. rewrite forallb_forall in P.
    specialize (P l H). unfold plainFrontmatter in P.
    apply negb_true_iff in P. exact P.
  - apply lastSync_plain.
Qed.

Lemma final_shape : finalLines settings sp stamp content0 R = fm1 ++ B1.
Proof.
  unfold finalLines. fold seen1. fold news1. unfold rebuilt.
  destruct (rewrite_normal_form settings (taskMapOf R) stamp
              (Js.split_nl content0)) as (N & _).
  rewrite N. fold lines0 m f fm1.
  apply appendNewTasks_prefix. apply fm1_plain.
Qed.

Lemma lines1_shape :
  exists B, lines1 = fm1 ++ B
            /\ (forall b, In b B -> settled b)
            /\ (forall t, In t R -> hidden t = false -> In (fmt t) B).
Proof.
  unfold lines1, content1. rewrite final_shape.
  destruct (fm1 ++ B1) as [|x xs] eqn:E.
  - apply app_eq_nil in E. destruct E as (E1 & E2).
    exists [[]]. rewrite E1. split; [reflexivity|]. split.
    + intros b [<-|[]]. apply empty_settled.
    + intros t I Hd. pose proof (shown_in_B1 t I Hd) as H.
      rewrite E2 in H. destruct H.
  - rewrite <- E. exists B1. split; [|split].
    + apply split_join_lines; [rewrite E; discriminate|].
      apply Forall_app. split; apply Forall_forall; intros l H.
      * apply rewriteFrontmatter_members in H. destruct H as [H| ->].
        -- apply (split_nl_no_newline content0).
           rewrite <- (splitFrontmatter_app (Js.split_nl content0)).
           apply in_or_app. auto.
        -- apply lastSync_single. apply singleLine_spec. exact stampLine.
      * apply B1_settled. exact H.
    + apply B1_settled.
    + apply shown_in_B1.
Qed.

(** What the next pass makes of the note: it reads no conflict, finds no
    new task, and rebuilds the lines it read, the frontmatter apart. *)
Lemma second_pass_lines (stamp2 : str) :
  conflicts m (existingTaskMapOf (tasks (parseNoteContent content1))) = []
  /\ newTasksOf settings (seenGids (rebuilt settings sp stamp2 content1 R)) R
     = []
  /\ finalLines settings sp stamp2 content1 R
     = rewriteFrontmatter stamp2 (frontmatterOf lines1) ++ bodyOf lines1
  /\ rewriteFrontmatter stamp (frontmatterOf lines1) = frontmatterOf lines1.
Proof.
  destruct lines1_shape as (B & E1 & St & Sh).
  assert (Sp : splitFrontmatter lines1 = (fm1, B)).
  { rewrite E1. apply split_rewritten; [exact fences|].
    intros E b Hb. apply (St b Hb). exact E. }
  assert (Ef : frontmatterOf lines1 = fm1) by (unfold frontmatterOf; rewrite Sp; auto).
  assert (Eb : bodyOf lines1 = B) by (unfold bodyOf; rewrite Sp; auto).
  assert (C : conflicts m (existingTaskMapOf (tasks (parseNoteContent content1)))
              = []).
  { destruct (conflicts m _) as [|[g v] cs] eqn:Ec; auto. exfalso.
    assert (I : In (g, v) (conflicts m (existingTaskMapOf
                                          (tasks (parseNoteContent content1)))))
      by (rewrite Ec; simpl; auto).
    apply conflicts_in in I. destruct I as (pt & t & Ie & -> & Gt & Ct).
    destruct (existingTaskMap_entries (tasks (parseNoteContent content1)))
      as (_ & En).
    destruct (En _ _ Ie) as (Ip & G).
    apply tasks_from_body in Ip. destruct Ip as (l & i & Il & P).
    fold lines1 in Il. rewrite Eb in Il.
    destruct (St l Il) as (_ & _ & _ & Pc).
    rewrite (Pc i pt g t P G Gt) in Ct.
    destruct (completed t); discriminate. }
  assert (Nw : newTasksOf settings
                 (seenGids (rebuilt settings sp stamp2 content1 R)) R = []).
  { unfold newTasksOf. apply filter_none. intros t I.
    fold (hidden t). destruct (hidden t) eqn:Hd; [apply andb_false_r|].
    unfold rebuilt.
    destruct (rewrite_normal_form settings (taskMapOf R) stamp2
                (Js.split_nl content1)) as (_ & S & _).
    fold lines1 in S. rewrite Eb in S.
    assert (X : set_has (gid t)
                  (seenGids (for_lines (rewrite_step settings (taskMapOf R) stamp2)
                               0 (Js.split_nl content1) rewrite_init)) = true).
    { apply S. exists (fmt t). split; [apply Sh; auto|].
      apply carried_formatted. apply wf_in. exact I. }
    rewrite X. reflexivity. }
  split; [exact C|]. split; [exact Nw|]. split.
  - unfold finalLines. rewrite Nw. unfold appendNewTasks, rebuilt.
    destruct (rewrite_normal_form settings (taskMapOf R) stamp2
                (Js.split_nl content1)) as (N & _).
    rewrite N. fold lines1 m f. rewrite Eb. f_equal.
    apply flat_map_fixed. intros b Hb. apply (St b Hb).
  - rewrite Ef. apply rewriteFrontmatter_idem.
Qed.

End SecondPass.

(* ------------------------------------------------------------------ *)
(** ** Two passes in a row *)

Section Stable.

Context {Remote : Type} {RC : RemoteClient Remote}.

Variables (settings : AsanaSyncSettings) (sp : SyncedProject).

Lemma pushCompletions_quiet (token : str) (m : JsMap.t AsanaTask)
      (entries : list (str * ParsedTask)) :
  conflicts m entries = [] ->
  forall n (w : World Remote),
    pushCompletions token m entries n w = (Some n, w).
Proof.
  induction entries as [|[g pt] rest IH]; intros C n w; simpl in *.
  - reflexivity.
  - destruct (JsMap.get g m) as [t|]; [|apply IH; auto].
    destruct (negb (Bool.eqb (p_completed pt) (completed t)));
      [discriminate C|apply IH; auto].
Qed.

(** A run on a note that holds no conflict: nothing is pushed, and the
    note is written when the rebuilt content differs. *)
Lemma syncProject_no_conflict (w : World Remote) (content : str)
      (ts : list AsanaTask) :
  getAbstractFileByPath (notePath sp) (vault w) = Some (TFile content) ->
  fetched (asanaAccessToken settings) sp (remote w) = Some ts ->
  conflicts (taskMapOf ts)
            (existingTaskMapOf (tasks (parseNoteContent content))) = [] ->
  syncProject settings sp w
  = (Some {| added := List.length
                        (newTasksOf settings
                           (seenGids (rebuilt settings sp (now w) content ts))
                           ts);
             updated := rw_updated (rebuilt settings sp (now w) content ts);
             completionChanges := 0 |},
     if Js.eqb (Js.join_nl (finalLines settings sp (now w) content ts)) content
     then w
     else written (notePath sp)
                  (Js.join_nl (finalLines settings sp (now w) content ts)) w).
Proof.
  intros F T C.
  unfold syncProject. unfold bind at 1. rewrite fetchTasks_run, T.
  unfold bind at 1. unfold getWorld at 1. rewrite F.
  unfold bind at 1. rewrite (pushCompletions_quiet _ _ _ C).
  unfold bind at 1. rewrite fetchTasks_run, T.
  unfold bind at 1. unfold getWorld at 1.
  change (rawLines (parseNoteContent content)) with (Js.split_nl content).
  fold (rebuilt settings sp (now w) content ts).
  fold (finalLines settings sp (now w) content ts).
  destruct (Js.eqb (Js.join_nl (finalLines settings sp (now w) content ts))
                   content); reflexivity.
Qed.

End Stable.

Section TwoPasses.

Context {Remote : Type} {RC : RemoteClient Remote}.

Variables (settings : AsanaSyncSettings) (sp : SyncedProject).

(** C1, as amended: take a pass over an existing note that returns, with a
    refreshed task list of clean tasks, one per identifier, whose section
    names hold no newline; a note where fences only frame the frontmatter,
    where no frontmatter line reads as a section heading and where the
    identifier [parseTaskLine] reads off a body line is the one the rewrite
    takes the line to carry; and a clock reading without a newline.  A
    second pass over the note the first one left, with the same remote
    state, pushes nothing (the remote and the rest of the world stay as they
    are), adds nothing and reports no completion change; it counts as
    updated every body line that carries the identifier of a task the
    remote reports and the filter shows, and it rebuilds the note it read
    up to the sync stamp in the frontmatter: the content is the same, and
    nothing is written, when the clock reads the same or the note has no
    frontmatter. *)
Theorem second_pass_stable
        (w0 w1 w1' : World Remote) (content0 : str) (stats : Stats)
        (refreshed : list AsanaTask) :
  getAbstractFileByPath (notePath sp) (vault w0) = Some (TFile content0) ->
  syncProject settings sp w0 = (Some stats, w1) ->
  fetched (asanaAccessToken settings) sp (remote w1) = Some refreshed ->
  forallb wfTask refreshed = true ->
  NoDup (map gid refreshed) ->
  forallb (fun t => singleLine (sectionNameOf (projectGid sp) t)) refreshed
  = true ->
  singleLine (now w0) = true ->
  fencesOk (Js.split_nl content0) = true ->
  forallb plainFrontmatter (frontmatterOf (Js.split_nl content0)) = true ->
  forallb idAgrees (bodyOf (Js.split_nl content0)) = true ->
  vault w1' = vault w1 ->
  remote w1' = remote w1 ->
  exists content1,
    getAbstractFileByPath (notePath sp) (vault w1) = Some (TFile content1)
    /\ let lines1 := Js.split_nl content1 in
       let content2 :=
         Js.join_nl (rewriteFrontmatter (now w1') (frontmatterOf lines1)
                     ++ bodyOf lines1) in
       syncProject settings sp w1'
       = (Some {| added := 0;
                  updated :=
                    List.length
                      (filter (countsUpdated settings (taskMapOf refreshed))
                              (bodyOf lines1));
                  completionChanges := 0 |},
          if Js.eqb content2 content1 then w1'
          else written (notePath sp) content2 w1')
       /\ (now w1' = now w0 \/ frontmatterOf lines1 = [] ->
           content2 = content1).
Proof.
  intros F0 Run T1 W U S Sl Fk Fp Ia V Rm.
  destruct (syncProject_outcome settings sp w0 F0 Run)
    as (ts0 & ts1 & pushes & _ & T1' & _ & _ & _ & _ & Nt).
  rewrite T1 in T1'. inversion T1'; subst ts1. clear T1'.
  set (content1 := Js.join_nl (finalLines settings sp (now w0) content0 refreshed))
    in *.
  exists content1. split; [exact Nt|].
  destruct (second_pass_lines settings sp refreshed content0 (now w0)
              W U S Sl Fk Fp Ia (now w1')) as (C & N & FL & Id).
  fold content1 in C, N, FL, Id. cbv zeta. split.
  - rewrite (@syncProject_no_conflict _ _ settings sp w1' content1 refreshed).
    + rewrite N, FL. unfold rebuilt.
      destruct (rewrite_normal_form settings (taskMapOf refreshed) (now w1')
                  (Js.split_nl content1)) as (_ & _ & Cn).
      rewrite Cn. reflexivity.
    + rewrite V. exact Nt.
    + rewrite Rm. exact T1.
    + exact C.
  - intros [E|E].
    + rewrite E, Id, splitFrontmatter_app. apply join_split.
    + rewrite E. cbn [rewriteFrontmatter app].
      pose proof (splitFrontmatter_app (Js.split_nl content1)) as A.
      rewrite E in A. cbn [app] in A. rewrite A. apply join_split.
Qed.

End TwoPasses.

(** The second of two passes in a row counts the line of every task the
    note shows, though it changes nothing. *)
Lemma second_pass_counts_updates :
  let settings := Sample.settings "tok" false in
  let doc := Js.lit "- [ ] Draft <!-- asana:111 -->" in
  let w := Sample.world (Some doc) [Sample.task "111" "Draft" false] "T1" in
  let r1 := syncProject settings Sample.proj w in
  let r2 := syncProject settings Sample.proj (snd r1) in
  snd r1 = w
  /\ snd r2 = w
  /\ fst r2 = Some {| added := 0; updated := 1; completionChanges := 0 |}.
Proof. repeat split; vm_compute; reflexivity. Qed.

(** A pass that creates the note and a later pass with nothing changed but
    the clock: the later pass writes the note again, for the sync stamp. *)
Lemma later_pass_rewrites_stamp :
  let settings := Sample.settings "tok" false in
  let w := Sample.world None [Sample.task "111" "Draft" false] "T1" in
  let r1 := syncProject settings Sample.proj w in
  let w1 := {| vault := vault (snd r1); remote := remote (snd r1);
               now := Js.lit "T2"; events := events (snd r1) |} in
  let r2 := syncProject settings Sample.proj w1 in
  fst r2 = Some {| added := 0; updated := 1; completionChanges := 0 |}
  /\ Sample.noteOf (snd r2) <> Sample.noteOf (snd r1)
  /\ exists data, events (snd r2)
                  = events (snd r1) ++ [EvModify Sample.path data].
Proof.
  split; [vm_compute; reflexivity|]. split.
  - vm_compute. discriminate.
  - eexists. vm_compute. reflexivity.
Qed.

Lemma second_pass_stable_witness :
  let settings := Sample.settings "tok" false in
  let doc := Js.lit "---
asana_project_gid: P
---
## Doing
- [ ] Draft <!-- asana:111 -->
- [x] Old <!-- asana:222 -->" in
  let ts := [Sample.taskIn "Doing" "111" "Draft" false;
             Sample.taskIn "Doing" "222" "Old" true;
             Sample.taskIn "Doing" "333" "New" false] in
  let w0 := Sample.world (Some doc) ts "T1" in
  let w1 := snd (syncProject settings Sample.proj w0) in
  exists content1,
    getAbstractFileByPath (notePath Sample.proj) (vault w1)
    = Some (TFile content1)
    /\ let lines1 := Js.split_nl content1 in
       let content2 :=
         Js.join_nl (rewriteFrontmatter (now w1) (frontmatterOf lines1)
                     ++ bodyOf lines1) in
       syncProject settings Sample.proj w1
       = (Some {| added := 0;
                  updated :=
                    List.length
                      (filter (countsUpdated settings (taskMapOf ts))
                              (bodyOf lines1));
                  completionChanges := 0 |},
          if Js.eqb content2 content1 then w1
          else written (notePath Sample.proj) content2 w1)
       /\ (now w1 = now w0 \/ frontmatterOf lines1 = [] ->
           content2 = content1).
Proof.
  intros settings doc ts w0 w1.
  apply (@second_pass_stable (list AsanaTask) ListRemote.client settings
           Sample.proj w0 w1 w1 doc
           {| added := 1; updated := 1; completionChanges := 0 |} ts);
    try (vm_compute; reflexivity).
  repeat constructor; simpl; intuition discriminate.
Defined.

(* ================================================================== *)
(** * Further properties of the code *)

(* ------------------------------------------------------------------ *)
(** ** The language of task lines *)

Section TaskGrammar.

Import Re ReFacts.

Lemma rep_matches (input : str) (p : N -> bool) (u rest : str) (c : captures) :
  Forall (fun x => p x = true) u ->
  matches input (Rep (List.length u) p) u rest c c.
Proof.
  induction 1 as [|x u Hx _ IH]; simpl.
  - constructor.
  - eapply (m_seq (u := [x]) (v := u)); [constructor; exact Hx|exact IH].
Qed.

Lemma date_matches (input d rest : str) (c : captures) :
  is_date d = true -> matches input DATE d rest c c.
Proof.
  intros D. destruct (is_date_digits d D)
    as (y1 & y2 & y3 & y4 & m1 & m2 & d1 & d2 & -> & F).
  inversion F as [|? ? H1 F1]; subst. inversion F1 as [|? ? H2 F2]; subst.
  inversion F2 as [|? ? H3 F3]; subst. inversion F3 as [|? ? H4 F4]; subst.
  inversion F4 as [|? ? H5 F5]; subst. inversion F5 as [|? ? H6 F6]; subst.
  unfold DATE. cbn [Seqs].
  eapply (m_seq (u := [y1; y2; y3; y4]) (v := [45; m1; m2; 45; d1; d2]%N)).
  { apply (@rep_matches input Js.is_digit [y1; y2; y3; y4]). repeat constructor; auto. }
  eapply (m_seq (u := [45%N]) (v := [m1; m2; 45; d1; d2]%N)).
  { apply (@matches_lit input [45%N]). }
  eapply (m_seq (u := [m1; m2]) (v := [45; d1; d2]%N)).
  { apply (@rep_matches input Js.is_digit [m1; m2]). repeat constructor; auto. }
  eapply (m_seq (u := [45%N]) (v := [d1; d2])).
  { apply (@matches_lit input [45%N]). }
  apply (@rep_matches input Js.is_digit [d1; d2]). exact F6.
Qed.

Lemma due_matches (input w1 w2 d rest : str) (c : captures) :
  spaces w1 -> spaces w2 -> is_date d = true ->
  matches input DUE_PART (dueText (Some (w1, w2, d))) rest c ((5, d) :: c).
Proof.
  intros S1 S2 D. unfold DUE_PART, dueText. cbn [Seqs].
  eapply m_seq; [constructor; exact S1|].
  eapply m_seq; [apply matches_lit|].
  eapply (m_seq_eq (u := w2) (v := d)); [reflexivity|constructor; exact S2|].
  apply m_group. apply date_matches. exact D.
Qed.

Lemma assignee_matches (input w1 w2 a rest : str) (c : captures) :
  spaces w1 -> spaces w2 -> a <> [] -> dots a ->
  matches input ASSIGNEE_PART (assigneeText (Some (w1, w2, a))) rest c
          ((6, a) :: c).
Proof.
  intros S1 S2 Na Da. unfold ASSIGNEE_PART, assigneeText, PlusL. cbn [Seqs].
  destruct a as [|x a]; [congruence|]. inversion Da; subst.
  eapply m_seq; [constructor; exact S1|].
  eapply m_seq; [apply matches_lit|].
  eapply (m_seq_eq (u := w2) (v := x :: a)); [reflexivity|constructor; exact S2|].
  constructor. eapply (m_seq (u := [x]) (v := a)); constructor; auto.
Qed.

Lemma gid_part_matches (input w0 w1 g w2 rest : str) (c : captures) :
  spaces w0 -> spaces w1 -> wordy g -> spaces w2 ->
  matches input GID_PART (gidText (Some (w0, w1, g, w2))) rest c ((7, g) :: c).
Proof.
  intros S0 S1 Wg S2. unfold GID_PART, gidText.
  eapply m_seq; [constructor; exact S0|].
  apply gid_comment_matches; auto.
Qed.

Lemma match_of_matches (r : regex) (ln : str) (c' : captures) :
  matches ln r ln [] [] c' -> exists m, match_ r ln = Some m.
Proof.
  intros M. destruct (exec_complete M (fun _ c => Some c) eq_refl) as (res & E).
  rewrite app_nil_r in E. exists res. unfold match_.
  destruct ln; simpl; simpl in E; rewrite E; reflexivity.
Qed.

(** Every line that can be cut into the parts of a task line is matched. *)
Lemma parts_match (p : LineParts) :
  partsOk p -> exists m, match_ TASK_LINE_REGEX (lineText p) = Some m.
Proof.
  intros (Si & Fl & Nt & Dt & Od & Oa & Og & St).
  set (ln := lineText p).
  assert (M : exists c', matches ln TASK_LINE_REGEX ln [] [] c').
  { unfold TASK_LINE_REGEX. cbn [Seqs].
    destruct (lp_title p) as [|x title] eqn:Et; [congruence|].
    inversion Dt; subst.
    assert (Md : exists cd, forall rest c,
                   matches ln (Opt DUE_PART) (dueText (lp_due p)) rest c (cd ++ c)).
    { destruct (lp_due p) as [[[w1 w2] d]|].
      - destruct Od as (S1 & S2 & D). exists [(5, d)]. intros rest c.
        apply m_opt_in. apply due_matches; auto.
      - exists []. intros rest c. apply m_opt_out. }
    assert (Ma : exists ca, forall rest c,
                   matches ln (Opt ASSIGNEE_PART) (assigneeText (lp_assignee p))
                           rest c (ca ++ c)).
    { destruct (lp_assignee p) as [[[w1 w2] a]|].
      - destruct Oa as (S1 & S2 & Na & Da). exists [(6, a)]. intros rest c.
        apply m_opt_in. apply assignee_matches; auto.
      - exists []. intros rest c. apply m_opt_out. }
    assert (Mg : exists cg, forall rest c,
                   matches ln (Opt GID_PART) (gidText (lp_gid p)) rest c (cg ++ c)).
    { destruct (lp_gid p) as [[[[w0 w1] g] w2]|].
      - destruct Og as (S0 & S1 & Wg & S2). exists [(7, g)]. intros rest c.
        apply m_opt_in. apply gid_part_matches; auto.
      - exists []. intros rest c. apply m_opt_out. }
    destruct Md as (cd & Md), Ma as (ca & Ma), Mg as (cg & Mg).
    eexists.
    eapply (m_seq_eq (u := []) (v := ln)); [reflexivity| |].
    { apply m_bol. rewrite app_nil_r. reflexivity. }
    eapply (m_seq_eq (u := lp_indent p ++ DASH_BOX)).
    { unfold ln, lineText. rewrite <- app_assoc. reflexivity. }
    { constructor. eapply m_seq; [constructor; exact Si|apply matches_lit]. }
    eapply m_seq.
    { constructor. constructor. exact Fl. }
    eapply m_seq.
    { constructor. apply (@matches_lit ln BOX_END). }
    rewrite Et.
    eapply m_seq.
    { constructor. unfold PlusL.
      eapply (m_seq (u := [x]) (v := title)); constructor; auto. }
    eapply m_seq; [apply Md|].
    eapply m_seq; [apply Ma|].
    eapply m_seq; [apply Mg|].
    eapply (m_seq_eq (u := lp_trail p) (v := []));
      [symmetry; apply app_nil_r|constructor; exact St|].
    constructor. }
  destruct M as (c' & M). apply (match_of_matches M).
Qed.

(** X1: [parseTaskLine] accepts exactly the lines that can be cut into:
    white space, [- [], one of space, [x], [X], then [] ], a title of at
    least one character without line terminator, an optional due date, an
    optional assignee, an optional identifier comment (each with optional
    white space in front of and inside it), and white space up to the end. *)
Theorem task_line_grammar (l : str) (i : nat) :
  (exists pt, parseTaskLine l i = Some pt)
  <-> exists p, partsOk p /\ l = lineText p.
Proof.
  split.
  - intros (pt & P). apply parse_inv in P. destruct P as (p & Ok & E & _).
    exists p. auto.
  - intros (p & Ok & ->). destruct (parts_match Ok) as (m & E).
    unfold parseTaskLine. rewrite E. eauto.
Qed.

End TaskGrammar.

(* ------------------------------------------------------------------ *)
(** ** The fields of a parsed task *)

Lemma spaces_rev (s : str) : spaces s -> spaces (rev s).
Proof.
  unfold spaces. rewrite !Forall_forall. intros H x I.
  apply H. apply in_rev. exact I.
Qed.

(** [trim] cuts white space off both ends. *)
Lemma trim_split (s : str) :
  exists a b, spaces a /\ spaces b /\ s = a ++ Js.trim s ++ b
              /\ (Js.trim s = [] \/ trimmed (Js.trim s) = true).
Proof.
  destruct (trimStart_split s) as (a & Sa & Es & Ha).
  destruct (trimStart_split (rev (Js.trimStart s))) as (b & Sb & Eb & Hb).
  exists a, (rev b). split; [exact Sa|]. split; [apply spaces_rev; exact Sb|].
  unfold Js.trim, Js.trimEnd.
  set (u := Js.trimStart s) in *.
  set (v := Js.trimStart (rev u)) in *.
  assert (Eu : u = rev v ++ rev b).
  { rewrite <- rev_app_distr, <- Eb, rev_involutive. reflexivity. }
  split.
  - rewrite Es at 1. rewrite Eu at 1. reflexivity.
  - destruct v as [|y v'] eqn:Ev; [left; reflexivity|]. right.
    unfold trimmed.
    destruct (rev (y :: v')) as [|x r] eqn:Er.
    { apply (f_equal (@List.length N)) in Er. rewrite length_rev in Er.
      discriminate. }
    assert (Hx : Js.is_space x = false).
    { rewrite Eu in Ha. simpl in Ha. exact Ha. }
    assert (Hl : last (x :: r) 0%N = y).
    { rewrite <- Er. simpl. apply last_last. }
    rewrite Hl, Hx, Hb. reflexivity.
Qed.

Lemma trim_idem (s : str) : Js.trim (Js.trim s) = Js.trim s.
Proof.
  destruct (trim_split s) as (a & b & _ & _ & _ & [E|T]).
  - rewrite E. reflexivity.
  - apply trim_trimmed. exact T.
Qed.

Lemma trim_dots (s : str) : dots s -> dots (Js.trim s).
Proof.
  intros D. destruct (trim_split s) as (a & b & _ & _ & E & _).
  unfold dots in *. rewrite E in D. rewrite !Forall_app in D. tauto.
Qed.

(** X2: what [parseTaskLine] returns on a line it accepts: the line and its
    number as given; the completion flag read off the box that follows the
    indentation; a title without white space at its ends and without line
    terminator; an identifier that is a non-empty run of word characters; a
    due date of the form [dddd-dd-dd]; an assignee name that is not empty,
    has no white space at its ends and no line terminator. *)
Theorem parsed_fields_shape (l : str) (i : nat) (pt : ParsedTask) :
  parseTaskLine l i = Some pt ->
  line pt = l /\ lineNumber pt = i
  /\ (exists indent flag rest,
        spaces indent /\ l = indent ++ DASH_BOX ++ [flag] ++ BOX_END ++ rest
        /\ p_completed pt = negb (N.eqb flag 32))
  /\ Js.trim (p_name pt) = p_name pt /\ dots (p_name pt)
  /\ (forall g, asanaGid pt = Some g -> wordy g)
  /\ (forall d, dueDate pt = Some d -> is_date d = true)
  /\ (forall a, p_assignee pt = Some a -> trimmed a = true /\ dots a).
Proof.
  intros P. apply parse_inv in P.
  destruct P as (p & (Si & Fl & Nt & Dt & Od & Oa & Og & St) & El & ->).
  unfold taskOfParts. cbn [line lineNumber p_completed p_name asanaGid dueDate
                            p_assignee].
  split; [reflexivity|]. split; [reflexivity|]. split.
  { exists (lp_indent p), (lp_flag p). eexists. split; [exact Si|].
    split; [|reflexivity]. rewrite El. unfold lineText. reflexivity. }
  split; [apply trim_idem|]. split; [apply trim_dots; exact Dt|].
  split; [|split].
  - intros g G. destruct (lp_gid p) as [[[[w0 w1] g'] w2]|]; [|discriminate].
    inversion G; subst. apply Og.
  - intros d D. destruct (lp_due p) as [[[w1 w2] d']|]; [|discriminate].
    inversion D; subst. apply Od.
  - intros a A. destruct (lp_assignee p) as [[[w1 w2] a']|]; [|discriminate].
    destruct Oa as (_ & _ & _ & Da). unfold or_null in A.
    destruct (Js.truthy (Js.trim a')) eqn:T; [|discriminate].
    inversion A; subst a. split; [|apply trim_dots; exact Da].
    destruct (trim_split a') as (_ & _ & _ & _ & _ & [E|Tr]); auto.
    rewrite E in T. discriminate.
Qed.

Lemma parsed_fields_shape_witness :
  let l := Js.lit "  - [X] Ship it " ++ CALENDAR ++ Js.lit " 2025-01-20 "
           ++ BUST ++ Js.lit " Alice  <!-- asana:42 -->" in
  exists pt,
    parseTaskLine l 7 = Some pt
    /\ line pt = l /\ lineNumber pt = 7
    /\ (exists indent flag rest,
          spaces indent /\ l = indent ++ DASH_BOX ++ [flag] ++ BOX_END ++ rest
          /\ p_completed pt = negb (N.eqb flag 32))
    /\ Js.trim (p_name pt) = p_name pt /\ dots (p_name pt)
    /\ (forall g, asanaGid pt = Some g -> wordy g)
    /\ (forall d, dueDate pt = Some d -> is_date d = true)
    /\ (forall a, p_assignee pt = Some a -> trimmed a = true /\ dots a).
Proof.
  intros l. eexists. split; [vm_compute; reflexivity|].
  apply (@parsed_fields_shape l 7). vm_compute. reflexivity.
Defined.

(* ------------------------------------------------------------------ *)
(** ** Identifier comments *)

Section GidComment.

Import Re ReFacts.

(** X3: [line.match(ASANA_GID_REGEX)] finds an identifier exactly on the
    lines that hold an identifier comment -- [<!--], [asana:], a non-empty
    run of word characters, [-->], with optional white space around the
    key and the identifier -- and the identifier it returns is that of such
    a comment of the line. *)
Theorem gid_comment_found (l : str) :
  (forall g, gidMatch l = Some g ->
             exists pre ws1 ws2 post,
               spaces ws1 /\ wordy g /\ spaces ws2
               /\ l = pre ++ commentText ws1 g ws2 ++ post)
  /\ (gidMatch l = None <->
      ~ exists pre ws1 g ws2 post,
          spaces ws1 /\ wordy g /\ spaces ws2
          /\ l = pre ++ commentText ws1 g ws2 ++ post).
Proof.
  assert (F : forall g, gidMatch l = Some g ->
             exists pre ws1 ws2 post,
               spaces ws1 /\ wordy g /\ spaces ws2
               /\ l = pre ++ commentText ws1 g ws2 ++ post).
  { intros g G. unfold gidMatch, match_, ASANA_GID_REGEX in G.
    destruct (search_from l (GID_COMMENT 1) l) as [m|] eqn:Sr; [|discriminate].
    apply search_sound in Sr. destruct Sr as (pre & b & El & E).
    apply exec_sound in E. destruct E as (u & post & c' & -> & M & K).
    inversion K; subst c'. apply gid_comment_inv in M.
    destruct M as (ws1 & g' & ws2 & -> & S1 & Wg & S2 & ->).
    simpl in G. inversion G; subst g'.
    exists pre, ws1, ws2, post. repeat split; auto; apply Wg. }
  split; [exact F|]. split.
  - intros G (pre & ws1 & g & ws2 & post & S1 & Wg & S2 & ->).
    destruct (gidMatch_finds pre post S1 Wg S2) as (g' & G'). congruence.
  - intros N. destruct (gidMatch l) as [g|] eqn:G; auto.
    exfalso. apply N. destruct (F g eq_refl) as (pre & ws1 & ws2 & post & H).
    exists pre, ws1, g, ws2, post. exact H.
Qed.

End GidComment.

(** X4: on the line [formatTaskLine] writes for a clean task, the first
    identifier comment is the one it wrote: the rewrite takes the line to
    carry the identifier of the task. *)
Theorem formatted_line_carries_gid (t : AsanaTask) (sd sa : bool) :
  wfTask t = true ->
  gidMatch (formatTaskLine t sd sa) = Some (gid t)
  /\ carried (formatTaskLine t sd sa) = Some (gid t).
Proof.
  intros W. split; [apply gidMatch_formatted|apply carried_formatted]; exact W.
Qed.

Lemma formatted_line_carries_gid_witness :
  let t := {| gid := Js.lit "111"; name := Js.lit "Mail <alice@example.org>";
              completed := false; due_on := Some (Js.lit "2025-01-20");
              assignee := Some {| ref_gid := Js.lit "9";
                                  ref_name := Js.lit "Alice" |};
              permalink_url := []; notes := []; memberships := [] |} in
  gidMatch (formatTaskLine t true true) = Some (Js.lit "111")
  /\ carried (formatTaskLine t true true) = Some (Js.lit "111").
Proof.
  intros t. apply (@formatted_line_carries_gid t true true). reflexivity.
Defined.

(* ------------------------------------------------------------------ *)
(** ** What [parseNoteContent] reads *)

Section NoteParser.

Lemma h1_not_task (l : str) (i : nat) :
  Js.startsWith H1 l = true -> parseTaskLine l i = None.
Proof.
  intros H. destruct (parseTaskLine l i) as [pt|] eqn:P; auto.
  apply parse_line_head in P. destruct P as (indent & rest & S & ->).
  exfalso. destruct indent as [|x indent].
  - discriminate H.
  - inversion S as [|? ? Hx _]; subst. simpl in H.
    unfold H1 in H. rewrite startsWith_cons in H.
    destruct (N.eqb_spec 35 x) as [<-|]; discriminate.
Qed.

Lemma h1_not_h2 (l : str) :
  Js.startsWith H1 l = true -> Js.startsWith H2 l = false.
Proof.
  intros H. apply startsWith_spec in H. destruct H as (r & ->). reflexivity.
Qed.

Lemma blank_spaces (l : str) : Js.eqb (Js.trim l) [] = true -> spaces l.
Proof.
  intros H. apply eqb_eq in H.
  destruct (trim_split l) as (a & b & Sa & Sb & E & _).
  rewrite H in E. rewrite E. unfold spaces in *. rewrite !Forall_app.
  repeat split; auto.
Qed.

Lemma blank_not_task (l : str) (i : nat) :
  Js.eqb (Js.trim l) [] = true -> parseTaskLine l i = None.
Proof.
  intros H. apply blank_spaces in H.
  destruct (parseTaskLine l i) as [pt|] eqn:P; auto.
  apply parse_line_head in P. destruct P as (indent & rest & _ & ->).
  exfalso. unfold spaces in H. rewrite Forall_app in H. destruct H as (_ & H).
  inversion H as [|? ? Hx _]. discriminate Hx.
Qed.

Lemma blank_not_h2 (l : str) :
  Js.eqb (Js.trim l) [] = true -> Js.startsWith H2 l = false.
Proof.
  intros H. apply blank_spaces in H.
  destruct (Js.startsWith H2 l) eqn:E; auto.
  apply startsWith_spec in E. destruct E as (r & ->).
  inversion H as [|? ? Hx _]. discriminate Hx.
Qed.

(** One step of the loop on a line of the body. *)
Lemma body_step (i : nat) (l : str) (st : NoteState) :
  ns_inFrontmatter st = false ->
  Nat.eqb i 0 && Js.eqb l FENCE = false ->
  let st' := parseNote_step i l st in
  ns_inFrontmatter st' = false
  /\ ns_frontmatterDone st' = ns_frontmatterDone st
  /\ ns_frontmatter st' = ns_frontmatter st
  /\ ns_tasks st' = ns_tasks st ++ taskReadings i [l]
  /\ ns_currentSection st'
     = (if Js.startsWith H2 l then sectionTitle l else ns_currentSection st)
  /\ ns_sections st'
     = (if Js.startsWith H2 l
        then ensureSection (sectionTitle l) (ns_sections st)
        else match parseTaskLine l i with
             | Some p =>
                 pushInto (ns_currentSection st) p
                   (ensureSection (ns_currentSection st) (ns_sections st))
             | None => ns_sections st
             end)
  /\ ns_header st'
     = (if ns_frontmatterDone st && negb (ns_headerDone st)
           && Js.startsWith H1 l
        then l else ns_header st)
  /\ ns_headerDone st'
     = (ns_headerDone st || (ns_frontmatterDone st && Js.startsWith H1 l)).
Proof.
  intros Hin F. cbv zeta. unfold parseNote_step. rewrite F, Hin.
  assert (B : let st' := parseNote_body i l st in
              ns_inFrontmatter st' = false
              /\ ns_frontmatterDone st' = ns_frontmatterDone st
              /\ ns_frontmatter st' = ns_frontmatter st
              /\ ns_tasks st' = ns_tasks st ++ taskReadings i [l]
              /\ ns_currentSection st'
                 = (if Js.startsWith H2 l then sectionTitle l
                    else ns_currentSection st)
              /\ ns_sections st'
                 = (if Js.startsWith H2 l
                    then ensureSection (sectionTitle l) (ns_sections st)
                    else match parseTaskLine l i with
                         | Some p =>
                             pushInto (ns_currentSection st) p
                               (ensureSection (ns_currentSection st)
                                  (ns_sections st))
                         | None => ns_sections st
                         end)
              /\ ns_header st' = ns_header st
              /\ ns_headerDone st' = ns_headerDone st).
  { cbv zeta. unfold parseNote_body. cbn [taskReadings].
    destruct (Js.startsWith H2 l) eqn:Hh.
    - rewrite (heading_not_task l i Hh). cbn. rewrite app_nil_r. auto 10.
    - destruct (parseTaskLine l i) as [p|]; cbn; rewrite ?app_nil_r; auto 10. }
  cbv zeta in B. destruct B as (B1 & B2 & B3 & B4 & B5 & B6 & B7 & B8).
  destruct (ns_frontmatterDone st) eqn:Fd, (ns_headerDone st) eqn:Hd;
    cbn [andb negb orb];
    try (rewrite B1, B2, B3, B4, B5, B6, B7, B8; repeat split; auto;
         destruct (Js.startsWith H1 l); reflexivity).
  destruct (Js.startsWith H1 l) eqn:Hh.
  - cbn [taskReadings]. rewrite (h1_not_task l i Hh), (h1_not_h2 l Hh).
    cbn. rewrite ?app_nil_r, ?Hin, ?Fd, ?Hd. auto 10.
  - destruct (Js.eqb (Js.trim l) []) eqn:Bl.
    + cbn [taskReadings]. rewrite (blank_not_task l i Bl), (blank_not_h2 l Bl).
      rewrite ?app_nil_r, ?Hin, ?Fd, ?Hd. auto 10.
    + rewrite B1, B2, B3, B4, B5, B6, B7, B8, ?Fd, ?Hd. auto 10.
Qed.

(** The sections map files the tasks [pairs] and knows the titles [heads]. *)
Let files (m : JsMap.t (list ParsedTask))
    (pairs : list (str * ParsedTask)) (heads : list str) : Prop :=
  forall k,
    JsMap.get k m
    = if existsb (Js.eqb k) heads
         || existsb (fun e => Js.eqb (fst e) k) pairs
      then Some (filedUnder k pairs) else None.

Lemma existsb_filter_nil (A : Type) (f : A -> bool) (l : list A) :
  existsb f l = false -> filter f l = [].
Proof.
  induction l as [|x l IH]; simpl; auto.
  destruct (f x); simpl; [discriminate|exact IH].
Qed.

Lemma eqb_sym (a b : str) : Js.eqb a b = Js.eqb b a.
Proof.
  destruct (Js.eqb a b) eqn:E.
  - apply eqb_eq in E. subst. symmetry. apply eqb_refl.
  - symmetry. apply eqb_neq. apply eqb_neq in E. congruence.
Qed.

Lemma files_known (m : JsMap.t (list ParsedTask))
      (pairs : list (str * ParsedTask)) (heads : list str) (cs : str) :
  files m pairs heads ->
  JsMap.get cs (ensureSection cs m) = Some (filedUnder cs pairs)
  /\ (JsMap.get cs m = None ->
      existsb (Js.eqb cs) heads = false
      /\ existsb (fun e => Js.eqb (fst e) cs) pairs = false)
  /\ forall k, Js.eqb k cs = false ->
               JsMap.get k (ensureSection cs m) = JsMap.get k m.
Proof.
  intros F. unfold ensureSection, JsMap.has. pose proof (F cs) as Fc.
  destruct (JsMap.get cs m) as [v|] eqn:G.
  - split; [|split; [discriminate|auto]]. rewrite G, Fc.
    destruct (existsb (Js.eqb cs) heads
              || existsb (fun e => Js.eqb (fst e) cs) pairs);
      [reflexivity|discriminate].
  - destruct (existsb (Js.eqb cs) heads
              || existsb (fun e => Js.eqb (fst e) cs) pairs) eqn:C;
      [discriminate|].
    apply orb_false_iff in C. destruct C as (C1 & C2).
    split; [|split; auto].
    + rewrite get_set_same. unfold filedUnder.
      rewrite (existsb_filter_nil _ _ C2). reflexivity.
    + intros k N. apply get_set_other. apply eqb_neq. exact N.
Qed.

Lemma files_heading (m : JsMap.t (list ParsedTask))
      (pairs : list (str * ParsedTask)) (heads : list str) (cs : str) :
  files m pairs heads -> files (ensureSection cs m) pairs (heads ++ [cs]).
Proof.
  intros F k. destruct (files_known cs F) as (K1 & K2 & K3).
  rewrite existsb_app. cbn [existsb]. rewrite orb_false_r.
  destruct (Js.eqb k cs) eqn:E.
  - apply eqb_eq in E. subst k. rewrite K1, orb_true_r. reflexivity.
  - rewrite (K3 k E), orb_false_r. apply F.
Qed.

Lemma files_task (m : JsMap.t (list ParsedTask))
      (pairs : list (str * ParsedTask)) (heads : list str)
      (cur : str) (p : ParsedTask) :
  files m pairs heads ->
  files (pushInto cur p (ensureSection cur m)) (pairs ++ [(cur, p)]) heads.
Proof.
  intros F k. destruct (files_known cur F) as (K1 & K2 & K3).
  unfold pushInto. rewrite K1.
  rewrite existsb_app. cbn [existsb fst]. rewrite orb_false_r.
  unfold filedUnder. rewrite filter_app, map_app. cbn [filter fst].
  destruct (Js.eqb k cur) eqn:E.
  - apply eqb_eq in E. subst k. rewrite get_set_same, eqb_refl, !orb_true_r.
    reflexivity.
  - rewrite get_set_other by (apply eqb_neq; exact E).
    rewrite (K3 k E), (eqb_sym cur k), E, orb_false_r. cbn [map].
    rewrite app_nil_r. apply F.
Qed.

Lemma taskReadings_cons (i : nat) (l : str) (ls : list str) :
  taskReadings i (l :: ls) = taskReadings i [l] ++ taskReadings (S i) ls.
Proof. cbn [taskReadings]. destruct (parseTaskLine l i); reflexivity. Qed.

(** The loop over the body. *)
Lemma body_steps_exact (body : list str) :
  forall i st,
    ns_inFrontmatter st = false ->
    (i = 0 -> match body with l :: _ => l <> FENCE | [] => True end) ->
    let st' := for_lines parseNote_step i body st in
    ns_tasks st' = ns_tasks st ++ taskReadings i body
    /\ ns_frontmatter st' = ns_frontmatter st
    /\ ns_header st'
       = (if ns_frontmatterDone st && negb (ns_headerDone st)
          then match find (Js.startsWith H1) body with
               | Some l => l
               | None => ns_header st
               end
          else ns_header st)
    /\ forall pairs heads,
         files (ns_sections st) pairs heads ->
         files (ns_sections st')
               (pairs ++ filedReadings (ns_currentSection st) i body)
               (heads ++ headingTitles body).
Proof.
  induction body as [|l body IH]; intros i st Hin H0; cbv zeta.
  - cbn. rewrite app_nil_r. repeat split.
    + destruct (ns_frontmatterDone st && negb (ns_headerDone st)); reflexivity.
    + intros pairs heads F. rewrite !app_nil_r. exact F.
  - assert (F : Nat.eqb i 0 && Js.eqb l FENCE = false).
    { destruct i; simpl; auto. apply eqb_neq. auto. }
    destruct (body_step i l st Hin F)
      as (S1 & S2 & S3 & S4 & S5 & S6 & S7 & S8).
    destruct (IH (S i) (parseNote_step i l st) S1 ltac:(discriminate))
      as (I1 & I2 & I3 & I4).
    cbn [for_lines]. rewrite I1, I2, I3, S2, S3, S4, S7, S8.
    split; [rewrite <- app_assoc, <- taskReadings_cons; reflexivity|].
    split; [reflexivity|]. split.
    + cbn [find].
      destruct (ns_frontmatterDone st), (ns_headerDone st),
        (Js.startsWith H1 l); reflexivity.
    + intros pairs heads Fl. cbn [filedReadings]. unfold headingTitles.
      cbn [filter]. fold (headingTitles body).
      rewrite S5, S6 in I4. revert I4.
      destruct (Js.startsWith H2 l) eqn:Hh; intros I4.
      * cbn [map]. intros k.
        pose proof (I4 pairs (heads ++ [sectionTitle l])
                       (files_heading (sectionTitle l) Fl) k) as Ik.
        rewrite <- app_assoc in Ik. exact Ik.
      * revert I4. destruct (parseTaskLine l i) as [p|] eqn:P; intros I4.
        -- intros k.
           pose proof (I4 (pairs ++ [(ns_currentSection st, p)]) heads
                          (files_task (ns_currentSection st) p Fl) k) as Ik.
           rewrite <- app_assoc in Ik. exact Ik.
        -- apply I4. exact Fl.
Qed.

(** The loop inside the frontmatter block. *)
Lemma frontmatter_steps_exact (ls : list str) :
  forall i st,
    0 < i ->
    ns_inFrontmatter st = true ->
    let st' := for_lines parseNote_step i (fst (untilFence ls)) st in
    ns_tasks st' = ns_tasks st
    /\ ns_sections st' = ns_sections st
    /\ ns_currentSection st' = ns_currentSection st
    /\ ns_header st' = ns_header st
    /\ ns_headerDone st' = ns_headerDone st
    /\ ns_frontmatter st'
       = ns_frontmatter st
         ++ flat_map (fun l => l ++ NL) (fst (untilFence ls))
    /\ ((ns_inFrontmatter st' = false /\ ns_frontmatterDone st' = true)
        \/ snd (untilFence ls) = []).
Proof.
  induction ls as [|l ls IH]; intros i st Hi Hin; cbv zeta.
  - cbn. rewrite app_nil_r. auto 10.
  - cbn [untilFence]. destruct (Js.eqb l FENCE) eqn:EF.
    + cbn. unfold parseNote_step. destruct i; [lia|]. cbn [Nat.eqb andb].
      rewrite Hin, EF. cbn. rewrite app_nil_r. auto 10.
    + destruct (untilFence ls) as [a b] eqn:EU. cbn [fst snd] in *.
      cbn [for_lines flat_map].
      assert (Es : parseNote_step i l st
                   = {| ns_tasks := ns_tasks st;
                        ns_sections := ns_sections st;
                        ns_currentSection := ns_currentSection st;
                        ns_frontmatter := ns_frontmatter st ++ l ++ NL;
                        ns_header := ns_header st;
                        ns_inFrontmatter := true;
                        ns_frontmatterDone := ns_frontmatterDone st;
                        ns_headerDone := ns_headerDone st |}).
      { unfold parseNote_step. destruct i; [lia|]. cbn [Nat.eqb andb].
        rewrite Hin, EF. reflexivity. }
      rewrite Es.
      match goal with
      | |- context [for_lines parseNote_step (S i) a ?s] =>
          destruct (IH (S i) s ltac:(lia) eq_refl)
            as (I1 & I2 & I3 & I4 & I5 & I6 & I7)
      end.
      cbn in I1, I2, I3, I4, I5, I6.
      rewrite I1, I2, I3, I4, I5, I6, <- !app_assoc. auto 10.
Qed.

End NoteParser.

(** [parseNoteContent] in closed form: the frontmatter block is set aside,
    the lines after it are read one by one. *)
Lemma parseNote_exact (content : str) :
  let lines := Js.split_nl content in
  let fm := frontmatterOf lines in
  let body := bodyOf lines in
  let filed := filedReadings UNSECTIONED (List.length fm) body in
  let p := parseNoteContent content in
  tasks p = taskReadings (List.length fm) body
  /\ frontmatter p = flat_map (fun l => l ++ NL) fm
  /\ header p = match fm with
                | [] => []
                | _ :: _ => match find (Js.startsWith H1) body with
                            | Some l => l
                            | None => []
                            end
                end
  /\ forall k,
       JsMap.get k (sections p)
       = if existsb (Js.eqb k) (headingTitles body)
            || existsb (fun e => Js.eqb (fst e) k) filed
         then Some (filedUnder k filed) else None.
Proof.
  cbv zeta. unfold parseNoteContent. cbn [tasks frontmatter header sections].
  generalize (Js.split_nl content). intros lines.
  unfold frontmatterOf, bodyOf, splitFrontmatter.
  set (st0 := {| ns_tasks := []; ns_sections := [];
                 ns_currentSection := UNSECTIONED;
                 ns_frontmatter := []; ns_header := [];
                 ns_inFrontmatter := false; ns_frontmatterDone := false;
                 ns_headerDone := false |}).
  assert (F0 : forall k,
             JsMap.get k (ns_sections st0)
             = if existsb (Js.eqb k) []
                  || existsb (fun e : str * ParsedTask => Js.eqb (fst e) k) []
               then Some (filedUnder k []) else None)
    by reflexivity.
  destruct lines as [|l ls]; [cbn; auto|].
  destruct (Js.eqb l FENCE) eqn:E.
  - pose proof (untilFence_app ls) as EA.
    destruct (untilFence ls) as [a b] eqn:EU. cbn [fst snd] in *. subst ls.
    change (for_lines parseNote_step 0 (l :: a ++ b) st0)
      with (for_lines parseNote_step 1 (a ++ b) (parseNote_step 0 l st0)).
    rewrite for_lines_app.
    assert (S0 : parseNote_step 0 l st0
                 = {| ns_tasks := []; ns_sections := [];
                      ns_currentSection := UNSECTIONED;
                      ns_frontmatter := l ++ NL; ns_header := [];
                      ns_inFrontmatter := true; ns_frontmatterDone := false;
                      ns_headerDone := false |}).
    { unfold parseNote_step. cbn [Nat.eqb andb]. rewrite E. reflexivity. }
    rewrite S0.
    match goal with
    | |- context [for_lines parseNote_step 1 a ?s] =>
        pose proof (@frontmatter_steps_exact (a ++ b) 1 s ltac:(lia) eq_refl)
          as FS
    end.
    rewrite EU in FS. cbn [fst snd] in FS. cbv zeta in FS.
    destruct FS as (F1 & F2 & F3 & F4 & F5 & F6 & F7).
    cbn [ns_tasks ns_sections ns_currentSection ns_header ns_headerDone
         ns_frontmatter] in F1, F2, F3, F4, F5, F6.
    cbn [List.length flat_map].
    destruct F7 as [(F7 & F8)| ->].
    + match goal with
      | |- context [for_lines parseNote_step (1 + List.length a) b ?s] =>
          pose proof (@body_steps_exact b (1 + List.length a) s F7
                        ltac:(intros ?; lia)) as BS
      end.
      cbv zeta in BS. destruct BS as (B1 & B2 & B3 & B4).
      rewrite B1, B2, B3, F1, F4, F5, F6, F8. cbn [andb negb app].
      repeat split; auto.
      intros k. pose proof (B4 [] []) as Bk. rewrite F2, F3 in Bk.
      apply (Bk F0).
    + cbn [for_lines taskReadings filedReadings find]. rewrite F1, F4, F6.
      repeat split; auto. intros k. rewrite F2. apply F0.
  - cbn [fst snd List.length flat_map].
    pose proof (@body_steps_exact (l :: ls) 0 st0 eq_refl) as BS.
    cbv zeta in BS. destruct BS as (B1 & B2 & B3 & B4).
    { intros _. apply eqb_neq. exact E. }
    rewrite B1, B2, B3. cbn. repeat split; auto.
    intros k. apply (B4 [] [] F0).
Qed.

(** X5: the tasks of a note are what [parseTaskLine] reads off the lines
    after the frontmatter block, in order, each with its line index in the
    note; a line of the frontmatter block is never a task. *)
Theorem note_tasks_exact (content : str) :
  let lines := Js.split_nl content in
  tasks (parseNoteContent content)
  = taskReadings (List.length (frontmatterOf lines)) (bodyOf lines).
Proof. apply parseNote_exact. Qed.

(** X6: the sections map of a note has a key for the title of every
    [## ] heading of the body and for every title a task is filed under, and
    no other; under a key it holds the tasks whose nearest heading above has
    that title ([(Unsectioned)] before the first heading), in the order of
    their lines. *)
Theorem note_sections_exact (content : str) (k : str) :
  let lines := Js.split_nl content in
  let body := bodyOf lines in
  let filed :=
    filedReadings UNSECTIONED (List.length (frontmatterOf lines)) body in
  JsMap.get k (sections (parseNoteContent content))
  = if existsb (Js.eqb k) (headingTitles body)
       || existsb (fun e => Js.eqb (fst e) k) filed
    then Some (filedUnder k filed) else None.
Proof. apply parseNote_exact. Qed.

(** X7: the header of a note is the first line after the frontmatter block
    that starts with [# ], wherever it stands; a note without a frontmatter
    block has no header, whatever its first line is. *)
Theorem note_header_rule (content : str) :
  let lines := Js.split_nl content in
  header (parseNoteContent content)
  = match frontmatterOf lines with
    | [] => []
    | _ :: _ => match find (Js.startsWith H1) (bodyOf lines) with
                | Some l => l
                | None => []
                end
    end.
Proof. apply parseNote_exact. Qed.

Lemma untilFence_none (ls : list str) :
  ~ In FENCE ls -> untilFence ls = (ls, []).
Proof.
  induction ls as [|l ls IH]; intros N; simpl; auto.
  destruct (Js.eqb l FENCE) eqn:E.
  - apply eqb_eq in E. subst. exfalso. apply N. simpl; auto.
  - rewrite IH by (intros I; apply N; simpl; auto). reflexivity.
Qed.

Lemma lines_with_newlines (lines : list str) :
  lines <> [] ->
  flat_map (fun l => l ++ NL) lines = Js.join_nl lines ++ NL.
Proof.
  induction lines as [|l ls IH]; [congruence|]. intros _.
  destruct ls as [|l' ls].
  - simpl. rewrite app_nil_r. reflexivity.
  - change (flat_map (fun l => l ++ NL) (l :: l' :: ls))
      with ((l ++ NL) ++ flat_map (fun l => l ++ NL) (l' :: ls)).
    rewrite IH by discriminate.
    change (Js.join_nl (l :: l' :: ls))
      with (l ++ 10%N :: Js.join_nl (l' :: ls)).
    rewrite <- !app_assoc. reflexivity.
Qed.

(** X8: a note that opens with a fence that no later line closes is all
    frontmatter: [parseNoteContent] returns the whole content (and a final
    newline) as the frontmatter text, and no task, no section, no header. *)
Theorem unterminated_frontmatter_swallows_note (content : str) (ls : list str) :
  Js.split_nl content = FENCE :: ls ->
  ~ In FENCE ls ->
  let p := parseNoteContent content in
  frontmatter p = content ++ NL
  /\ tasks p = [] /\ sections p = [] /\ header p = [].
Proof.
  intros El N. cbv zeta.
  destruct (parseNote_exact content) as (T & Fm & Hd & Sc).
  assert (Ef : frontmatterOf (Js.split_nl content) = FENCE :: ls
               /\ bodyOf (Js.split_nl content) = []).
  { rewrite El. unfold frontmatterOf, bodyOf, splitFrontmatter.
    rewrite eqb_refl, (untilFence_none ls N). auto. }
  destruct Ef as (Ef & Eb). rewrite Ef, Eb in *.
  repeat split.
  - rewrite Fm, lines_with_newlines by discriminate.
    rewrite <- El, join_split. reflexivity.
  - exact T.
  - destruct (sections (parseNoteContent content)) as [|[k v] m] eqn:Es; auto.
    specialize (Sc k). cbn in Sc. rewrite eqb_refl in Sc. discriminate.
  - exact Hd.
Qed.

Lemma unterminated_frontmatter_swallows_note_witness :
  let content := Js.lit "---
asana_project_gid: P
# Proj
## Doing
- [ ] Draft <!-- asana:111 -->" in
  let p := parseNoteContent content in
  frontmatter p = content ++ NL
  /\ tasks p = [] /\ sections p = [] /\ header p = [].
Proof.
  intros content.
  apply (@unterminated_frontmatter_swallows_note content
           [Js.lit "asana_project_gid: P"; Js.lit "# Proj"; Js.lit "## Doing";
            Js.lit "- [ ] Draft <!-- asana:111 -->"]).
  - reflexivity.
  - simpl. intuition discriminate.
Defined.

(* ------------------------------------------------------------------ *)
(** ** Grouping tasks by section *)

Section Groups.

Variable pg : str.

Let key (t : AsanaTask) : str := sectionNameOf pg t.

Let step (m : JsMap.t (list AsanaTask)) (task : AsanaTask) :=
  let sectionName := sectionNameOf pg task in
  let m0 := if JsMap.has sectionName m then m else JsMap.set sectionName [] m in
  match JsMap.get sectionName m0 with
  | Some l => JsMap.set sectionName (l ++ [task]) m0
  | None => m0
  end.

Lemma set_new_flat (k : str) (m : JsMap.t (list AsanaTask)) :
  JsMap.get k m = None ->
  flat_map snd (JsMap.set k [] m) = flat_map snd m.
Proof.
  induction m as [|[k' v] m IH]; simpl; auto.
  destruct (Js.eqb k k'); [discriminate|]. intros G. simpl. rewrite IH; auto.
Qed.

Lemma set_push_flat (k : str) (l : list AsanaTask) (x : AsanaTask)
      (m : JsMap.t (list AsanaTask)) :
  JsMap.get k m = Some l ->
  Permutation (flat_map snd (JsMap.set k (l ++ [x]) m)) (flat_map snd m ++ [x]).
Proof.
  induction m as [|[k' v] m IH]; simpl; [discriminate|].
  destruct (Js.eqb k k') eqn:E; intros G; simpl.
  - inversion G; subst v. rewrite <- !app_assoc.
    apply Permutation_app_head. apply Permutation_app_comm.
  - rewrite <- app_assoc. apply Permutation_app_head. apply IH. exact G.
Qed.

(** The map after the tasks [done]: under a section name, the tasks of that
    section in their order; no key without a task. *)
Let grouped (m : JsMap.t (list AsanaTask)) (done : list AsanaTask) : Prop :=
  forall k,
    JsMap.get k m
    = if existsb (fun t => Js.eqb (key t) k) done
      then Some (filter (fun t => Js.eqb (key t) k) done) else None.

Lemma grouped_step (m : JsMap.t (list AsanaTask)) (done : list AsanaTask)
      (t : AsanaTask) :
  grouped m done ->
  NoDup (map fst m) ->
  Permutation (flat_map snd m) done ->
  grouped (step m t) (done ++ [t])
  /\ NoDup (map fst (step m t))
  /\ Permutation (flat_map snd (step m t)) (done ++ [t]).
Proof.
  intros G N P. unfold step. cbv zeta. fold (key t).
  set (m0 := if JsMap.has (key t) m then m else JsMap.set (key t) [] m).
  assert (G0 : JsMap.get (key t) m0
               = Some (filter (fun x => Js.eqb (key x) (key t)) done)
               /\ (forall k, Js.eqb k (key t) = false ->
                             JsMap.get k m0 = JsMap.get k m)
               /\ NoDup (map fst m0)
               /\ flat_map snd m0 = flat_map snd m).
  { unfold m0, JsMap.has. pose proof (G (key t)) as Gk.
    destruct (JsMap.get (key t) m) as [v|] eqn:Gm.
    - repeat split; auto. rewrite Gm, Gk.
      destruct (existsb (fun x => Js.eqb (key x) (key t)) done);
        [reflexivity|discriminate].
    - destruct (existsb (fun x => Js.eqb (key x) (key t)) done) eqn:C;
        [discriminate|].
      repeat split.
      + rewrite get_set_same, (existsb_filter_nil _ _ C). reflexivity.
      + intros k Nk. apply get_set_other. apply eqb_neq. exact Nk.
      + apply nodup_set. exact N.
      + apply set_new_flat. exact Gm. }
  destruct G0 as (G1 & G2 & G3 & G4). rewrite G1.
  split; [|split].
  - intros k. rewrite existsb_app, filter_app. cbn [existsb filter].
    rewrite orb_false_r.
    destruct (Js.eqb k (key t)) eqn:E.
    + apply eqb_eq in E. subst k.
      rewrite get_set_same, eqb_refl, orb_true_r. reflexivity.
    + rewrite get_set_other by (apply eqb_neq; exact E).
      rewrite (G2 k E), (eqb_sym (key t) k), E, orb_false_r, app_nil_r.
      apply G.
  - apply nodup_set. exact G3.
  - eapply Permutation_trans; [apply set_push_flat; exact G1|].
    rewrite G4. apply Permutation_app_tail. exact P.
Qed.

Lemma groupBySection_grouped (ts : list AsanaTask) :
  grouped (groupBySection pg ts) ts
  /\ NoDup (map fst (groupBySection pg ts))
  /\ Permutation (flat_map snd (groupBySection pg ts)) ts.
Proof.
  unfold groupBySection. fold step.
  assert (Gen : forall qs m done,
             grouped m done -> NoDup (map fst m) ->
             Permutation (flat_map snd m) done ->
             grouped (fold_left step qs m) (done ++ qs)
             /\ NoDup (map fst (fold_left step qs m))
             /\ Permutation (flat_map snd (fold_left step qs m)) (done ++ qs)).
  { induction qs as [|q qs IH]; intros m done G N P.
    - rewrite app_nil_r. auto.
    - destruct (grouped_step q G N P) as (G' & N' & P').
      simpl. replace (done ++ q :: qs) with ((done ++ [q]) ++ qs)
        by (rewrite <- app_assoc; reflexivity).
      apply IH; auto. }
  apply (Gen ts [] []).
  - intros k. reflexivity.
  - constructor.
  - constructor.
Qed.

(** X9: grouping by section (the loop that fills [sectionMap] in
    [generateNoteContent] and [newTasksBySection] in [syncProject]) splits
    the task list: the keys are distinct, every group is not empty and holds
    exactly the tasks of its section in their order in the list, and the
    groups together hold every task once. *)
Theorem groups_partition_tasks (ts : list AsanaTask) :
  NoDup (map fst (groupBySection pg ts))
  /\ Permutation (flat_map snd (groupBySection pg ts)) ts
  /\ forall s l,
       In (s, l) (groupBySection pg ts) ->
       l <> []
       /\ l = filter (fun t => Js.eqb (sectionNameOf pg t) s) ts.
Proof.
  destruct (groupBySection_grouped ts) as (G & N & P).
  split; [exact N|]. split; [exact P|].
  intros s l I. apply (in_get _ _ _ N) in I. rewrite (G s) in I.
  destruct (existsb (fun t => Js.eqb (key t) s) ts) eqn:C; [|discriminate].
  inversion I; subst l. split; auto.
  apply existsb_exists in C. destruct C as (t & It & Et).
  intros E.
  assert (X : In t (filter (fun t => Js.eqb (key t) s) ts))
    by (apply filter_In; auto).
  change (filter (fun t => Js.eqb (key t) s) ts = []) in E.
  rewrite E in X. destruct X.
Qed.

End Groups.

(* ------------------------------------------------------------------ *)
(** ** The note [generateNoteContent] writes *)

Lemma parse_formatted_core (t : AsanaTask) (sd sa : bool) (i : nat) :
  wfTask t = true ->
  exists pt,
    parseTaskLine (formatTaskLine t sd sa) i = Some pt
    /\ p_name pt = name t /\ p_completed pt = completed t
    /\ asanaGid pt = Some (gid t).
Proof.
  intros W.
  assert (P : exists pt, parseTaskLine (formatTaskLine t sd sa) i = Some pt
                         /\ p_name pt = name t).
  { destruct (wfTask_spec t W) as (Wt & _).
    destruct (wf_title_spec _ Wt) as (Tt & _).
    unfold parseTaskLine, Re.match_.
    rewrite (@search_formatted t sd sa W). eexists. split; [reflexivity|].
    cbn [p_name]. unfold partCaptures, partsOfTask.
    cbn [lp_due lp_assignee lp_gid lp_flag].
    destruct (due_on t) as [d|]; [destruct (sd && Js.truthy d)|];
      (destruct (assignee t) as [a|];
       [destruct (sa && Js.truthy (ref_name a))|]);
      cbn [app Re.cap_get Nat.eqb]; apply trim_trimmed; exact Tt. }
  destruct P as (pt & P & Nm). exists pt.
  destruct (@parse_formatted_id t sd sa i pt W P) as (G & C). auto.
Qed.

Lemma taskReadings_app (a b : list str) :
  forall i, taskReadings i (a ++ b)
            = taskReadings i a ++ taskReadings (i + List.length a) b.
Proof.
  induction a as [|l a IH]; intros i; simpl.
  - rewrite Nat.add_0_r. reflexivity.
  - rewrite IH. replace (S i + List.length a) with (i + S (List.length a)) by lia.
    destruct (parseTaskLine l i); reflexivity.
Qed.

Lemma taskReadings_in (ls : list str) (pt : ParsedTask) :
  forall i, In pt (taskReadings i ls) ->
            exists l j, In l ls /\ parseTaskLine l j = Some pt.
Proof.
  induction ls as [|l ls IH]; intros i H; simpl in H; [destruct H|].
  destruct (parseTaskLine l i) as [p|] eqn:P.
  - destruct H as [<-|H].
    + exists l, i. simpl; auto.
    + destruct (IH _ H) as (l' & j & I & E). exists l', j. simpl; auto.
  - destruct (IH _ H) as (l' & j & I & E). exists l', j. simpl; auto.
Qed.

Section Generated.

Variables (pname pg : str) (my : bool) (ts : list AsanaTask).
Variables (sd sa sc : bool).

Let shown : list AsanaTask := shownTasks sc ts.

Let groups := groupBySection pg shown.

Let fmt (t : AsanaTask) : str := formatTaskLine t sd sa.

Let bodyLines : list str := generatedBody pname pg ts sd sa sc.

Let generated (stamp : str) : str :=
  generateNoteContent pname pg my ts sd sa sc stamp.

Lemma generated_lines (stamp : str) :
  generated stamp = Js.join_nl (generatedHead pg my stamp ++ bodyLines).
Proof.
  unfold generated, generateNoteContent. cbv zeta.
  fold (shownTasks sc ts). fold shown. fold groups.
  f_equal.
  assert (G : forall gs acc,
             fold_left
               (fun lines (entry : str * list AsanaTask) =>
                  let (sectionName, sectionTasks) := entry in
                  ((if negb (Js.eqb sectionName UNSECTIONED)
                    then lines ++ [H2 ++ sectionName; []] else lines)
                   ++ map (fun t => formatTaskLine t sd sa) sectionTasks)
                  ++ [[]])
               gs acc
             = acc ++ flat_map (groupLines sd sa) gs).
  { induction gs as [|[s l] gs IH]; intros acc; simpl.
    - rewrite app_nil_r. reflexivity.
    - rewrite IH. unfold groupLines at 2. cbn [fst snd].
      destruct (negb (Js.eqb s UNSECTIONED)); rewrite <- !app_assoc; reflexivity. }
  rewrite G. reflexivity.
Qed.

Hypothesis gidLine : singleLine pg = true.
Hypothesis nameLine : singleLine pname = true.
Hypothesis cleanTasks : forallb wfTask ts = true.
Hypothesis sectionLines :
  forallb (fun t => singleLine (sectionNameOf pg t)) ts = true.

Lemma shown_in (t : AsanaTask) :
  In t shown -> In t ts /\ negb sc && completed t = false.
Proof.
  unfold shown, shownTasks. destruct sc; [auto|].
  rewrite filter_In, negb_true_iff. intros (I & C). rewrite C. auto.
Qed.



(** The lines of the body: an empty line, the title, a heading of a section
    of a shown task, or the line of a shown task. *)
Lemma bodyLines_kinds (b : str) :
  In b bodyLines ->
  b = [] \/ b = H1 ++ pname
  \/ (exists t, In t shown /\ b = H2 ++ sectionNameOf pg t)
  \/ exists t, In t shown /\ b = fmt t.
Proof.
  unfold bodyLines, generatedBody. fold shown. fold groups.
  rewrite in_app_iff. intros [H|H].
  - simpl in H. intuition.
  - apply in_flat_map in H. destruct H as ([s l] & Ig & Ib).
    unfold groupLines in Ib. cbn [fst snd] in Ib.
    destruct (groupBySection_sound _ _ _ _ Ig) as ((t & It & Et) & Sub).
    rewrite !in_app_iff in Ib. destruct Ib as [Ib|[Ib|Ib]].
    + destruct (negb (Js.eqb s UNSECTIONED)); [|destruct Ib].
      destruct Ib as [<-|[<-|[]]]; auto.
      right. right. left. exists t. subst s. auto.
    + apply in_map_iff in Ib. destruct Ib as (t' & <- & It').
      right. right. right. exists t'. auto.
    + destruct Ib as [<-|[]]. auto.
Qed.


Lemma bodyLines_single (b : str) : In b bodyLines -> ~ In 10%N b.
Proof.
  intros H. apply bodyLines_kinds in H.
  destruct H as [->|[->|[(t & It & ->)|(t & It & ->)]]].
  - intros [].
  - rewrite in_app_iff. apply singleLine_spec in nameLine.
    unfold H1. simpl. intuition discriminate.
  - apply shown_in in It. destruct It as (It & _).
    pose proof sectionLines as S. rewrite forallb_forall in S.
    specialize (S t It). apply singleLine_spec in S.
    rewrite in_app_iff. unfold H2. simpl. intuition discriminate.
  - apply shown_in in It. destruct It as (It & _).
    pose proof cleanTasks as W. rewrite forallb_forall in W.
    apply format_single. apply W. exact It.
Qed.

Lemma generated_split (stamp : str) :
  singleLine stamp = true ->
  Js.split_nl (generated stamp) = generatedHead pg my stamp ++ bodyLines.
Proof.
  intros Hs. rewrite generated_lines. apply split_join_lines; [discriminate|].
  apply Forall_app. split.
  - apply singleLine_spec in gidLine. apply singleLine_spec in Hs.
    unfold generatedHead. repeat constructor.
    + unfold FENCE. simpl. intuition discriminate.
    + rewrite !in_app_iff. simpl. intuition discriminate.
    + rewrite in_app_iff. destruct my; simpl; intuition discriminate.
    + apply lastSync_single. exact Hs.
    + unfold FENCE. simpl. intuition discriminate.
  - apply Forall_forall. apply bodyLines_single.
Qed.

Lemma generated_parts (stamp : str) :
  frontmatterOf (generatedHead pg my stamp ++ bodyLines)
  = generatedHead pg my stamp
  /\ bodyOf (generatedHead pg my stamp ++ bodyLines) = bodyLines.
Proof. split; reflexivity. Qed.

Lemma fmt_readings (l : list AsanaTask) :
  (forall t, In t l -> wfTask t = true) ->
  forall i,
    map (fun pt => (p_name pt, p_completed pt, asanaGid pt))
        (taskReadings i (map fmt l))
    = map (fun t => (name t, completed t, Some (gid t))) l.
Proof.
  induction l as [|t l IH]; intros W i; [reflexivity|].
  cbn [map taskReadings].
  destruct (@parse_formatted_core t sd sa i (W t (or_introl eq_refl)))
    as (pt & P & En & Ec & Eg).
  fold (fmt t) in P. rewrite P. cbn [map]. rewrite En, Ec, Eg.
  rewrite IH by (intros; apply W; simpl; auto). reflexivity.
Qed.

Lemma group_readings (gs : list (str * list AsanaTask)) :
  (forall s l t, In (s, l) gs -> In t l -> wfTask t = true) ->
  forall i,
    map (fun pt => (p_name pt, p_completed pt, asanaGid pt))
        (taskReadings i (flat_map (groupLines sd sa) gs))
    = map (fun t => (name t, completed t, Some (gid t))) (flat_map snd gs).
Proof.
  induction gs as [|[s l] gs IH]; intros W i; [reflexivity|].
  cbn [flat_map snd]. rewrite taskReadings_app, !map_app.
  rewrite IH by (intros s' l' t I; apply (W s' l' t); simpl; auto).
  f_equal. unfold groupLines. cbn [fst snd].
  rewrite taskReadings_app, taskReadings_app, !map_app.
  assert (Hd : forall j,
             taskReadings j (if negb (Js.eqb s UNSECTIONED)
                             then [H2 ++ s; []] else []) = []).
  { intros j. destruct (negb (Js.eqb s UNSECTIONED)); [|reflexivity].
    cbn [taskReadings].
    rewrite heading_not_task by (apply startsWith_spec; eauto).
    rewrite blank_not_task by reflexivity. reflexivity. }
  rewrite Hd. cbn [map app].
  assert (Tl : forall j, taskReadings j [[]] = []).
  { intros j. cbn [taskReadings]. rewrite blank_not_task by reflexivity.
    reflexivity. }
  rewrite Tl. cbn [map]. rewrite app_nil_r.
  apply (fmt_readings l). intros t It. apply (W s l t); simpl; auto.
Qed.

Lemma body_readings (i : nat) :
  map (fun pt => (p_name pt, p_completed pt, asanaGid pt))
      (taskReadings i bodyLines)
  = map (fun t => (name t, completed t, Some (gid t))) (flat_map snd groups).
Proof.
  unfold bodyLines, generatedBody. fold shown. fold groups.
  rewrite taskReadings_app.
  assert (Hd : taskReadings i [[]; H1 ++ pname; []] = []).
  { cbn [taskReadings]. rewrite !(blank_not_task []) by reflexivity.
    rewrite h1_not_task by (apply startsWith_spec; eauto). reflexivity. }
  rewrite Hd. cbn [app]. apply group_readings.
  intros s l t Ig It.
  destruct (groupBySection_sound _ _ _ _ Ig) as (_ & Sub).
  apply Sub in It. apply shown_in in It. destruct It as (It & _).
  pose proof cleanTasks as W. rewrite forallb_forall in W. auto.
Qed.

End Generated.

(** X10: what [generateNoteContent] writes, [parseNoteContent] reads back.
    For clean tasks, with a project identifier, a project name, section names
    and a clock reading that hold no newline: the tasks of the generated
    note are the tasks the hide filter lets through, group by group, with
    their titles, completion flags and identifiers; the groups hold each of
    these tasks once; the header is the title line. *)
Theorem generated_note_parses_back
        (projectName projectGid : str) (isMyTasks : bool)
        (asanaTasks : list AsanaTask)
        (showDue showAssignee showCompleted : bool) (stamp : str) :
  singleLine projectGid = true ->
  singleLine projectName = true ->
  singleLine stamp = true ->
  forallb wfTask asanaTasks = true ->
  forallb (fun t => singleLine (sectionNameOf projectGid t)) asanaTasks = true ->
  let shown := shownTasks showCompleted asanaTasks in
  let groups := groupBySection projectGid shown in
  let p := parseNoteContent
             (generateNoteContent projectName projectGid isMyTasks asanaTasks
                showDue showAssignee showCompleted stamp) in
  map (fun pt => (p_name pt, p_completed pt, asanaGid pt)) (tasks p)
  = map (fun t => (name t, completed t, Some (gid t))) (flat_map snd groups)
  /\ Permutation (flat_map snd groups) shown
  /\ header p = H1 ++ projectName.
Proof.
  intros Hg Hn Hs W S. cbv zeta.
  destruct (parseNote_exact
              (generateNoteContent projectName projectGid isMyTasks asanaTasks
                 showDue showAssignee showCompleted stamp))
    as (T & _ & Hd & _).
  rewrite (@generated_split projectName projectGid isMyTasks asanaTasks
             showDue showAssignee showCompleted Hg Hn W S stamp Hs) in T, Hd.
  destruct (generated_parts projectName projectGid isMyTasks asanaTasks
              showDue showAssignee showCompleted stamp) as (Ef & Eb).
  rewrite Ef, Eb in T, Hd. split; [|split].
  - rewrite T.
    apply (@body_readings projectName projectGid isMyTasks asanaTasks
             showDue showAssignee showCompleted W).
  - apply groupBySection_grouped.
  - rewrite Hd. unfold generatedHead, generatedBody. cbn [app find].
    assert (E1 : Js.startsWith H1 [] = false) by reflexivity.
    assert (E2 : Js.startsWith H1 (H1 ++ projectName) = true)
      by (apply startsWith_spec; eauto).
    rewrite E1, E2. reflexivity.
Qed.

Lemma generated_note_parses_back_witness :
  let ts := [Sample.taskIn "Doing" "111" "Draft" false;
             Sample.task "222" "Loose end" false;
             Sample.taskIn "Doing" "333" "Old" true;
             Sample.taskIn "Later" "444" "Plan" false] in
  let shown := shownTasks false ts in
  let groups := groupBySection (Js.lit "P") shown in
  let p := parseNoteContent
             (generateNoteContent (Js.lit "Proj") (Js.lit "P") false ts
                true true false (Js.lit "T0")) in
  map (fun pt => (p_name pt, p_completed pt, asanaGid pt)) (tasks p)
  = map (fun t => (name t, completed t, Some (gid t))) (flat_map snd groups)
  /\ Permutation (flat_map snd groups) shown
  /\ header p = H1 ++ Js.lit "Proj".
Proof.
  intros ts.
  apply (@generated_note_parses_back (Js.lit "Proj") (Js.lit "P") false ts
           true true false (Js.lit "T0")); reflexivity.
Defined.

(* ------------------------------------------------------------------ *)
(** ** A pass over a generated note *)


Section Regenerate.

Variables (settings : AsanaSyncSettings) (sp : SyncedProject).
Variables (ts : list AsanaTask) (stamp0 : str).

Let sd := showDueDates settings.
Let sa := showAssignees settings.
Let sc := showCompletedTasks settings.
Let body : list str :=
  generatedBody (projectName sp) (projectGid sp) ts sd sa sc.
Let G (stamp : str) : str :=
  generateNoteContent (projectName sp) (projectGid sp) (isMyTasks sp) ts
    sd sa sc stamp.
Let m := taskMapOf ts.
Let f := rewriteBodyLine settings m.
Let fmt (t : AsanaTask) : str := formatTaskLine t sd sa.

Hypothesis gidLine : singleLine (projectGid sp) = true.
Hypothesis nameLine : singleLine (projectName sp) = true.
Hypothesis stampLine : singleLine stamp0 = true.
Hypothesis cleanTasks : forallb wfTask ts = true.
Hypothesis sectionLines :
  forallb (fun t => singleLine (sectionNameOf (projectGid sp) t)) ts = true.
Hypothesis uniq : NoDup (map gid ts).
Hypothesis titlePlain : gidMatch (H1 ++ projectName sp) = None.

















End Regenerate.

Section RegenerateRun.

Context {Remote : Type} {RC : RemoteClient Remote}.


End RegenerateRun.


(* ------------------------------------------------------------------ *)
(** ** What a run leaves alone *)

Section Frame.

Context {Remote : Type} {RC : RemoteClient Remote}.

(** X12: a run of [syncProject] changes the vault at the path of its note
    and nowhere else, save that it creates the folder of the note when
    nothing is there; this holds whether the run returns or throws. *)
Theorem run_touches_only_its_note
        (settings : AsanaSyncSettings) (sp : SyncedProject)
        (w : World Remote) (p : str) :
  p <> notePath sp ->
  (p = folderOf (notePath sp) -> getAbstractFileByPath p (vault w) <> None) ->
  getAbstractFileByPath p (vault (snd (syncProject settings sp w)))
  = getAbstractFileByPath p (vault w).
Proof.
  intros Np Fp. apply eqb_neq in Np.
  unfold syncProject. unfold bind at 1. rewrite fetchTasks_run.
  destruct (fetched (asanaAccessToken settings) sp (remote w)) as [ts|];
    [|reflexivity].
  unfold bind at 1. unfold getWorld at 1.
  destruct (getAbstractFileByPath (notePath sp) (vault w)) as [[content|]|] eqn:F.
  - destruct (pushCompletions_spec (asanaAccessToken settings) (taskMapOf ts)
                (existingTaskMapOf (tasks (parseNoteContent content))) 0 w)
      as (w1 & pushes & (R1 & V1 & N1 & E1) & P).
    unfold bind at 1. rewrite R1.
    unfold bind at 1. rewrite fetchTasks_run.
    destruct (fetched (asanaAccessToken settings) sp (remote w1)) as [ts1|];
      [|cbn; rewrite V1; reflexivity].
    unfold bind at 1. unfold getWorld at 1.
    match goal with |- context [if Js.eqb ?a ?b then _ else _] =>
      destruct (Js.eqb a b) end;
      unfold bind, ret, vaultModify, getWorld, setVault, emit; cbn;
      rewrite ?Np, V1; reflexivity.
  - destruct (Js.truthy (folderOf (notePath sp))) eqn:Tr;
      [destruct (getAbstractFileByPath (folderOf (notePath sp)) (vault w)) eqn:Fo|];
      unfold bind, ret, vaultCreateFolder, vaultCreate, bind, getWorld,
        setVault, emit, throw; cbn; rewrite ?F; cbn; try reflexivity.
    assert (Ne : Js.eqb (notePath sp) (folderOf (notePath sp)) = false).
    { apply eqb_neq. intros E. symmetry in E. revert E.
      apply folderOf_proper. exact Tr. }
    rewrite ?Ne, ?F; cbn.
    destruct (Js.eqb p (folderOf (notePath sp))) eqn:E; [|reflexivity].
    apply eqb_eq in E. destruct (Fp E). rewrite E. exact Fo.
  - destruct (Js.truthy (folderOf (notePath sp))) eqn:Tr;
      [destruct (getAbstractFileByPath (folderOf (notePath sp)) (vault w)) eqn:Fo|];
      unfold bind, ret, vaultCreateFolder, vaultCreate, bind, getWorld,
        setVault, emit, throw; cbn; rewrite ?F; cbn; rewrite ?Np; try reflexivity.
    assert (Ne : Js.eqb (notePath sp) (folderOf (notePath sp)) = false).
    { apply eqb_neq. intros E. symmetry in E. revert E.
      apply folderOf_proper. exact Tr. }
    rewrite ?Ne, ?F; cbn; rewrite ?Np.
    destruct (Js.eqb p (folderOf (notePath sp))) eqn:E; [|reflexivity].
    apply eqb_eq in E. destruct (Fp E). rewrite E. exact Fo.
Qed.


End Frame.

Lemma run_touches_only_its_note_witness :
  let w := {| vault := [(Js.lit "Other.md", TFile (Js.lit "keep"));
                        (Js.lit "Asana", TFolder)];
              remote := [Sample.task "111" "Draft" false];
              now := Js.lit "T0"; events := [] |} in
  getAbstractFileByPath (Js.lit "Other.md")
    (vault (snd (syncProject (Sample.settings "tok" true) Sample.proj w)))
  = Some (TFile (Js.lit "keep")).
Proof.
  intros w.
  rewrite (@run_touches_only_its_note (list AsanaTask) ListRemote.client
             (Sample.settings "tok" true) Sample.proj w (Js.lit "Other.md")).
  - reflexivity.
  - intros E; vm_compute in E; discriminate E.
  - intros E; vm_compute in E; discriminate E.
Defined.


(* ------------------------------------------------------------------ *)
(** ** Two entries under one identifier *)

Lemma findLast_snoc (A : Type) (f : A -> bool) (l : list A) (x : A) :
  findLast f (l ++ [x]) = if f x then Some x else findLast f l.
Proof. unfold findLast. rewrite rev_app_distr. reflexivity. Qed.

Lemma get_set_cases (V : Type) (k g : str) (v : V) (m : JsMap.t V) :
  JsMap.get k (JsMap.set g v m)
  = if Js.eqb g k then Some v else JsMap.get k m.
Proof.
  destruct (Js.eqb g k) eqn:E.
  - apply eqb_eq in E. subst. apply get_set_same.
  - apply get_set_other. apply eqb_neq in E. congruence.
Qed.

Lemma taskMap_last (ts : list AsanaTask) (g : str) :
  JsMap.get g (taskMapOf ts) = findLast (fun t => Js.eqb (gid t) g) ts.
Proof.
  unfold taskMapOf. induction ts as [|t ts IH] using rev_ind; [reflexivity|].
  rewrite fold_left_app, findLast_snoc. simpl. rewrite get_set_cases, IH.
  reflexivity.
Qed.

Lemma existingTaskMap_last (ps : list ParsedTask) (g : str) :
  JsMap.get g (existingTaskMapOf ps) = findLast (carriesGid g) ps.
Proof.
  unfold existingTaskMapOf. induction ps as [|p ps IH] using rev_ind;
    [reflexivity|].
  rewrite fold_left_app, findLast_snoc. simpl. unfold carriesGid at 1.
  destruct (asanaGid p) as [g'|]; [|exact IH].
  destruct (Js.truthy g'); [|exact IH].
  rewrite get_set_cases, IH. reflexivity.
Qed.

(** X14: the maps of a run are keyed by identifier and a later entry
    replaces an earlier one: of two tasks the remote reports under one
    identifier the run works with the last, and of two lines of the note
    that carry one identifier the lower one decides the completion state
    that is compared and pushed.  Lines whose identifier is the empty
    string are never looked up. *)
Theorem later_entry_replaces_earlier (content : str)
        (ts : list AsanaTask) (g : str) :
  JsMap.get g (taskMapOf ts) = findLast (fun t => Js.eqb (gid t) g) ts
  /\ JsMap.get g (existingTaskMapOf (tasks (parseNoteContent content)))
     = findLast (carriesGid g)
         (taskReadings (List.length (frontmatterOf (Js.split_nl content)))
                       (bodyOf (Js.split_nl content))).
Proof.
  split; [apply taskMap_last|].
  rewrite existingTaskMap_last. f_equal.
  exact (proj1 (parseNote_exact content)).
Qed.

(* ------------------------------------------------------------------ *)
(** ** The change detector, flip by flip *)

Lemma currentState_readings (lines : list str) (i : nat) (m : JsMap.t bool) :
  for_lines
    (fun i line m =>
       match parseTaskLine line i with
       | Some parsed =>
           match asanaGid parsed with
           | Some g => if Js.truthy g then JsMap.set g (p_completed parsed) m else m
           | None => m
           end
       | None => m
       end) i lines m
  = fold_left
      (fun m p => match asanaGid p with
                  | Some g => if Js.truthy g then JsMap.set g (p_completed p) m else m
                  | None => m
                  end)
      (taskReadings i lines) m.
Proof.
  revert i m; induction lines as [|l ls IH]; intros i m; simpl; [reflexivity|].
  destruct (parseTaskLine l i) as [p|]; simpl; apply IH.
Qed.

Lemma currentState_last (lines : list str) (g : str) :
  JsMap.get g (currentStateOf lines)
  = option_map p_completed (findLast (carriesGid g) (taskReadings 0 lines)).
Proof.
  unfold currentStateOf. rewrite currentState_readings.
  induction (taskReadings 0 lines) as [|p ps IH] using rev_ind; [reflexivity|].
  rewrite fold_left_app, findLast_snoc. simpl. unfold carriesGid at 1.
  destruct (asanaGid p) as [g'|]; [|exact IH].
  destruct (Js.truthy g'); [|exact IH].
  rewrite get_set_cases, IH. simpl. destruct (Js.eqb g' g); reflexivity.
Qed.

Lemma currentState_keys (lines : list str) :
  NoDup (map fst (currentStateOf lines)).
Proof.
  unfold currentStateOf. rewrite currentState_readings.
  assert (G : forall ps (m : JsMap.t bool),
             NoDup (map fst m) ->
             NoDup (map fst (fold_left
               (fun m p => match asanaGid p with
                           | Some g => if Js.truthy g
                                       then JsMap.set g (p_completed p) m else m
                           | None => m
                           end) ps m))).
  { induction ps as [|p ps IH]; intros m N; simpl; auto.
    apply IH. destruct (asanaGid p) as [g|]; auto.
    destruct (Js.truthy g); auto. apply nodup_set. exact N. }
  apply G. constructor.
Qed.

Section Flips.

Context {Remote : Type} {RC : RemoteClient Remote}.

Lemma pushChanges_exact (token : str) (lastState : JsMap.t bool)
      (entries : list (str * bool)) (w : World Remote) :
  exists w' evs,
    remote_only (pushChanges token lastState entries) w tt w' evs
    /\ map pushOf evs = map Some (changesOf lastState entries).
Proof.
  revert w; induction entries as [|[g c] rest IH]; intros w; simpl.
  - exists w, []. unfold remote_only, ret. rewrite app_nil_r. auto.
  - destruct (JsMap.get g lastState) as [was|] eqn:G; [|apply IH].
    destruct (negb (Bool.eqb was c)) eqn:D; [|apply IH].
    destruct (tryUpdate_spec token g c w) as (ok & w1 & (R1 & V1 & N1 & E1) & _).
    destruct (IH w1) as (w2 & evs & (R2 & V2 & N2 & E2) & F).
    exists w2, (EvUpdate g c ok :: evs). split.
    + unfold remote_only, bind. rewrite R1, R2, V2, N2, E2, V1, N1, E1.
      rewrite <- app_assoc. auto.
    + simpl. rewrite F. reflexivity.
Qed.

(** X15: a scan of a note whose path has a snapshot sends one update for
    every identifier of the note that the snapshot holds with the other
    value, with the value the note shows now, in the order of the map of
    the current state, and no other update; the map has one entry per
    identifier, and where several lines carry an identifier the lowest one
    is the one compared.  The scan leaves the vault alone, and the new
    snapshot is recorded whether the updates succeed or fail. *)
Theorem detector_pushes_each_flip_once
        (settings : AsanaSyncSettings) (filePath content : str)
        (lastKnownState : JsMap.t (JsMap.t bool)) (lastState : JsMap.t bool)
        (w : World Remote) :
  Js.truthy (asanaAccessToken settings) = true ->
  getAbstractFileByPath filePath (vault w) = Some (TFile content) ->
  JsMap.get filePath lastKnownState = Some lastState ->
  let current := currentStateOf (Js.split_nl content) in
  exists w' evs,
    processCheckboxChanges settings filePath lastKnownState w
    = (Some (JsMap.set filePath current lastKnownState), w')
    /\ vault w' = vault w
    /\ events w' = events w ++ evs
    /\ map pushOf evs = map Some (changesOf lastState current)
    /\ NoDup (map fst current)
    /\ forall g,
         JsMap.get g current
         = option_map p_completed
             (findLast (carriesGid g) (taskReadings 0 (Js.split_nl content))).
Proof.
  intros T F L current.
  destruct (pushChanges_exact (asanaAccessToken settings) lastState current w)
    as (w' & evs & (R & V & N & E) & P).
  exists w', evs. unfold processCheckboxChanges. rewrite T. cbn [negb].
  unfold bind at 1. unfold getWorld at 1. rewrite F, L.
  fold current. unfold bind. rewrite R. unfold ret.
  repeat split; auto.
  - apply currentState_keys.
  - intros g. apply currentState_last.
Qed.

End Flips.

Lemma detector_pushes_each_flip_once_witness :
  let content := Js.lit "- [x] Draft <!-- asana:111 -->" in
  let w := Sample.world (Some content) [Sample.task "111" "Draft" false] "T0" in
  let lks := [(Sample.path, [(Js.lit "111", false)])] in
  exists w' evs,
    processCheckboxChanges (Sample.settings "tok" true) Sample.path lks w
    = (Some (JsMap.set Sample.path (currentStateOf (Js.split_nl content)) lks),
       w')
    /\ vault w' = vault w
    /\ events w' = events w ++ evs
    /\ map pushOf evs = [Some (Js.lit "111", true)].
Proof.
  intros content w lks.
  destruct (@detector_pushes_each_flip_once (list AsanaTask) ListRemote.client
              (Sample.settings "tok" true) Sample.path content lks
              [(Js.lit "111", false)] w
              ltac:(reflexivity) ltac:(reflexivity) ltac:(reflexivity))
    as (w' & evs & R & V & E & P & _).
  exists w', evs. repeat split; auto.
Defined.

(* ------------------------------------------------------------------ *)
(** ** The first two runs of a project *)

Section FirstRuns.

Context {Remote : Type} {RC : RemoteClient Remote}.



End FirstRuns.


(* ------------------------------------------------------------------ *)
(** ** [syncAllProjects]: every project, whatever the others do *)

Section AllProjects.

Context {Remote : Type} {RC : RemoteClient Remote}.

Lemma syncEach_run (settings : AsanaSyncSettings)
      (projects : list SyncedProject) :
  forall (totals : Stats) (notices : list str) (w : World Remote),
    let os := outcomes settings projects w in
    syncEach settings projects totals notices w
    = (Some ({| added := added totals + total added os;
                updated := updated totals + total updated os;
                completionChanges :=
                  completionChanges totals + total completionChanges os |},
             notices ++ map (fun o => failureNotice (fst o)) (filter failed os)),
       afterRuns settings projects w).
Proof.
  induction projects as [|p rest IH]; intros totals notices w; cbv zeta.
  - simpl. unfold ret, total. simpl. rewrite !Nat.add_0_r, app_nil_r.
    destruct totals; reflexivity.
  - cbn [syncEach outcomes afterRuns fold_left].
    destruct (syncProject settings p w) as [[stats|] w'] eqn:R;
      rewrite IH; cbn [fst snd filter failed map]; unfold total;
      cbn [map list_sum fold_right snd fst added updated completionChanges];
      fold (afterRuns settings rest w').
    + rewrite !Nat.add_assoc. reflexivity.
    + rewrite <- app_assoc. reflexivity.
Qed.

(** X17: [syncAllProjects] never throws.  With an access token it runs
    [syncProject] once for every configured project, in the configured
    order, each run starting from the world the one before left; a run
    that throws does not keep the later projects from running.  Without a
    token it runs nothing. *)
Theorem sync_all_runs_every_project
        (settings : AsanaSyncSettings) (w : World Remote) :
  exists notices,
    syncAllProjects settings w
    = (Some notices,
       if Js.truthy (asanaAccessToken settings)
       then afterRuns settings (syncedProjects settings) w
       else w).
Proof.
  unfold syncAllProjects.
  destruct (Js.truthy (asanaAccessToken settings)); cbn [negb];
    [|eexists; reflexivity].
  destruct (syncedProjects settings) as [|p rest] eqn:P;
    [eexists; reflexivity|].
  cbn [List.length Nat.eqb]. unfold bind. rewrite syncEach_run.
  eexists. reflexivity.
Qed.

(** X18: what [syncAllProjects] tells the user when it has a token and at
    least one project: one failure notice per run that threw, in project
    order, and then at most one summary.  The summary gives the tasks
    added and the completion changes, each summed over the runs that
    returned and each left out when zero; the number of updated lines is
    never shown, and when both sums are zero there is no summary. *)
Theorem sync_all_notices
        (settings : AsanaSyncSettings) (w : World Remote) :
  Js.truthy (asanaAccessToken settings) = true ->
  syncedProjects settings <> [] ->
  let os := outcomes settings (syncedProjects settings) w in
  let a := total added os in
  let c := total completionChanges os in
  fst (syncAllProjects settings w)
  = Some (map (fun o => failureNotice (fst o)) (filter failed os)
          ++ match a, c with
             | 0, 0 => []
             | S _, 0 => [Js.lit "Asana Sync: " ++ ofNat a ++ Js.lit " added"]
             | 0, S _ =>
                 [Js.lit "Asana Sync: " ++ ofNat c
                  ++ Js.lit " completion changes"]
             | S _, S _ =>
                 [Js.lit "Asana Sync: " ++ ofNat a ++ Js.lit " added"
                  ++ Js.lit ", " ++ ofNat c ++ Js.lit " completion changes"]
             end).
Proof.
  intros T P os a c. unfold syncAllProjects. rewrite T. cbn [negb].
  destruct (syncedProjects settings) as [|p rest] eqn:E; [congruence|].
  cbn [List.length Nat.eqb]. unfold bind. rewrite syncEach_run.
  fold os. cbn [fst snd added completionChanges Nat.add]. fold a. fold c.
  unfold ret. cbn [fst app]. f_equal. f_equal.
  destruct a, c; cbn [Nat.ltb Nat.leb app List.length joinWith];
    rewrite <- ?app_assoc; reflexivity.
Qed.

End AllProjects.

Lemma sync_all_notices_witness :
  let blocked :=
    {| projectGid := Js.lit "Q"; projectName := Js.lit "Blocked";
       notePath := Js.lit "Asana"; isMyTasks := false;
       userTaskListGid := None |} in
  let settings :=
    {| asanaAccessToken := Js.lit "tok";
       syncedProjects := [blocked; Sample.proj];
       showDueDates := true; showAssignees := true;
       showCompletedTasks := true |} in
  let w := Sample.world None [Sample.task "111" "Draft" false] "T0" in
  fst (syncAllProjects settings w)
  = Some [Js.lit "Asana Sync: Failed to sync " ++ [34%N] ++ Js.lit "Blocked"
          ++ [34%N];
          Js.lit "Asana Sync: 1 added"].
Proof.
  intros blocked settings w.
  rewrite (@sync_all_notices (list AsanaTask) ListRemote.client settings w).
  - vm_compute. reflexivity.
  - reflexivity.
  - discriminate.
Defined.

(* ------------------------------------------------------------------ *)
(** ** The paged fetch of [asanaApi.ts] *)

Section Paging.

Context {Server : Type} {HC : Api.Http Server}.

Lemma asanaRequest_page (token path : str) (offset : option str) (s s' : Server)
      (data : list AsanaTask) (next : option str) :
  Api.asanaRequest token (Api.pageEndpoint path offset) (Js.lit "GET") None s
  = (Some (Api.TaskPage data next), s')
  <-> answersPage token path offset s data next s'.
Proof.
  unfold Api.asanaRequest, answersPage. split.
  - destruct (Api.requestUrl _ s) as [[[st js]|] s1]; [|discriminate].
    cbn [Api.status Api.json].
    destruct (st <? 200) eqn:A; [discriminate|].
    destruct (300 <=? st) eqn:B; [discriminate|]. cbn [orb].
    intros H; inversion H; subst. exists st. split; [reflexivity|].
    apply Nat.ltb_ge in A. apply Nat.leb_gt in B. lia.
  - intros (st & -> & A). cbn [Api.status Api.json].
    replace (st <? 200) with false by (symmetry; apply Nat.ltb_ge; lia).
    replace (300 <=? st) with false by (symmetry; apply Nat.leb_gt; lia).
    reflexivity.
Qed.

Lemma fetchPages_served (token path : str) (pages : list (list AsanaTask))
      (offset : option str) (s s' : Server) :
  servesPages token path offset s pages s' ->
  forall (fuel : nat) (acc : list AsanaTask),
    List.length pages <= fuel ->
    Api.fetchPages fuel token path offset acc s
    = (Api.Returned (acc ++ List.concat pages), s').
Proof.
  induction 1 as [offset s data next s' A N|offset s data o s' pages s'' A T _ IH];
    intros [|fuel] acc L; simpl in L; try lia; cbn [Api.fetchPages];
    apply asanaRequest_page in A; rewrite A.
  - cbn [List.concat]. rewrite app_nil_r.
    destruct next as [o|]; [rewrite N|]; reflexivity.
  - rewrite T. rewrite IH by lia. cbn [List.concat]. rewrite app_assoc. reflexivity.
Qed.

Lemma fetchPages_returned (token path : str) (fuel : nat) :
  forall (offset : option str) (acc ts : list AsanaTask) (s s' : Server),
    Api.fetchPages fuel token path offset acc s = (Api.Returned ts, s') ->
    exists pages,
      servesPages token path offset s pages s'
      /\ ts = acc ++ List.concat pages /\ List.length pages <= fuel.
Proof.
  induction fuel as [|fuel IH]; intros offset acc ts s s' R;
    cbn [Api.fetchPages] in R; [discriminate|].
  destruct (Api.asanaRequest token (Api.pageEndpoint path offset)
              (Js.lit "GET") None s) as [[[data next|]|] s1] eqn:A;
    try discriminate.
  apply asanaRequest_page in A.
  destruct next as [o|]; [destruct (Js.truthy o) eqn:T|].
  - destruct (IH _ _ _ _ _ R) as (pages & Sv & -> & L).
    exists (data :: pages). split; [eapply serves_more; eauto|].
    cbn [List.concat List.length]. rewrite app_assoc. split; [reflexivity|lia].
  - inversion R; subst. exists [data]. split.
    + eapply serves_last; eauto.
    + cbn [List.concat List.length]. rewrite app_nil_r. split; [reflexivity|lia].
  - inversion R; subst. exists [data]. split.
    + eapply serves_last; eauto. exact I.
    + cbn [List.concat List.length]. rewrite app_nil_r. split; [reflexivity|lia].
Qed.

(** X19: [fetchProjectTasks] and [fetchUserTasks] return exactly when the
    server answers every request of the chain with a status from 200 to
    299 and a page -- the first request without offset, each further one
    with the offset the page before announced, up to the first page that
    announces none -- and what they return is the tasks of these pages in
    order.  So a result is never a part of the list: one request that
    throws, or one answer outside 200..299, and the call returns nothing. *)
Theorem paged_fetch_returns_all_pages
        (token g : str) (s s' : Server) (ts : list AsanaTask) :
  let projectPath := Js.lit "/projects/" ++ g ++ Js.lit "/tasks" in
  let listPath := Js.lit "/user_task_lists/" ++ g ++ Js.lit "/tasks" in
  ((exists fuel, Api.fetchProjectTasks fuel token g s = (Api.Returned ts, s'))
   <-> exists pages, servesPages token projectPath None s pages s'
                     /\ ts = List.concat pages)
  /\ ((exists fuel, Api.fetchUserTasks fuel token g s = (Api.Returned ts, s'))
      <-> exists pages, servesPages token listPath None s pages s'
                        /\ ts = List.concat pages).
Proof.
  cbv zeta. unfold Api.fetchProjectTasks, Api.fetchUserTasks.
  split; split.
  - intros (fuel & R). apply fetchPages_returned in R.
    destruct R as (pages & Sv & -> & _). eauto.
  - intros (pages & Sv & ->). exists (List.length pages).
    apply (fetchPages_served Sv). lia.
  - intros (fuel & R). apply fetchPages_returned in R.
    destruct R as (pages & Sv & -> & _). eauto.
  - intros (pages & Sv & ->). exists (List.length pages).
    apply (fetchPages_served Sv). lia.
Qed.

(** X20: the paged fetch makes one request per page and no more: when the
    server serves [pages], as many units of fuel as there are pages are
    enough for the call to return, and the call leaves the server in the
    state the last page left it in. *)
Theorem paged_fetch_one_request_per_page
        (token g : str) (pages : list (list AsanaTask)) (s s' : Server)
        (fuel : nat) :
  servesPages token (Js.lit "/projects/" ++ g ++ Js.lit "/tasks") None s
              pages s' ->
  List.length pages <= fuel ->
  Api.fetchProjectTasks fuel token g s = (Api.Returned (List.concat pages), s').
Proof.
  intros Sv L. unfold Api.fetchProjectTasks.
  apply (fetchPages_served Sv). exact L.
Qed.

End Paging.

Lemma paged_fetch_one_request_per_page_witness :
  let t1 := Sample.task "111" "Draft" false in
  let t2 := Sample.task "222" "Send" true in
  let page1 := {| Api.status := 200;
                  Api.json := Api.TaskPage [t1] (Some (Js.lit "next")) |} in
  let page2 := {| Api.status := 200; Api.json := Api.TaskPage [t2] None |} in
  Api.fetchProjectTasks 2 (Js.lit "tok") (Js.lit "P") [Some page1; Some page2]
  = (Api.Returned [t1; t2], []).
Proof.
  intros t1 t2 page1 page2.
  apply (@paged_fetch_one_request_per_page _ Scripted.http
           (Js.lit "tok") (Js.lit "P") [[t1]; [t2]]
           [Some page1; Some page2] [] 2).
  - eapply serves_more with (s' := [Some page2]).
    + exists 200. split; [reflexivity|lia].
    + reflexivity.
    + eapply serves_last with (next := None).
      * exists 200. split; [reflexivity|lia].
      * exact I.
  - simpl. lia.
Defined.

(* ------------------------------------------------------------------ *)
(** ** Step 3 only inserts *)

Lemma Subseq_refl (A : Type) (a : list A) : Subseq a a.
Proof. induction a; constructor; auto. Qed.

Lemma Subseq_trans (A : Type) (a b c : list A) :
  Subseq a b -> Subseq b c -> Subseq a c.
Proof.
  intros H1 H2. revert a H1. induction H2; intros a' H1.
  - exact H1.
  - inversion H1; subst; constructor; auto.
  - constructor; auto.
Qed.

Lemma Subseq_insert (A : Type) (pre ins post : list A) :
  Subseq (pre ++ post) (pre ++ ins ++ post).
Proof.
  induction pre as [|x pre IH]; simpl; [|constructor; exact IH].
  induction ins as [|y ins IH]; simpl; [apply Subseq_refl|].
  constructor. exact IH.
Qed.

Lemma splice_keeps_order (A : Type) (j : nat) (b lines : list A) :
  Subseq lines (splice j b lines).
Proof.
  unfold splice. rewrite <- (firstn_skipn j lines) at 1. apply Subseq_insert.
Qed.

Lemma splice_perm (A : Type) (j : nat) (b lines : list A) :
  Permutation (splice j b lines) (lines ++ b).
Proof.
  unfold splice. rewrite <- (firstn_skipn j lines) at 3.
  rewrite <- app_assoc. apply Permutation_app_head. apply Permutation_app_comm.
Qed.

Section Inserts.

Variables (settings : AsanaSyncSettings) (sp : SyncedProject).

Let fmt (t : AsanaTask) : str :=
  formatTaskLine t (showDueDates settings) (showAssignees settings).

Lemma placeGroup_inserts (lines : list str) (s : str) (ts : list AsanaTask) :
  exists j extra,
    placeGroup settings lines (s, ts) = splice j (extra ++ map fmt ts) lines
    /\ (extra = [] \/ extra = [[]; H2 ++ s; []]).
Proof.
  assert (App : forall b, lines ++ b = splice (List.length lines) b lines).
  { intros b. unfold splice. rewrite firstn_all, skipn_all, app_nil_r.
    reflexivity. }
  unfold placeGroup. fold fmt.
  destruct (findIndex _ lines) as [idx|];
    destruct (negb (Js.eqb s UNSECTIONED)).
  - eexists. exists []. split; [reflexivity|]. left. reflexivity.
  - eexists. exists []. split; [apply App|]. left. reflexivity.
  - eexists. exists [[]; H2 ++ s; []]. split; [apply App|]. right. reflexivity.
  - eexists. exists []. split; [apply App|]. left. reflexivity.
Qed.

Lemma placeGroups_insert (groups : list (str * list AsanaTask)) :
  forall lines,
  exists extra,
    Subseq lines (fold_left (placeGroup settings) groups lines)
    /\ Permutation (fold_left (placeGroup settings) groups lines)
                   (lines ++ map fmt (flat_map snd groups) ++ extra)
    /\ Forall (fun l => l = [] \/ exists e, In e groups /\ l = H2 ++ fst e)
              extra.
Proof.
  induction groups as [|[s ts] groups IH]; intros lines.
  - exists []. simpl. rewrite app_nil_r. repeat split; auto.
    apply Subseq_refl.
  - cbn [fold_left].
    destruct (placeGroup_inserts lines s ts) as (j & ex1 & E & Hex).
    destruct (IH (placeGroup settings lines (s, ts))) as (ex2 & S2 & P2 & F2).
    exists (ex1 ++ ex2). split; [|split].
    + eapply Subseq_trans; [|exact S2]. rewrite E. apply splice_keeps_order.
    + eapply Permutation_trans; [exact P2|]. rewrite E.
      eapply Permutation_trans;
        [apply Permutation_app_tail; apply splice_perm|].
      cbn [flat_map snd]. rewrite map_app, <- !app_assoc.
      apply Permutation_app_head.
      rewrite !app_assoc. apply Permutation_app_tail.
      rewrite <- !app_assoc.
      eapply Permutation_trans; [apply Permutation_app_swap_app|].
      apply Permutation_app_head. apply Permutation_app_comm.
    + apply Forall_app. split.
      * destruct Hex as [->| ->]; [constructor|].
        constructor; [left; reflexivity|].
        constructor;
          [right; exists (s, ts); split; [left; reflexivity|reflexivity]|].
        constructor; [left; reflexivity|constructor].
      * eapply Forall_impl; [|exact F2]. intros l [->|(e & I & ->)]; auto.
        right. exists e. split; [right; exact I|reflexivity].
Qed.

(** X21: step 3 of a run only inserts.  The lines the rewrite produced all
    stay, in their order; what is put among them is one formatted line for
    each new task and otherwise nothing but blank lines and [## ] headings
    named after the section of a new task. *)
Theorem new_tasks_are_only_inserted
        (newTasks : list AsanaTask) (lines : list str) :
  let result := appendNewTasks settings sp newTasks lines in
  exists extra,
    Subseq lines result
    /\ Permutation result (lines ++ map fmt newTasks ++ extra)
    /\ Forall (fun l => l = []
                        \/ exists t, In t newTasks
                                     /\ l = H2 ++ sectionNameOf (projectGid sp) t)
              extra.
Proof.
  cbv zeta. unfold appendNewTasks. destruct newTasks as [|t0 ts0].
  - exists []. simpl. rewrite app_nil_r. repeat split; auto.
    apply Subseq_refl.
  - set (new := t0 :: ts0).
    destruct (placeGroups_insert (groupBySection (projectGid sp) new) lines)
      as (extra & S & P & F).
    destruct (groupBySection_grouped (projectGid sp) new) as (G & N & Pg).
    exists extra. split; [exact S|]. split.
    + eapply Permutation_trans; [exact P|]. apply Permutation_app_head.
      apply Permutation_app_tail. apply Permutation_map. exact Pg.
    + eapply Forall_impl; [|exact F]. intros l [->|([s g] & I & ->)]; auto.
      right. apply (in_get _ _ _ N) in I. rewrite (G s) in I.
      destruct (existsb (fun t => Js.eqb (sectionNameOf (projectGid sp) t) s) new)
        eqn:C; [|discriminate].
      apply existsb_exists in C. destruct C as (t & It & Et).
      apply eqb_eq in Et. exists t. split; [exact It|].
      cbn [fst]. rewrite Et. reflexivity.
Qed.

End Inserts.

(* ------------------------------------------------------------------ *)
(** ** The sync stamp *)

Lemma rewriteFm_open (stamp : str) (fm : list str) :
  ~ In FENCE fm ->
  forall upd, rewriteFm stamp upd fm = map (restamp stamp) fm.
Proof.
  induction fm as [|l fm IH]; intros N upd; [reflexivity|].
  cbn [rewriteFm map]. unfold restamp at 1, isStampLine.
  destruct (Js.eqb l FENCE) eqn:E.
  { apply eqb_eq in E. subst. exfalso. apply N. left. reflexivity. }
  assert (N' : ~ In FENCE fm) by (intros I; apply N; right; exact I).
  destruct (Js.startsWith _ l); rewrite IH by exact N'; reflexivity.
Qed.

Lemma rewriteFm_closed (stamp : str) (fm : list str) :
  ~ In FENCE fm ->
  forall upd,
    rewriteFm stamp upd (fm ++ [FENCE])
    = map (restamp stamp) fm
      ++ (if upd || existsb isStampLine fm then [] else [lastSyncLine stamp])
      ++ [FENCE].
Proof.
  induction fm as [|l fm IH]; intros N upd.
  - cbn. rewrite orb_false_r. destruct upd; reflexivity.
  - cbn [app rewriteFm map existsb]. unfold restamp at 1.
    destruct (Js.eqb l FENCE) eqn:E.
    { apply eqb_eq in E. subst. exfalso. apply N. left. reflexivity. }
    assert (N' : ~ In FENCE fm) by (intros I; apply N; right; exact I).
    fold (isStampLine l). destruct (isStampLine l); rewrite IH by exact N'.
    + rewrite orb_true_r. reflexivity.
    + reflexivity.
Qed.

Lemma untilFence_closed (fm body : list str) :
  ~ In FENCE fm ->
  untilFence (fm ++ FENCE :: body) = (fm ++ [FENCE], body).
Proof.
  induction fm as [|l fm IH]; intros N.
  - reflexivity.
  - cbn [app untilFence]. destruct (Js.eqb l FENCE) eqn:E.
    { apply eqb_eq in E. subst. exfalso. apply N. left. reflexivity. }
    rewrite IH by (intros I; apply N; right; exact I). reflexivity.
Qed.

(** X22: what a pass makes of a closed frontmatter block.  The fences and
    every other line stay in place; a line that starts with
    [asana_last_sync:] becomes the stamp line of this pass, each of them if
    there are several; and a block without such a line gets the stamp line
    right before its closing fence.  The lines after the block are
    rewritten one by one. *)
Theorem stamp_renewed_in_frontmatter
        (settings : AsanaSyncSettings) (sp : SyncedProject)
        (stamp content : str) (refreshed : list AsanaTask)
        (fm body : list str) :
  Js.split_nl content = FENCE :: fm ++ FENCE :: body ->
  ~ In FENCE fm ->
  newLines (rebuilt settings sp stamp content refreshed)
  = FENCE :: map (restamp stamp) fm
    ++ (if existsb isStampLine fm then [] else [lastSyncLine stamp])
    ++ FENCE :: flat_map (rewriteBodyLine settings (taskMapOf refreshed)) body.
Proof.
  intros L N. unfold rebuilt.
  destruct (rewrite_normal_form settings (taskMapOf refreshed) stamp
              (Js.split_nl content)) as (R & _).
  rewrite R, L. unfold frontmatterOf, bodyOf, splitFrontmatter.
  rewrite eqb_refl, (@untilFence_closed fm body N). cbn [fst snd rewriteFrontmatter].
  rewrite (@rewriteFm_closed stamp fm N false). cbn [orb app].
  rewrite <- !app_assoc. reflexivity.
Qed.

Lemma stamp_renewed_in_frontmatter_witness :
  let content :=
    Js.join_nl [FENCE; Js.lit "tags: work"; Js.lit "asana_last_sync: old";
                FENCE; Js.lit "# Proj"] in
  newLines (rebuilt (Sample.settings "tok" true) Sample.proj (Js.lit "T1")
                    content [])
  = [FENCE; Js.lit "tags: work"; lastSyncLine (Js.lit "T1"); FENCE;
     Js.lit "# Proj"].
Proof.
  intros content.
  apply (@stamp_renewed_in_frontmatter (Sample.settings "tok" true)
           Sample.proj (Js.lit "T1") content []
           [Js.lit "tags: work"; Js.lit "asana_last_sync: old"]
           [Js.lit "# Proj"]).
  - reflexivity.
  - intros I. vm_compute in I. intuition discriminate.
Defined.

Section OpenFrontmatter.

Context {Remote : Type} {RC : RemoteClient Remote}.

Lemma no_pushes (pushes : list Event) :
  map pushOf pushes = map Some (@nil (str * bool)) -> pushes = [].
Proof. destruct pushes; [reflexivity|discriminate]. Qed.

(** X23: a note that opens with a fence and has no second one is, to a
    run, frontmatter all the way down.  The run pushes nothing and counts
    no line as updated, whatever task lines the note holds; it keeps every
    line but the stamp lines, inserts no stamp, and takes every task the
    remote reports and the filter shows for new, also those the note
    shows already. *)
Theorem unterminated_frontmatter_run
        (settings : AsanaSyncSettings) (sp : SyncedProject)
        (w w2 : World Remote) (content : str) (stats : Stats)
        (refreshed : list AsanaTask) (fm : list str) :
  getAbstractFileByPath (notePath sp) (vault w) = Some (TFile content) ->
  syncProject settings sp w = (Some stats, w2) ->
  fetched (asanaAccessToken settings) sp (remote w2) = Some refreshed ->
  Js.split_nl content = FENCE :: fm ->
  ~ In FENCE fm ->
  let new := filter (fun t => negb (negb (showCompletedTasks settings)
                                    && completed t)) refreshed in
  stats = {| added := List.length new; updated := 0; completionChanges := 0 |}
  /\ getAbstractFileByPath (notePath sp) (vault w2)
     = Some (TFile (Js.join_nl
         (appendNewTasks settings sp new
            (FENCE :: map (restamp (now w)) fm))))
  /\ forall e, In e (skipn (List.length (events w)) (events w2)) ->
               isWrite e = true.
Proof.
  intros F R T L N new.
  destruct (syncProject_outcome settings sp w F R)
    as (ts0 & ts1 & pushes & _ & T1 & P & St & _ & Ev & Nt).
  rewrite T in T1. inversion T1; subst ts1. clear T1.
  destruct (rewrite_normal_form settings (taskMapOf refreshed) (now w)
              (Js.split_nl content)) as (R1 & R2 & R3).
  fold (rebuilt settings sp (now w) content refreshed) in R1, R2, R3.
  assert (Fm : frontmatterOf (Js.split_nl content) = FENCE :: fm
               /\ bodyOf (Js.split_nl content) = []).
  { rewrite L. unfold frontmatterOf, bodyOf, splitFrontmatter.
    rewrite eqb_refl, (@untilFence_none fm N). auto. }
  destruct Fm as (Fm & Bd). rewrite Fm, Bd in *.
  cbn [rewriteFrontmatter flat_map filter List.length app] in R1, R3.
  rewrite (@rewriteFm_open (now w) fm N false), app_nil_r in R1.
  assert (Tk : tasks (parseNoteContent content) = []).
  { rewrite (proj1 (parseNote_exact content)), Bd. reflexivity. }
  rewrite Tk in P. cbn in P. apply no_pushes in P. subst pushes.
  assert (Nw : newTasksOf settings
                 (seenGids (rebuilt settings sp (now w) content refreshed))
                 refreshed = new).
  { unfold newTasksOf, new. apply filter_ext_in. intros t _.
    destruct (set_has (gid t) _) eqn:Sn; [|reflexivity].
    apply R2 in Sn. destruct Sn as (l & [] & _). }
  unfold finalLines in Nt, Ev. rewrite Nw, R1 in Nt, Ev.
  rewrite Nw, R3 in St. cbn in St. split; [exact St|]. split; [exact Nt|].
  rewrite Ev. cbn [app]. rewrite skipn_app, skipn_all, Nat.sub_diag. cbn [app skipn].
  intros e. destruct (Js.eqb _ content); intros I; [destruct I|].
  destruct I as [<-|[]]. reflexivity.
Qed.

End OpenFrontmatter.

Lemma unterminated_frontmatter_run_witness :
  let content := Js.join_nl [FENCE; Js.lit "- [x] Draft <!-- asana:111 -->"] in
  let ts := [Sample.task "111" "Draft" false] in
  let settings := Sample.settings "tok" true in
  let w := Sample.world (Some content) ts "T1" in
  let w2 := snd (syncProject settings Sample.proj w) in
  {| added := 1; updated := 0; completionChanges := 0 |}
  = {| added := List.length ts; updated := 0; completionChanges := 0 |}
  /\ getAbstractFileByPath Sample.path (vault w2)
     = Some (TFile (Js.join_nl
         (appendNewTasks settings Sample.proj ts
            [FENCE; Js.lit "- [x] Draft <!-- asana:111 -->"])))
  /\ forall e, In e (skipn (List.length (events w)) (events w2)) ->
               isWrite e = true.
Proof.
  intros content ts settings w w2.
  apply (@unterminated_frontmatter_run (list AsanaTask) ListRemote.client
           settings Sample.proj w w2 content
           {| added := 1; updated := 0; completionChanges := 0 |} ts
           [Js.lit "- [x] Draft <!-- asana:111 -->"]).
  - reflexivity.
  - vm_compute. reflexivity.
  - reflexivity.
  - reflexivity.
  - intros I. vm_compute in I. intuition discriminate.
Defined.

(* ================================================================== *)
(** * Where step 3 puts a new task *)

Section Insertion.

Variables (settings : AsanaSyncSettings) (sp : SyncedProject).

Let fmt (t : AsanaTask) : str :=
  formatTaskLine t (showDueDates settings) (showAssignees settings).












End Insertion.

Section NewTaskPlace.

Variables (settings : AsanaSyncSettings) (sp : SyncedProject).

Context {Remote : Type} {RC : RemoteClient Remote}.


End NewTaskPlace.


(** The heading is looked up by its trimmed text, the spans are cut at the
    lines that start with ["## "]: an indented copy of the heading in
    section [A] draws the new task into [A], in front of the heading of its
    own section. *)
Lemma indented_heading_taken_for_heading :
  let doc := Js.join_nl [Js.lit "## A"; Js.lit "  ## Doing"; Js.lit "## Doing";
                         []] in
  let t := Sample.taskIn "Doing" "1" "New" false in
  let w := Sample.world (Some doc) [t] "T0" in
  let w2 := snd (syncProject (Sample.settings "tok" true) Sample.proj w) in
  sectionNameOf (projectGid Sample.proj) t = Js.lit "Doing"
  /\ Sample.noteOf w2
     = Some (TFile (Js.join_nl [Js.lit "## A"; Js.lit "  ## Doing";
                                Js.lit "- [ ] New <!-- asana:1 -->";
                                Js.lit "## Doing"; []])).
Proof. repeat split; vm_compute; reflexivity. Qed.

